(** * botfixzed: the per-repository patch pipeline

    A shallow embedding of [utils.ts], [bot2101.ts] and [bot2104.ts]:
    the version bumper, the two patch appliers, the PR publisher, the
    existing-PR query, the scoped directory switch and the retry wrapper.

    Text is modelled as [string] (the UTF-8 bytes of the JavaScript
    string; every pattern the bots search for is ASCII, so searching
    bytes and searching UTF-16 code units agree; where the code units
    themselves count, in [trim] and in [length], the encoded code
    points are read).  The file system, the
    working directory and the transcript of external commands form the
    explicit state of a small state-and-exception monad.  The imported
    packages whose source is not part of the repository and the child
    processes are fields of a [Platform] record the bots are
    parametrised by; [jsr:@std/semver], which decides what bumping a version
    means, is modelled in full in [SemVer]. *)

From Stdlib Require Import String Ascii List Bool Arith NArith Lia.
From Stdlib Require Import DecimalString.
Import ListNotations.

#[local] Set Warnings "-register-all".

#[local] Open Scope list_scope.
#[local] Open Scope string_scope.

(* ================================================================== *)
(** ** JavaScript string operations used by the bots *)

Module Str.

(** The double quote and the line feed, as one-character strings. *)
Definition dq : string := String "034"%char EmptyString.
Definition nl : string := String "010"%char EmptyString.

(** [s.startsWith(p)]. *)
Fixpoint startsWith (p s : string) : bool :=
  match p with
  | EmptyString => true
  | String a p' =>
      match s with
      | EmptyString => false
      | String b s' => Ascii.eqb a b && startsWith p' s'
      end
  end.

(** [s] with the prefix [p] removed, when [s] starts with [p]. *)
Fixpoint dropPrefix (p s : string) : option string :=
  match p with
  | EmptyString => Some s
  | String a p' =>
      match s with
      | EmptyString => None
      | String b s' => if Ascii.eqb a b then dropPrefix p' s' else None
      end
  end.

(** [s.endsWith(suf)]: some suffix of [s] is [suf]. *)
Fixpoint endsWith (suf s : string) : bool :=
  String.eqb suf s ||
  match s with
  | EmptyString => false
  | String _ s' => endsWith suf s'
  end.

(** [s.replace(/<suf>$/, empty)] for a literal [suf]: the match is
    the suffix of [s] that equals [suf], if there is one. *)
Fixpoint stripSuffix (suf s : string) : string :=
  if String.eqb suf s then EmptyString
  else match s with
       | EmptyString => EmptyString
       | String c s' => String c (stripSuffix suf s')
       end.

(** [s.includes(pat)]. *)
Fixpoint includes (pat s : string) : bool :=
  startsWith pat s ||
  match s with
  | EmptyString => false
  | String _ s' => includes pat s'
  end.

(** [s.replaceAll(old, new)] for a non-empty literal [old]: matches
    are taken left to right and do not overlap.  [skip] counts the
    characters of the current match that are still to be dropped. *)
Fixpoint replaceAllFrom (old new : string) (skip : nat) (s : string) : string :=
  match s with
  | EmptyString => EmptyString
  | String c s' =>
      match skip with
      | S k => replaceAllFrom old new k s'
      | O =>
          if startsWith old s
          then new ++ replaceAllFrom old new (String.length old - 1) s'
          else String c (replaceAllFrom old new 0 s')
      end
  end.

Definition replaceAll (old new s : string) : string :=
  replaceAllFrom old new 0 s.

(** [s.slice(n)] *)
Fixpoint skip (n : nat) (s : string) : string :=
  match n, s with
  | S k, String _ s' => skip k s'
  | _, _ => s
  end.

(** No character of [s] is [a]. *)
Definition lacks (a : ascii) (s : string) : bool :=
  (fix go (t : string) : bool :=
     match t with
     | EmptyString => true
     | String c t' => negb (Ascii.eqb a c) && go t'
     end) s.

(** The longest prefix of [s] without a double quote, and the rest. *)
Fixpoint spanUnquoted (s : string) : string * string :=
  match s with
  | EmptyString => (EmptyString, EmptyString)
  | String c s' =>
      if Ascii.eqb c "034"%char then (EmptyString, s)
      else let (v, r) := spanUnquoted s' in (String c v, r)
  end.

(** A match, at the start of [s], of the regular expression made of
    the literal [key] (which ends with the opening quote), one or more
    characters other than a quote, and the closing quote: the quoted
    text and what follows the closing quote.  The run of non-quote
    characters is greedy and cannot pass a quote, so the only
    candidate is the whole run up to the next quote. *)
Definition matchQuotedHere (key s : string) : option (string * string) :=
  match dropPrefix key s with
  | None => None
  | Some t =>
      match spanUnquoted t with
      | (String c v, String _ rest) => Some (String c v, rest)
      | _ => None
      end
  end.

(** The leftmost match of that expression in [s]: the text before
    the match, the quoted text, and the text after the match. *)
Fixpoint searchQuoted (key s : string) : option (string * string * string) :=
  match matchQuotedHere key s with
  | Some (v, rest) => Some (EmptyString, v, rest)
  | None =>
      match s with
      | EmptyString => None
      | String c s' =>
          match searchQuoted key s' with
          | Some (pre, v, rest) => Some (String c pre, v, rest)
          | None => None
          end
      end
  end.

(** [s.replace(re, repl)] for that expression [re] (no [g] flag) and
    a replacement text without [$]: the leftmost match is replaced,
    and [s] is returned as it is when there is none. *)
Definition replaceQuoted (key repl s : string) : string :=
  match searchQuoted key s with
  | Some (pre, _, rest) => pre ++ repl ++ rest
  | None => s
  end.

(** [s.split(sep)] for a one-character separator. *)
Fixpoint split (sep : ascii) (s : string) : list string :=
  match s with
  | EmptyString => [EmptyString]
  | String c s' =>
      if Ascii.eqb c sep then EmptyString :: split sep s'
      else match split sep s' with
           | [] => [String c EmptyString]
           | x :: xs => String c x :: xs
           end
  end.

(** [parts.join(sep)]. *)
Fixpoint join (sep : string) (parts : list string) : string :=
  match parts with
  | [] => EmptyString
  | [x] => x
  | x :: rest => x ++ sep ++ join sep rest
  end.

(** The text before the first [sep] and, when there is one, the text
    after it. *)
Fixpoint cut (sep : ascii) (s : string) : string * option string :=
  match s with
  | EmptyString => (EmptyString, None)
  | String c s' =>
      if Ascii.eqb c sep then (EmptyString, Some s')
      else let (a, b) := cut sep s' in (String c a, b)
  end.

Fixpoint forallb (p : ascii -> bool) (s : string) : bool :=
  match s with
  | EmptyString => true
  | String c s' => p c && forallb p s'
  end.

Definition isDigit (c : ascii) : bool :=
  let n := nat_of_ascii c in ((48 <=? n) && (n <=? 57))%nat.

Definition isAlpha (c : ascii) : bool :=
  let n := nat_of_ascii c in
  (((65 <=? n) && (n <=? 90)) || ((97 <=? n) && (n <=? 122)))%nat.

(** White space and line terminators of the ASCII range. *)
Definition isSpace (c : ascii) : bool :=
  let n := nat_of_ascii c in (((9 <=? n) && (n <=? 13)) || (n =? 32))%nat.

Definition isByte (c : ascii) (n : nat) : bool := (nat_of_ascii c =? n)%nat.

(** The white space with a two-byte encoding: U+00A0. *)
Definition isSpace2 (c d : ascii) : bool := isByte c 194 && isByte d 160.

(** The white space and the line terminators with a three-byte
    encoding: U+1680, U+2000 to U+200A, U+2028, U+2029, U+202F, U+205F,
    U+3000 and U+FEFF. *)
Definition isSpace3 (c d e : ascii) : bool :=
  let n := nat_of_ascii e in
  (isByte c 225 && isByte d 154 && isByte e 128) ||
  (isByte c 226 && isByte d 128 &&
   ((((128 <=? n) && (n <=? 138)) || (n =? 168) || (n =? 169) || (n =? 175))%nat)) ||
  (isByte c 226 && isByte d 129 && isByte e 159) ||
  (isByte c 227 && isByte d 128 && isByte e 128) ||
  (isByte c 239 && isByte d 187 && isByte e 191).

(** [s.trimStart()]: the code points [String.prototype.trim] takes for
    white space are removed, one encoded code point at a time. *)
Fixpoint trimStart (s : string) : string :=
  match s with
  | EmptyString => EmptyString
  | String c r =>
      if isSpace c then trimStart r
      else
        match r with
        | EmptyString => s
        | String d r2 =>
            if isSpace2 c d then trimStart r2
            else
              match r2 with
              | EmptyString => s
              | String e r3 => if isSpace3 c d e then trimStart r3 else s
              end
        end
  end.

(** [s] is made of white space only. *)
Definition isBlank (s : string) : bool :=
  match trimStart s with
  | EmptyString => true
  | String _ _ => false
  end.

(** [s.trimEnd()]: the text is cut where only white space follows.  A
    byte inside an encoded code point starts no white space, so the cut
    falls between code points. *)
Fixpoint trimEnd (s : string) : string :=
  match s with
  | EmptyString => EmptyString
  | String c s' => if isBlank s then EmptyString else String c (trimEnd s')
  end.

(** [s.trim()] *)
Definition trim (s : string) : string := trimEnd (trimStart s).

(** The UTF-16 code units a byte of an encoded text stands for: one
    for the first byte of a code point of the basic plane, two for the
    first byte of a four-byte encoding, none for a continuation byte. *)
Definition unitsOf (c : ascii) : nat :=
  let n := nat_of_ascii c in
  if (n <? 128)%nat then 1%nat
  else if (n <? 192)%nat then 0%nat
  else if (n <? 240)%nat then 1%nat
  else 2%nat.

(** [s.length], in UTF-16 code units. *)
Fixpoint codeUnits (s : string) : nat :=
  match s with
  | EmptyString => 0%nat
  | String c s' => (unitsOf c + codeUnits s')%nat
  end.

(** The number a run of decimal digits denotes. *)
Fixpoint digitsValue (acc : N) (s : string) : N :=
  match s with
  | EmptyString => acc
  | String c s' =>
      digitsValue (10 * acc + N.of_nat (nat_of_ascii c - 48))%N s'
  end.

(** [String(n)] for a non-negative integer. *)
Definition ofN (n : N) : string := NilZero.string_of_uint (N.to_uint n).

(** [s.replace(pat, repl)] for a literal pattern and a replacement
    text without [$]: the first occurrence of [pat] is replaced. *)
Fixpoint replaceFirst (pat repl s : string) : string :=
  match dropPrefix pat s with
  | Some t => repl ++ t
  | None =>
      match s with
      | EmptyString => EmptyString
      | String c s' => String c (replaceFirst pat repl s')
      end
  end.

End Str.

(* ================================================================== *)
(** ** The semantic-version package ([jsr:@std/semver] 1.0.4)

    [parse], [increment] at the release type [patch], and [format], as
    the package defines them.  Numeric pre-release identifiers are kept
    by their text, which is how [format] prints them. *)

Module SemVer.

Record t : Set := mk {
  major : N;
  minor : N;
  patch : N;
  prerelease : list string;
  build : list string
}.

Definition MAX_SAFE_INTEGER : N := 9007199254740991.
Definition MAX_LENGTH : nat := 256.

(** [0|[1-9]\d*] *)
Definition isNumericIdentifier (s : string) : bool :=
  match s with
  | EmptyString => false
  | String c EmptyString => Str.isDigit c
  | String c rest =>
      Str.isDigit c && negb (Ascii.eqb c "0"%char) && Str.forallb Str.isDigit rest
  end.

Definition isIdentifierChar (c : ascii) : bool :=
  Str.isDigit c || Str.isAlpha c || Ascii.eqb c "-"%char.

(** [[0-9A-Za-z-]+] *)
Definition isBuildIdentifier (s : string) : bool :=
  match s with
  | EmptyString => false
  | String _ _ => Str.forallb isIdentifierChar s
  end.

(** A numeric identifier, or [\d*[a-zA-Z-][a-zA-Z0-9-]*]. *)
Definition isPrereleaseIdentifier (s : string) : bool :=
  isNumericIdentifier s ||
  (isBuildIdentifier s && negb (Str.forallb Str.isDigit s)).

(** [parseNumber]: the number must be a safe integer. *)
Definition parseNumber (s : string) : option N :=
  if isNumericIdentifier s then
    let n := Str.digitsValue 0 s in
    if (n <=? MAX_SAFE_INTEGER)%N then Some n else None
  else None.

(** The dot-separated identifiers of an optional group of the full
    expression; an absent group gives no identifier. *)
Definition identifiers (ok : string -> bool) (group : option string)
  : option (list string) :=
  match group with
  | None => Some []
  | Some g =>
      let ids := Str.split "."%char g in
      if List.forallb ok ids then Some ids else None
  end.

(** [parse(value)]; [None] is the [TypeError] it throws. *)
Definition parse (value : string) : option t :=
  if (MAX_LENGTH <? Str.codeUnits value)%nat then None
  else
    let v := Str.trim value in
    let v := match v with
             | String "v"%char r => r
             | _ => v
             end in
    let (release, bld) := Str.cut "+"%char v in
    let (core, pre) := Str.cut "-"%char release in
    match Str.split "."%char core with
    | [ma; mi; pa] =>
        match parseNumber ma, parseNumber mi, parseNumber pa with
        | Some a, Some b, Some c =>
            match identifiers isPrereleaseIdentifier pre,
                  identifiers isBuildIdentifier bld with
            | Some p, Some m => Some (mk a b c p m)
            | _, _ => None
            end
        | _, _, _ => None
        end
    | _ => None
    end.

(** [increment(version, "patch")]: a version without pre-release gets
    the next patch number; a pre-release version is bumped up to the
    patch version it precedes.  The build metadata is kept. *)
Definition incrementPatch (v : t) : t :=
  let p := match prerelease v with
           | [] => (patch v + 1)%N
           | _ :: _ => patch v
           end in
  mk (major v) (minor v) p [] (build v).

(** [format(version)] *)
Definition format (v : t) : string :=
  let primary :=
    Str.ofN (major v) ++ "." ++ Str.ofN (minor v) ++ "." ++ Str.ofN (patch v) in
  let pre := Str.join "." (prerelease v) in
  let bld := Str.join "." (build v) in
  let release := match pre with
                 | EmptyString => primary
                 | _ => primary ++ "-" ++ pre
                 end in
  match bld with
  | EmptyString => release
  | _ => release ++ "+" ++ bld
  end.

End SemVer.

(* ================================================================== *)
(** ** JavaScript values of parsed configuration *)

(** What [JSON.parse] and the TOML parser return.  [JOpaque] stands for
    a value the bots only pass on to the serializer (a number that is
    not an integer, a date), named by its rendering. *)
Inductive JsValue : Set :=
| JNull
| JBool (b : bool)
| JNum (n : N)
| JStr (s : string)
| JArr (items : list JsValue)
| JObj (props : list (string * JsValue))
| JOpaque (text : string).

Module Js.

Fixpoint assoc {A : Type} (k : string) (l : list (string * A)) : option A :=
  match l with
  | [] => None
  | (k', v) :: l' => if String.eqb k k' then Some v else assoc k l'
  end.

(** [props] with the property [k] set to [v]: an existing property
    keeps its place, a new one comes last. *)
Fixpoint assocSet {A : Type} (k : string) (v : A) (l : list (string * A))
  : list (string * A) :=
  match l with
  | [] => [(k, v)]
  | (k', v') :: l' =>
      if String.eqb k k' then (k, v) :: l' else (k', v') :: assocSet k v l'
  end.

(** [o.k] on a parsed object; [None] is [undefined]. *)
Definition get (k : string) (o : JsValue) : option JsValue :=
  match o with
  | JObj props => assoc k props
  | _ => None
  end.

(** [props] without the property [k]. *)
Fixpoint dropKey {A : Type} (k : string) (l : list (string * A))
  : list (string * A) :=
  match l with
  | [] => []
  | (k', v) :: l' =>
      if String.eqb k k' then dropKey k l' else (k', v) :: dropKey k l'
  end.

(** [delete o.k]: it throws on [null], removes the property of an
    object, and leaves any other value as it is. *)
Definition deleteProp (k : string) (o : JsValue) : option JsValue :=
  match o with
  | JNull => None
  | JObj props => Some (JObj (dropKey k props))
  | _ => Some o
  end.

End Js.

(* ================================================================== *)
(** ** The file system and the process state *)

(** A file-system node: a regular file with its text, or a directory
    with its entries in the order [Deno.readDirSync] yields them. *)
Inductive node : Set :=
| File (content : string)
| Dir (entries : list (string * node)).

(** A path as the bots build it: the segments of an absolute path, or
    of a path relative to the working directory.  A repository name and
    an entry name are one segment each, so the template
    [`${name}/extension.toml`] is [Rel [name; "extension.toml"]]. *)
Inductive fpath : Set :=
| Abs (components : list string)
| Rel (components : list string).

Module Fs.

Fixpoint lookup (p : list string) (n : node) : option node :=
  match p with
  | [] => Some n
  | x :: p' =>
      match n with
      | File _ => None
      | Dir es =>
          match Js.assoc x es with
          | Some m => lookup p' m
          | None => None
          end
      end
  end.

(** Write the text [c] to the regular file at [p]: the file is
    replaced, or created in its directory (as the last entry) when
    only the directory exists. *)
Fixpoint write (p : list string) (c : string) (n : node) : option node :=
  match p with
  | [] =>
      match n with
      | File _ => Some (File c)
      | Dir _ => None
      end
  | x :: p' =>
      match n with
      | File _ => None
      | Dir es =>
          match Js.assoc x es with
          | Some m =>
              match write p' c m with
              | Some m' => Some (Dir (Js.assocSet x m' es))
              | None => None
              end
          | None =>
              match p' with
              | [] => Some (Dir (es ++ [(x, File c)])%list)
              | _ :: _ => None
              end
          end
      end
  end.

Fixpoint dropEntry (x : string) (es : list (string * node)) : list (string * node) :=
  match es with
  | [] => []
  | (y, m) :: es' => if String.eqb x y then es' else (y, m) :: dropEntry x es'
  end.

(** Remove the node at [p] with everything below it. *)
Fixpoint remove (p : list string) (n : node) : option node :=
  match p with
  | [] => None
  | x :: p' =>
      match n with
      | File _ => None
      | Dir es =>
          match Js.assoc x es with
          | None => None
          | Some m =>
              match p' with
              | [] => Some (Dir (dropEntry x es))
              | _ :: _ =>
                  match remove p' m with
                  | Some m' => Some (Dir (Js.assocSet x m' es))
                  | None => None
                  end
              end
          end
      end
  end.

Definition isDir (o : option node) : bool :=
  match o with
  | Some (Dir _) => true
  | _ => false
  end.

Definition isFile (n : node) : bool :=
  match n with
  | File _ => true
  | Dir _ => false
  end.

(** The text of the regular file at [p]. *)
Definition readFile (p : list string) (n : node) : option string :=
  match lookup p n with
  | Some (File c) => Some c
  | _ => None
  end.

(** The entry names of the directory at [p], in listing order. *)
Definition listing (p : list string) (n : node) : option (list string) :=
  match lookup p n with
  | Some (Dir es) => Some (map fst es)
  | _ => None
  end.

(** Create an empty directory at [p]: the parent must be a directory
    and must have no entry of that name. *)
Fixpoint mkdir (p : list string) (n : node) : option node :=
  match p with
  | [] => None
  | x :: p' =>
      match n with
      | File _ => None
      | Dir es =>
          match Js.assoc x es with
          | Some m =>
              match p' with
              | [] => None
              | _ :: _ =>
                  match mkdir p' m with
                  | Some m' => Some (Dir (Js.assocSet x m' es))
                  | None => None
                  end
              end
          | None =>
              match p' with
              | [] => Some (Dir (es ++ [(x, Dir [])])%list)
              | _ :: _ => None
              end
          end
      end
  end.

(** What a removal without the [recursive] option accepts: a regular
    file or an empty directory. *)
Definition isLeaf (n : node) : bool :=
  match n with
  | File _ => true
  | Dir [] => true
  | Dir (_ :: _) => false
  end.

(** Remove the regular file or the empty directory at [p]. *)
Fixpoint removeLeaf (p : list string) (n : node) : option node :=
  match p with
  | [] => None
  | x :: p' =>
      match n with
      | File _ => None
      | Dir es =>
          match Js.assoc x es with
          | None => None
          | Some m =>
              match p' with
              | [] => if isLeaf m then Some (Dir (dropEntry x es)) else None
              | _ :: _ =>
                  match removeLeaf p' m with
                  | Some m' => Some (Dir (Js.assocSet x m' es))
                  | None => None
                  end
              end
          end
      end
  end.

End Fs.

(** What [run] returns for a finished child process. *)
Record RunResult : Set := mkRun {
  success : bool;
  stdout : string;
  stderr : string
}.

(** How an external command ended: the process finished with the
    given success flag, or it could not be spawned. *)
Inductive ending : Set :=
| Exited (ok : bool)
| NotSpawned.

(** The process state: the file system, the working directory (the
    components of its absolute path) and the transcript of the external
    commands invoked so far, each with its ending. *)
Record State : Set := mkState {
  root : node;
  cwd : list string;
  transcript : list (list string * ending)
}.

(** The outcome of a call: a returned value or a thrown error. *)
Inductive result (A : Type) : Type :=
| Ok (a : A)
| Throw (e : string).
Arguments Ok {A} a.
Arguments Throw {A} e.

Definition M (A : Type) : Type := State -> result A * State.

Definition ret {A : Type} (a : A) : M A := fun st => (Ok a, st).

Definition throw {A : Type} (e : string) : M A := fun st => (Throw e, st).

Definition bind {A B : Type} (m : M A) (k : A -> M B) : M B :=
  fun st =>
    match m st with
    | (Ok a, st') => k a st'
    | (Throw e, st') => (Throw e, st')
    end.

Notation "x <- m ;; k" := (bind m (fun x => k))
  (at level 61, m at next level, right associativity).
Notation "m ;;; k" := (bind m (fun _ => k))
  (at level 61, right associativity).

(** A value that a failed library call would have thrown for. *)
Definition orThrow {A : Type} (e : string) (o : option A) : M A :=
  match o with
  | Some a => ret a
  | None => throw e
  end.

(** [using r = acquire; body] in JavaScript: the resource is disposed of when the
    scope is left, whether [body] returned or threw; nothing is
    disposed of when [acquire] itself throws.  An error thrown by the
    disposal leaves the scope in place of the body's outcome. *)
Definition usingScope {R A : Type} (acquire : M R) (dispose : R -> M unit) (body : M A) : M A :=
  fun st =>
    match acquire st with
    | (Throw e, st1) => (Throw e, st1)
    | (Ok r, st1) =>
        let (res, st2) := body st1 in
        match dispose r st2 with
        | (Ok _, st3) => (res, st3)
        | (Throw e, st3) => (Throw e, st3)
        end
    end.

(** [try { m } catch { /* ignore */ }] *)
Definition ignoringErrors {A : Type} (m : M A) : M unit :=
  fun st =>
    match m st with
    | (Ok _, st') => (Ok tt, st')
    | (Throw _, st') => (Ok tt, st')
    end.

(** *** The Deno and Node calls the bots make *)

Module Deno.

Definition resolve (st : State) (p : fpath) : list string :=
  match p with
  | Abs cs => cs
  | Rel cs => (cwd st ++ cs)%list
  end.

(** [`${p}/${name}`] *)
Definition child (p : fpath) (name : string) : fpath :=
  match p with
  | Abs cs => Abs (cs ++ [name])%list
  | Rel cs => Rel (cs ++ [name])%list
  end.

Definition stat (p : fpath) (st : State) : option node :=
  Fs.lookup (resolve st p) (root st).

(** [existsSync(p)] of [node:fs]: it never throws. *)
Definition existsSync (p : fpath) (st : State) : bool :=
  match stat p st with
  | Some _ => true
  | None => false
  end.

(** [Deno.cwd()]: it throws when the working directory is gone. *)
Definition getCwd : M fpath :=
  fun st =>
    if Fs.isDir (Fs.lookup (cwd st) (root st)) then (Ok (Abs (cwd st)), st)
    else (Throw "NotFound: cwd", st).

(** [Deno.chdir(p)] *)
Definition chdir (p : fpath) : M unit :=
  fun st =>
    if Fs.isDir (stat p st)
    then (Ok tt, mkState (root st) (resolve st p) (transcript st))
    else (Throw "NotFound: chdir", st).

(** [Deno.readTextFileSync(p)] *)
Definition readTextFileSync (p : fpath) : M string :=
  fun st =>
    match stat p st with
    | Some (File c) => (Ok c, st)
    | _ => (Throw "NotFound: readTextFile", st)
    end.

(** [Deno.writeTextFileSync(p, text)] *)
Definition writeTextFileSync (p : fpath) (text : string) : M unit :=
  fun st =>
    match Fs.write (resolve st p) text (root st) with
    | Some r => (Ok tt, mkState r (cwd st) (transcript st))
    | None => (Throw "NotFound: writeTextFile", st)
    end.

(** [Deno.readDirSync(p)]: the entries of the directory, in the
    order of the iteration. *)
Definition readDirSync (p : fpath) : M (list (string * node)) :=
  fun st =>
    match stat p st with
    | Some (Dir es) => (Ok es, st)
    | _ => (Throw "NotFound: readDir", st)
    end.

(** [Deno.removeSync(p, { recursive: true })] *)
Definition removeSync (p : fpath) : M unit :=
  fun st =>
    match Fs.remove (resolve st p) (root st) with
    | Some r => (Ok tt, mkState r (cwd st) (transcript st))
    | None => (Throw "NotFound: remove", st)
    end.

(** [Deno.removeSync(p)], without options. *)
Definition removeLeafSync (p : fpath) : M unit :=
  fun st =>
    match Fs.removeLeaf (resolve st p) (root st) with
    | Some r => (Ok tt, mkState r (cwd st) (transcript st))
    | None => (Throw "NotFound: remove", st)
    end.

(** [Deno.mkdirSync(p)] *)
Definition mkdirSync (p : fpath) : M unit :=
  fun st =>
    match Fs.mkdir (resolve st p) (root st) with
    | Some r => (Ok tt, mkState r (cwd st) (transcript st))
    | None => (Throw "AlreadyExists: mkdir", st)
    end.

End Deno.

(* ================================================================== *)
(** ** What the bots import and spawn

    The child processes ([gh], [git]), the clock, [JSON.parse], the
    TOML parser and serializer of [jsr:@std/toml] and [kebabCase] of
    [jsr:@luca/cases] are not part of the repository.  The bots are
    parametrised by them; an [option] is [None] where the call throws.

    [exec st cmd] is what running [cmd] in the state [st] does: the
    finished process and the file system it leaves, or [None] when the
    process cannot be spawned. *)
Record Platform : Type := mkPlatform {
  exec : State -> list string -> option (RunResult * node);
  Date_now : State -> N;
  JSON_parse : string -> option JsValue;
  parseToml : string -> option JsValue;
  stringifyToml : JsValue -> option string;
  kebabCase : string -> string
}.

(** A repository of the tracking issue: the link target and its last
    two segments. *)
Record RepoRef : Set := mkRepo {
  repo_href : string;
  repo_user : string;
  repo_name : string
}.

Record OpenPrArgs : Set := mkOpenPr {
  repoUser : string;
  repoName : string;
  botUsername : string;
  commitMsg : string;
  prTitle : string;
  prBody : string
}.

(** The old and the new attribute key of the theme files. *)
Definition OLD_KEY : string := "scrollbar_thumb.background".
Definition NEW_KEY : string := "scrollbar.thumb.background".

(** The literal parts of the two version patterns of [bumpVersion],
    up to and including the opening quote. *)
Definition TOML_VERSION : string := "version = " ++ Str.dq.
Definition JSON_VERSION : string := Str.dq ++ "version" ++ Str.dq ++ ": " ++ Str.dq.

Section Bots.

Variable P : Platform.

(** *** utils.ts *)

(** [run(cmd)]: the invocation is appended to the transcript; the
    call throws when the process cannot be spawned, and returns the
    success flag and the output otherwise. *)
Definition run (cmd : list string) : M RunResult :=
  fun st =>
    match exec P st cmd with
    | Some (r, fs) =>
        (Ok r, mkState fs (cwd st) (transcript st ++ [(cmd, Exited (success r))])%list)
    | None =>
        (Throw "spawn", mkState (root st) (cwd st) (transcript st ++ [(cmd, NotSpawned)])%list)
    end.

Definition fetchRepo (repo : string) : M unit :=
  run ["gh"; "repo"; "clone"; repo] ;;; ret tt.

(** The string property [k] of a parsed object.  Reading a property
    of [null] or [undefined] throws; the bots use the properties read
    here as strings, and the model also throws for a value of
    another type. *)
Definition stringProp (k : string) (o : JsValue) : M string :=
  match Js.get k o with
  | Some (JStr s) => ret s
  | _ => throw "TypeError"
  end.

Definition getCurrentRepoInfo (user name : string) : M (string * string) :=
  r <- run ["gh"; "repo"; "view"; user ++ "/" ++ name; "--json"; "name,owner"] ;;
  if negb (success r) then throw "Failed to get repo info"
  else
    repoData <- orThrow "SyntaxError" (JSON_parse P (stdout r)) ;;
    owner <- orThrow "TypeError" (Js.get "owner" repoData) ;;
    login <- stringProp "login" owner ;;
    name' <- stringProp "name" repoData ;;
    ret (login, name').

(** [bumpVersion(name)] *)
Definition bumpVersion (name : string) : M unit :=
  let tomlConfigPath := Rel [name; "extension.toml"] in
  let jsonConfigPath := Rel [name; "extension.json"] in
  fun st =>
    if Deno.existsSync tomlConfigPath st then
      (tomlFile <- Deno.readTextFileSync tomlConfigPath ;;
       tomlConfig <- orThrow "TomlError" (parseToml P tomlFile) ;;
       version <- stringProp "version" tomlConfig ;;
       parsed <- orThrow "TypeError" (SemVer.parse version) ;;
       let newVersion := SemVer.format (SemVer.incrementPatch parsed) in
       let tomlFile' :=
         Str.replaceQuoted TOML_VERSION (TOML_VERSION ++ newVersion ++ Str.dq) tomlFile in
       Deno.writeTextFileSync tomlConfigPath tomlFile') st
    else if Deno.existsSync jsonConfigPath st then
      (jsonFile <- Deno.readTextFileSync jsonConfigPath ;;
       jsonConfig <- orThrow "SyntaxError" (JSON_parse P jsonFile) ;;
       version <- stringProp "version" jsonConfig ;;
       parsed <- orThrow "TypeError" (SemVer.parse version) ;;
       let newVersion := SemVer.format (SemVer.incrementPatch parsed) in
       let jsonFile' :=
         Str.replaceQuoted JSON_VERSION (JSON_VERSION ++ newVersion ++ Str.dq) jsonFile in
       Deno.writeTextFileSync jsonConfigPath jsonFile') st
    else (Ok tt, st).

(** [retry(fn)].  [answers] are the operator's answers to the
    prompts still to come; [confirm] takes the next one, and is false
    when none is left (the input is closed).  The loop runs again only
    after an answer was read, so it is defined by recursion on the
    answers; it returns what is left of them. *)
Fixpoint retry (fn : M unit) (answers : list bool) (st : State)
  : result unit * list bool * State :=
  match fn st with
  | (Ok _, st') => (Ok tt, answers, st')
  | (Throw _, st') =>
      match answers with
      | [] => (Ok tt, [], st')
      | a :: rest =>
          if negb a then (Ok tt, rest, st')
          else retry fn rest st'
      end
  end.

Definition correctRepoInfo (repo : RepoRef) : M RepoRef :=
  info <- getCurrentRepoInfo (repo_user repo) (Str.stripSuffix ".git" (repo_name repo)) ;;
  ret (mkRepo (repo_href repo) (fst info) (snd info)).

Definition prListCmd (user repo username : string) : list string :=
  ["gh"; "pr"; "list"; "--repo"; user ++ "/" ++ repo;
   "--author"; username; "--json"; "number,headRefName"].

(** [getExistingPR(user, repo, username)]; [None] is [null].  The
    listing [gh] prints is an array of objects with a string
    [headRefName]; the empty string, whose [length] is 0 too, also
    gives [null].  For a first element without a string [headRefName]
    the source returns whatever the property holds ([undefined] when
    it is missing), which is no branch name; the model stops there
    with an error, and no statement below rests on that error. *)
Definition getExistingPR (user repo username : string) : M (option string) :=
  r <- run (prListCmd user repo username) ;;
  if negb (success r) then ret None
  else
    prs <- orThrow "SyntaxError" (JSON_parse P (stdout r)) ;;
    match prs with
    | JArr [] => ret None
    | JStr EmptyString => ret None
    | JArr (pr :: _) =>
        branch <- stringProp "headRefName" pr ;;
        ret (Some branch)
    | _ => throw "TypeError"
    end.

(** [switchDirTemp(dir)]: the value returned stands for the
    disposable object, which holds [originalDir]. *)
Definition switchDirTemp (dir : fpath) : M fpath :=
  originalDir <- Deno.getCwd ;;
  Deno.chdir dir ;;;
  ret originalDir.

(** [[Symbol.dispose]()] of that object. *)
Definition disposeDir (originalDir : fpath) : M unit :=
  Deno.chdir originalDir.

(** [{ using _ = switchDirTemp(dir); body }] *)
Definition withDir {A : Type} (dir : fpath) (body : M A) : M A :=
  usingScope (switchDirTemp dir) disposeDir body.

Definition commitCmd (msg : string) : list string :=
  ["git"; "commit"; "-m"; msg].

Definition pushCmd (branchName : string) : list string :=
  ["git"; "push"; "-u"; "fork"; branchName].

Definition prCreateCmd (title body user name : string) : list string :=
  ["gh"; "pr"; "create"; "--title"; title; "--body"; body;
   "--repo"; user ++ "/" ++ name].

Definition remoteAddCmd (username name : string) : list string :=
  ["git"; "remote"; "add"; "fork";
   "https://github.com/" ++ username ++ "/" ++ name ++ ".git"].

Definition now : M N := fun st => (Ok (Date_now P st), st).

(** What [openPR] does inside the cloned repository. *)
Definition publish (a : OpenPrArgs) (branchName : string) : M unit :=
  run ["git"; "diff"] ;;;
  run ["gh"; "repo"; "fork"; repoUser a ++ "/" ++ repoName a; "--remote=false"] ;;;
  run (remoteAddCmd (botUsername a) (repoName a)) ;;;
  run ["git"; "checkout"; "-b"; branchName] ;;;
  run ["git"; "add"; "."] ;;;
  commitResult <- run (commitCmd (commitMsg a)) ;;
  if negb (success commitResult) then ret tt
  else
    run (pushCmd branchName) ;;;
    run (prCreateCmd (prTitle a) (prBody a) (repoUser a) (repoName a)) ;;;
    ret tt.

(** [openPR(args)] *)
Definition openPR (a : OpenPrArgs) : M unit :=
  t <- now ;;
  let branchName := "update-attr-" ++ Str.ofN t in
  withDir (Rel [repoName a]) (publish a branchName).

Definition fetchPrAndSetupBranch (name branchName botUser : string) : M unit :=
  withDir (Rel [name])
    (run (remoteAddCmd botUser name) ;;;
     run ["git"; "fetch"; "fork"] ;;;
     run ["git"; "checkout"; "fork/" ++ branchName] ;;;
     ret tt).

Definition UPDATE_COMMIT_MSG : string :=
  "rename scrollbar_thumb.background to scrollbar.thumb.background".

(** What [updatePr] does inside the cloned repository. *)
Definition pushUpdate (branchName : string) : M unit :=
  run ["git"; "diff"] ;;;
  run ["git"; "add"; "."] ;;;
  commitResult <- run (commitCmd UPDATE_COMMIT_MSG) ;;
  if negb (success commitResult) then ret tt
  else
    run (pushCmd branchName) ;;;
    ret tt.

(** [updatePr(args)] *)
Definition updatePr (user name branchName : string) : M unit :=
  withDir (Rel [name]) (pushUpdate branchName).

(** [getGitHubUsername()] *)
Definition getGitHubUsername : M string :=
  r <- run ["gh"; "api"; "user"; "--jq"; ".login"] ;;
  if negb (success r) then throw "Failed to get GitHub username"
  else ret (Str.trim (stdout r)).

(** [createWorkDir()] *)
Definition createWorkDir : M fpath :=
  here <- Deno.getCwd ;;
  let path := Deno.child here "work" in
  ignoringErrors (Deno.removeSync path) ;;;
  Deno.mkdirSync path ;;;
  ret path.

(** An entry of the list [getReposWithIssueN] returns: the link target
    and the two names destructured from its last segments, each
    [undefined] when the segment is not there. *)
Record LinkRepo : Set := mkLink {
  link_repo : string;
  link_user : option string;
  link_name : option string
}.

(** [segments.slice(-2)] *)
Definition lastTwo (segments : list string) : list string :=
  skipn (List.length segments - 2) segments.

(** The object built from one link target. *)
Definition repoOfHref (href : string) : LinkRepo :=
  let parts := lastTwo (Str.split "/"%char href) in
  mkLink href (nth_error parts 0) (nth_error parts 1).

(** [!href?.includes("issues")] for the [href] attribute of a link,
    [None] when the link has none. *)
Definition keepsHref (href : option string) : bool :=
  match href with
  | Some h => negb (Str.includes "issues" h)
  | None => true
  end.

(** The [map] over the kept targets: [assert(repo)] rejects a missing
    and an empty target. *)
Fixpoint reposOfHrefs (hrefs : list (option string)) : result (list LinkRepo) :=
  match hrefs with
  | [] => Ok []
  | Some (String c h) :: rest =>
      match reposOfHrefs rest with
      | Ok repos => Ok (repoOfHref (String c h) :: repos)
      | Throw e => Throw e
      end
  | _ :: _ => Throw "AssertionError"
  end.

(** [getReposWithIssueN(issueN)] from the links of the task list on:
    [links] are the [href] attributes of the anchors of the first
    element of class [contains-task-list], [None] when the page has no
    such element. *)
Definition reposOfTaskList (links : option (list (option string)))
  : result (list LinkRepo) :=
  match links with
  | None => Throw "AssertionError"
  | Some hrefs => reposOfHrefs (filter keepsHref hrefs)
  end.

(** *** bot2101.ts *)

(** [findThemes()]: the paths the generator yields. *)
Definition findThemes : M (list fpath) :=
  es <- Deno.readDirSync (Rel ["themes"]) ;;
  ret (map (fun e => Rel ["themes"; fst e])
           (filter (fun e => Str.endsWith ".json" (fst e)) es)).

(** The loop of [patchScrollbarThumbBg] over the theme paths. *)
Fixpoint patchThemes (themes : list fpath) (changes : bool) : M bool :=
  match themes with
  | [] => ret changes
  | themePath :: rest =>
      theme <- Deno.readTextFileSync themePath ;;
      if negb (Str.includes OLD_KEY theme) then patchThemes rest changes
      else
        Deno.writeTextFileSync themePath (Str.replaceAll OLD_KEY NEW_KEY theme) ;;;
        patchThemes rest true
  end.

(** [patchScrollbarThumbBg(repo)] *)
Definition patchScrollbarThumbBg (repo : string) : M bool :=
  withDir (Rel [repo])
    (themes <- findThemes ;;
     changes <- patchThemes themes false ;;
     if changes then ret true else ret false).

Definition PR_TITLE_2101 : string :=
  "Rename scrollbar_thumb.background to scrollbar.thumb.background".

Definition PR_BODY_2101 : string :=
  "See issue https://github.com/zed-industries/extensions/issues/2101" ++ Str.nl ++
  "        This PR was autogenerated and have not been tested manually, please verify before merge." ++ Str.nl ++
  "        Bot script: https://github.com/sigmaSd/botfixzed/blob/master/bot2101.ts".

(** The branch of the pipeline taken when a pull request of the bot
    is open: its branch is fetched and updated. *)
Definition updateExisting2101 (botUser : string) (repo : RepoRef) (branch : string) : M unit :=
  fetchPrAndSetupBranch (repo_name repo) branch botUser ;;;
  changed <- patchScrollbarThumbBg (repo_name repo) ;;
  if changed then updatePr (repo_user repo) (repo_name repo) branch
  else ret tt.

(** The branch taken otherwise: patch, bump, open a pull request. *)
Definition createNew2101 (botUser : string) (repo : RepoRef) : M unit :=
  changed <- patchScrollbarThumbBg (repo_name repo) ;;
  if changed then
    bumpVersion (repo_name repo) ;;;
    openPR (mkOpenPr (repo_user repo) (repo_name repo) botUser
              UPDATE_COMMIT_MSG PR_TITLE_2101 PR_BODY_2101)
  else ret tt.

(** [existingPRBranchName !== null] decides between the two. *)
Definition dispatch2101 (botUser : string) (repo : RepoRef) (existing : option string) : M unit :=
  match existing with
  | Some branch => updateExisting2101 botUser repo branch
  | None => createNew2101 botUser repo
  end.

(** The function the main loop of [bot2101.ts] hands to [retry] for
    one repository. *)
Definition pipeline2101 (botUser : string) (repo : RepoRef) : M unit :=
  repo' <- correctRepoInfo repo ;;
  fetchRepo (repo_href repo') ;;;
  existing <- getExistingPR (repo_user repo') (repo_name repo') botUser ;;
  dispatch2101 botUser repo' existing.

(** *** bot2104.ts *)

Record RepoConfig : Set := mkRepoConfig {
  config_name : string;
  config_content : string
}.

(** The first entry of a directory listing that is a regular file
    with a name ending in [.toml]. *)
Definition isTomlFile (e : string * node) : bool :=
  Fs.isFile (snd e) && Str.endsWith ".toml" (fst e).

(** [findRepoConfig(path)]; [None] is [undefined]. *)
Definition findRepoConfig (path : fpath) : M (option RepoConfig) :=
  fun st =>
    if negb (Deno.existsSync (Deno.child path "grammars") st) then (Ok None, st)
    else
      (es <- Deno.readDirSync (Deno.child path "grammars") ;;
       match find isTomlFile es with
       | Some (name, _) =>
           content <- Deno.readTextFileSync
                        (Deno.child (Deno.child path "grammars") name) ;;
           ret (Some (mkRepoConfig (Str.stripSuffix ".toml" name) content))
       | None => ret None
       end) st.

(** The text [portExtToToml] appends for a companion configuration. *)
Definition grammarSuffix (c : RepoConfig) : string :=
  "grammar = " ++ Str.dq ++ config_name c ++ Str.dq ++
  Str.nl ++ "[grammars." ++ config_name c ++ "]" ++ Str.nl ++ config_content c.

(** The manifest object after the three assignments to [id],
    [version] and [schema_version]. *)
Definition portedManifest (props : list (string * JsValue)) (id version : string)
  : JsValue :=
  JObj (Js.assocSet "schema_version" (JNum 1)
         (Js.assocSet "version" (JStr version)
           (Js.assocSet "id" (JStr id) props))).

(** [portExtToToml()].  The legacy manifest is an object; a [name]
    that is not a string makes [kebabCase] throw. *)
Definition portExtToToml : M bool :=
  fun st =>
    if Deno.existsSync (Rel ["extension.toml"]) st then (Ok false, st)
    else
      (jsonFile <- Deno.readTextFileSync (Rel ["extension.json"]) ;;
       jsonConfig <- orThrow "SyntaxError" (JSON_parse P jsonFile) ;;
       match jsonConfig with
       | JObj props =>
           name <- stringProp "name" jsonConfig ;;
           let id := kebabCase P name in
           version <- stringProp "version" jsonConfig ;;
           parsed <- orThrow "TypeError" (SemVer.parse version) ;;
           let version' := SemVer.format (SemVer.incrementPatch parsed) in
           tomlConfig <- orThrow "TomlError"
                           (stringifyToml P (portedManifest props id version')) ;;
           here <- Deno.getCwd ;;
           maybeRepoConfig <- findRepoConfig here ;;
           let tomlConfig' :=
             match maybeRepoConfig with
             | Some c => tomlConfig ++ grammarSuffix c
             | None => tomlConfig
             end in
           Deno.writeTextFileSync (Rel ["extension.toml"]) tomlConfig' ;;;
           ret true
       | _ => throw "TypeError"
       end) st.

(** [_updateExistingPRRemoveJsonConfig()] *)
Definition _updateExistingPRRemoveJsonConfig : M bool :=
  fun st =>
    if negb (Deno.existsSync (Rel ["extension.json"]) st) then (Ok false, st)
    else (Deno.removeLeafSync (Rel ["extension.json"]) ;;; ret true) st.

(** The parsed manifest after the three [delete]s of [updateCleanup]. *)
Definition cleanedManifest (tomlConfig : JsValue) : option JsValue :=
  match Js.deleteProp "grammar" tomlConfig with
  | Some c1 =>
      match Js.deleteProp "grammarsDELETE" c1 with
      | Some c2 => Js.deleteProp "languages" c2
      | None => None
      end
  | None => None
  end.

(** [updateCleanup()] *)
Definition updateCleanup : M bool :=
  fun st =>
    if negb (Deno.existsSync (Rel ["extension.toml"]) st) then (Ok false, st)
    else
      (tomlFileOld <- Deno.readTextFileSync (Rel ["extension.toml"]) ;;
       tomlConfig <- orThrow "TomlError"
                       (parseToml P (Str.replaceFirst "[grammars]" "[grammarsDELETE]"
                                       tomlFileOld)) ;;
       cleaned <- orThrow "TypeError" (cleanedManifest tomlConfig) ;;
       ignoringErrors (Deno.removeSync (Rel ["grammars"])) ;;;
       tomlFileNew <- orThrow "TomlError" (stringifyToml P cleaned) ;;
       Deno.writeTextFileSync (Rel ["extension.toml"]) tomlFileNew ;;;
       ret (negb (String.eqb tomlFileNew tomlFileOld))) st.

Definition PR_BODY_2104 : string :=
  "This PR adds 'extension.toml' file, converting from the existing 'extension.json' configuration." ++ Str.nl ++
  "           See https://github.com/zed-industries/extensions/issues/2104" ++ Str.nl ++
  Str.nl ++
  "           This change was generated automatically and needs to be manually tested." ++ Str.nl ++
  "           Bot script: https://github.com/sigmaSd/botfixzed/blob/master/bot2104.ts".

(** The branch of the loop body of [bot2104.ts] taken for an open pull
    request of the bot.  [updatePr] takes no commit message: the one
    passed here is not used. *)
Definition updateExisting2104 (botUser : string) (repo : RepoRef) (branch : string) : M unit :=
  fetchPrAndSetupBranch (repo_name repo) branch botUser ;;;
  changes <- withDir (Rel [repo_name repo])
               (removed <- _updateExistingPRRemoveJsonConfig ;;
                cleaned <- updateCleanup ;;
                ret (removed || cleaned)) ;;
  if changes then updatePr (repo_user repo) (repo_name repo) branch
  else ret tt.

(** The branch taken otherwise: port the manifest, open a pull request. *)
Definition createNew2104 (botUser : string) (repo : RepoRef) : M unit :=
  changed <- withDir (Rel [repo_name repo]) portExtToToml ;;
  if changed then
    openPR (mkOpenPr (repo_user repo) (repo_name repo) botUser
              "add extension.toml" "Add extension.toml" PR_BODY_2104)
  else ret tt.

(** [if (existingPRBranchName)]: [null] and the empty string are both
    falsy. *)
Definition dispatch2104 (botUser : string) (repo : RepoRef) (existing : option string) : M unit :=
  match existing with
  | Some (String c b) => updateExisting2104 botUser repo (String c b)
  | _ => createNew2104 botUser repo
  end.

(** The body of the main loop of [bot2104.ts] for one repository. *)
Definition pipeline2104 (botUser : string) (repo : RepoRef) : M unit :=
  repo' <- correctRepoInfo repo ;;
  existing <- getExistingPR (repo_user repo') (repo_name repo') botUser ;;
  fetchRepo (repo_href repo') ;;;
  dispatch2104 botUser repo' existing.

End Bots.

(* ================================================================== *)
(** ** Sample instances of the platform

    Small executable stand-ins for the imported packages, enough to run
    the bots on the manifests of the examples below: JSON without
    escapes and with non-negative integers as its only numbers, TOML
    made of [key = value] lines, and the serialization of a flat table.
    They make the examples run; the theorems hold for every platform. *)

Module Sample.

Definition isJsonSpace (c : ascii) : bool :=
  let n := nat_of_ascii c in ((n =? 32) || (n =? 9) || (n =? 10) || (n =? 13))%nat.

Fixpoint skipWs (s : string) : string :=
  match s with
  | EmptyString => EmptyString
  | String c s' => if isJsonSpace c then skipWs s' else s
  end.

Definition noBackslash (s : string) : bool :=
  Str.forallb (fun c => negb (Ascii.eqb c "\"%char)) s.

(** A string literal without escapes, after its opening quote. *)
Definition stringBody (s : string) : option (string * string) :=
  match Str.spanUnquoted s with
  | (v, String _ rest) => if noBackslash v then Some (v, rest) else None
  | _ => None
  end.

Fixpoint spanDigits (s : string) : string * string :=
  match s with
  | EmptyString => (EmptyString, EmptyString)
  | String c s' =>
      if Str.isDigit c then let (d, r) := spanDigits s' in (String c d, r)
      else (EmptyString, s)
  end.

Fixpoint value (fuel : nat) (s : string) : option (JsValue * string) :=
  match fuel with
  | O => None
  | S f =>
      match skipWs s with
      | String "{"%char r =>
          match skipWs r with
          | String "}"%char r' => Some (JObj [], r')
          | r' => members f r' []
          end
      | String "["%char r =>
          match skipWs r with
          | String "]"%char r' => Some (JArr [], r')
          | r' => elements f r' []
          end
      | String "034"%char r =>
          match stringBody r with
          | Some (v, r') => Some (JStr v, r')
          | None => None
          end
      | String c r =>
          if Str.isDigit c then
            let (d, r') := spanDigits (String c r) in
            if SemVer.isNumericIdentifier d then Some (JNum (Str.digitsValue 0 d), r')
            else None
          else
            match Str.dropPrefix "true" (String c r),
                  Str.dropPrefix "false" (String c r),
                  Str.dropPrefix "null" (String c r) with
            | Some r', _, _ => Some (JBool true, r')
            | _, Some r', _ => Some (JBool false, r')
            | _, _, Some r' => Some (JNull, r')
            | _, _, _ => None
            end
      | EmptyString => None
      end
  end
with members (fuel : nat) (s : string) (acc : list (string * JsValue))
  : option (JsValue * string) :=
  match fuel with
  | O => None
  | S f =>
      match skipWs s with
      | String "034"%char r =>
          match stringBody r with
          | Some (k, r1) =>
              match skipWs r1 with
              | String ":"%char r2 =>
                  match value f r2 with
                  | Some (v, r3) =>
                      let acc' := Js.assocSet k v acc in
                      match skipWs r3 with
                      | String ","%char r4 => members f r4 acc'
                      | String "}"%char r4 => Some (JObj acc', r4)
                      | _ => None
                      end
                  | None => None
                  end
              | _ => None
              end
          | None => None
          end
      | _ => None
      end
  end
with elements (fuel : nat) (s : string) (acc : list JsValue)
  : option (JsValue * string) :=
  match fuel with
  | O => None
  | S f =>
      match value f s with
      | Some (v, r) =>
          match skipWs r with
          | String ","%char r' => elements f r' (acc ++ [v])%list
          | String "]"%char r' => Some (JArr (acc ++ [v])%list, r')
          | _ => None
          end
      | None => None
      end
  end.

Definition JSON_parse (s : string) : option JsValue :=
  match value (S (String.length s)) s with
  | Some (v, r) =>
      match skipWs r with
      | EmptyString => Some v
      | _ => None
      end
  | None => None
  end.

Definition isBareKeyChar (c : ascii) : bool :=
  SemVer.isIdentifierChar c || Ascii.eqb c "_"%char.

Definition isBareKey (k : string) : bool :=
  match k with
  | EmptyString => false
  | _ => Str.forallb isBareKeyChar k
  end.

(** The value of a [key = value] line. *)
Definition tomlValue (v : string) : option JsValue :=
  match v with
  | String "034"%char r =>
      match stringBody r with
      | Some (s, EmptyString) => Some (JStr s)
      | _ => None
      end
  | _ =>
      if SemVer.isNumericIdentifier v then Some (JNum (Str.digitsValue 0 v))
      else if String.eqb v "true" then Some (JBool true)
      else if String.eqb v "false" then Some (JBool false)
      else None
  end.

Fixpoint tomlLines (ls : list string) (acc : list (string * JsValue))
  : option JsValue :=
  match ls with
  | [] => Some (JObj acc)
  | l :: rest =>
      match Str.trim l with
      | EmptyString => tomlLines rest acc
      | String "#"%char _ => tomlLines rest acc
      | t =>
          match Str.cut "="%char t with
          | (k, Some v) =>
              let k' := Str.trim k in
              match tomlValue (Str.trim v), Js.assoc k' acc with
              | Some x, None =>
                  if isBareKey k' then tomlLines rest (acc ++ [(k', x)])%list
                  else None
              | _, _ => None
              end
          | (_, None) => None
          end
      end
  end.

Definition parseToml (s : string) : option JsValue :=
  tomlLines (Str.split "010"%char s) [].

Definition isPlainChar (c : ascii) : bool :=
  let n := nat_of_ascii c in
  ((32 <=? n) && negb (n =? 34) && negb (n =? 92) && negb (n =? 127))%nat.

(** One declaration line of the serializer. *)
Definition tomlLine (kv : string * JsValue) : option string :=
  let (k, v) := kv in
  if isBareKey k then
    match v with
    | JStr s =>
        if Str.forallb isPlainChar s
        then Some (k ++ " = " ++ Str.dq ++ s ++ Str.dq) else None
    | JNum n => Some (k ++ " = " ++ Str.ofN n)
    | JBool b => Some (k ++ " = " ++ (if b then "true" else "false"))
    | _ => None
    end
  else None.

Fixpoint tomlDeclarations (props : list (string * JsValue)) : option (list string) :=
  match props with
  | [] => Some []
  | kv :: rest =>
      match tomlLine kv, tomlDeclarations rest with
      | Some l, Some ls => Some (l :: ls)
      | _, _ => None
      end
  end.

(** The declarations of a flat table, one per line, each followed by
    a line feed. *)
Definition stringifyToml (v : JsValue) : option string :=
  match v with
  | JObj props =>
      match tomlDeclarations props with
      | Some ls => Some (Str.join Str.nl (ls ++ [EmptyString])%list)
      | None => None
      end
  | _ => None
  end.

Definition lower (c : ascii) : ascii :=
  let n := nat_of_ascii c in
  if ((65 <=? n) && (n <=? 90))%nat then ascii_of_nat (n + 32) else c.

(** Words separated by single spaces, in lower case, joined by [-]. *)
Fixpoint kebabCase (s : string) : string :=
  match s with
  | EmptyString => EmptyString
  | String c s' =>
      String (if Ascii.eqb c " "%char then "-"%char else lower c) (kebabCase s')
  end.

(** Child processes that leave the file system as it is, print
    [out], and fail exactly on the commands [failing] selects. *)
Definition execWith (failing : list string -> bool) (out : string)
  (st : State) (cmd : list string) : option (RunResult * node) :=
  Some (mkRun (negb (failing cmd)) out EmptyString, root st).

Definition platform (failing : list string -> bool) (out : string) : Platform :=
  mkPlatform (execWith failing out) (fun _ => 1741000000000%N)
    JSON_parse parseToml stringifyToml kebabCase.

(** No command fails. *)
Definition noFailure (cmd : list string) : bool := false.

(** The commands that start with the two given words fail. *)
Definition failingOn (w1 w2 : string) (cmd : list string) : bool :=
  match cmd with
  | a :: b :: _ => String.eqb a w1 && String.eqb b w2
  | _ => false
  end.

End Sample.

(* ================================================================== *)
(** ** Vocabulary of the statements *)

(** The theme file at [p] can be read and its text has no occurrence
    of the old key. *)
Definition themeClean (st : State) (p : fpath) : Prop :=
  exists c, Fs.readFile (Deno.resolve st p) (root st) = Some c /\
            Str.includes OLD_KEY c = false.

(** The paths [findThemes] yields for a listing of [themes]. *)
Definition themePaths (names : list string) : list fpath :=
  map (fun n => Rel ["themes"; n]) (filter (Str.endsWith ".json") names).

(** The state in which the body of a directory scope starts. *)
Definition entered (dir : fpath) (st : State) : State :=
  mkState (root st) (Deno.resolve st dir) (transcript st).

(** The state a directory scope leaves when the previous working
    directory [back] is restored after the body ended in [st2]. *)
Definition left (back : list string) (st2 : State) : State :=
  mkState (root st2) back (transcript st2).

(** The external commands that push a branch and that create a pull
    request, by their first words. *)
Definition isPush (cmd : list string) : bool :=
  match cmd with
  | a :: b :: _ => String.eqb a "git" && String.eqb b "push"
  | _ => false
  end.

Definition isPrCreate (cmd : list string) : bool :=
  match cmd with
  | a :: b :: c :: _ =>
      String.eqb a "gh" && String.eqb b "pr" && String.eqb c "create"
  | _ => false
  end.

(** The pipeline function [fn] throws whatever the state. *)
Definition alwaysThrows (fn : M unit) : Prop :=
  forall st, exists e st', fn st = (Throw e, st').

(** The state after [n] invocations of [fn] in a row. *)
Fixpoint invoked (fn : M unit) (n : nat) (st : State) : State :=
  match n with
  | O => st
  | S k => invoked fn k (snd (fn st))
  end.

(** The state [run] leaves when the process of [cmd] finished with the
    result [r] and the file system [fs]. *)
Definition ran (cmd : list string) (r : RunResult) (fs : node) (st : State) : State :=
  mkState fs (cwd st) (transcript st ++ [(cmd, Exited (success r))])%list.

(** The two manifest formats [bumpVersion] knows. *)
Inductive manifestKind : Set :=
| TomlManifest
| JsonManifest.

Definition manifestFile (k : manifestKind) : string :=
  match k with
  | TomlManifest => "extension.toml"
  | JsonManifest => "extension.json"
  end.

Definition versionKey (k : manifestKind) : string :=
  match k with
  | TomlManifest => TOML_VERSION
  | JsonManifest => JSON_VERSION
  end.

Definition parseManifest (P : Platform) (k : manifestKind) : string -> option JsValue :=
  match k with
  | TomlManifest => parseToml P
  | JsonManifest => JSON_parse P
  end.

(** The manifest of the repository [name] that [bumpVersion] rewrites:
    the new format when it is there, the legacy format otherwise. *)
Definition selectedManifest (name : string) (st : State) : option manifestKind :=
  if Deno.existsSync (Rel [name; "extension.toml"]) st then Some TomlManifest
  else if Deno.existsSync (Rel [name; "extension.json"]) st then Some JsonManifest
  else None.

(** The text of the manifest of format [k] of the repository [name]. *)
Definition manifestText (k : manifestKind) (name : string) (st : State) : option string :=
  Fs.readFile (cwd st ++ [name; manifestFile k])%list (root st).

(* ================================================================== *)
(** ** States and texts of the examples *)

Module Ex.

Definition quoted (s : string) : string := Str.dq ++ s ++ Str.dq.

(** A work directory with one cloned repository, [gruvbox], holding
    the given entries; the process is in the work directory. *)
Definition cloned (entries : list (string * node)) : State :=
  mkState (Dir [("work", Dir [("gruvbox", Dir entries)])]) ["work"] [].

(** The same repository with the process inside it. *)
Definition inside (entries : list (string * node)) : State :=
  mkState (Dir [("work", Dir [("gruvbox", Dir entries)])]) ["work"; "gruvbox"] [].

Definition tomlManifest (version : string) : string :=
  "id = " ++ quoted "gruvbox" ++ Str.nl ++
  "name = " ++ quoted "Gruvbox" ++ Str.nl ++
  "version = " ++ quoted version ++ Str.nl ++
  "schema_version = 1" ++ Str.nl.

(** A manifest as [JSON.stringify(o, null, 2)] lays it out. *)
Definition jsonManifest (version : string) : string :=
  "{" ++ Str.nl ++
  "  " ++ quoted "name" ++ ": " ++ quoted "My Cool Ext" ++ "," ++ Str.nl ++
  "  " ++ quoted "version" ++ ": " ++ quoted version ++ Str.nl ++
  "}".

(** The same manifest as [JSON.stringify(o)] lays it out. *)
Definition jsonCompact (version : string) : string :=
  "{" ++ quoted "name" ++ ":" ++ quoted "My Cool Ext" ++ "," ++
  quoted "version" ++ ":" ++ quoted version ++ "}".

(** The legacy manifest of the port examples. *)
Definition legacyManifest : string :=
  "{" ++ quoted "name" ++ ": " ++ quoted "My Cool Ext" ++ ", " ++
  quoted "version" ++ ": " ++ quoted "1.0.0" ++ "}".

Definition rustGrammar : string := "path = " ++ quoted "grammars/rust".

Definition theme (key : string) : string :=
  "{" ++ quoted key ++ ": " ++ quoted "#928374" ++ "}".

Definition themes : list (string * node) :=
  [("themes", Dir [("dark.json", File (theme OLD_KEY));
                   ("notes.md", File OLD_KEY);
                   ("light.json", File (theme "border"))])].

Definition themesRenamed : list (string * node) :=
  [("themes", Dir [("dark.json", File (theme NEW_KEY));
                   ("notes.md", File OLD_KEY);
                   ("light.json", File (theme "border"))])].

Definition quiet : Platform := Sample.platform Sample.noFailure EmptyString.

(** A platform on which no tool is installed and [JSON.parse] rejects
    every text. *)
Definition bare : Platform :=
  mkPlatform (fun _ _ => None) (fun _ => 0%N) (fun _ => None)
    Sample.parseToml Sample.stringifyToml Sample.kebabCase.

(** The document the port writes for the legacy manifest. *)
Definition portedDocument : string :=
  "name = " ++ quoted "My Cool Ext" ++ Str.nl ++
  "version = " ++ quoted "1.0.1" ++ Str.nl ++
  "id = " ++ quoted "my-cool-ext" ++ Str.nl ++
  "schema_version = 1" ++ Str.nl.

Definition grammars : list (string * node) :=
  [("grammars", Dir [("rust", Dir []);
                     ("rust.toml", File rustGrammar);
                     ("toml.toml", File ("path = " ++ quoted "grammars/toml"))])].

Definition openArgs : OpenPrArgs :=
  mkOpenPr "morhetz" "gruvbox" "bot" "rename" "Rename" "See issue".

(** A platform on which [git commit] finds nothing to commit. *)
Definition nothingToCommit : Platform :=
  Sample.platform (Sample.failingOn "git" "commit") EmptyString.

(** What [openPR] invokes on that platform. *)
Definition skippedTranscript : list (list string * ending) :=
  [(["git"; "diff"], Exited true);
   (["gh"; "repo"; "fork"; "morhetz/gruvbox"; "--remote=false"], Exited true);
   (["git"; "remote"; "add"; "fork"; "https://github.com/bot/gruvbox.git"],
    Exited true);
   (["git"; "checkout"; "-b"; "update-attr-1741000000000"], Exited true);
   (["git"; "add"; "."], Exited true);
   (["git"; "commit"; "-m"; "rename"], Exited false)].

(** The answer of [gh repo view] for the repository of the examples. *)
Definition repoView : string :=
  "{" ++ quoted "name" ++ ":" ++ quoted "gruvbox" ++ "," ++
  quoted "owner" ++ ":{" ++ quoted "login" ++ ":" ++ quoted "morhetz" ++ "}}".

Definition gruvbox : RepoRef :=
  mkRepo "https://github.com/morhetz/gruvbox" "morhetz" "gruvbox".

(** A platform on which [gh pr list] fails. *)
Definition listFails : Platform :=
  Sample.platform (Sample.failingOn "gh" "pr") repoView.

(** The state in which the pipeline asks for the open pull requests. *)
Definition beforeList : State :=
  mkState (root (cloned themes)) ["work"]
    [(["gh"; "repo"; "view"; "morhetz/gruvbox"; "--json"; "name,owner"],
      Exited true);
     (["gh"; "repo"; "clone"; "https://github.com/morhetz/gruvbox"],
      Exited true)].

End Ex.

(* ================================================================== *)
(** ** Vocabulary of the further statements *)

(** The rename of one theme text. *)
Definition renamed (s : string) : string :=
  Str.replaceAll OLD_KEY NEW_KEY s.

(** The regular file at [p] has an occurrence of the old key. *)
Definition holdsOldKey (p : list string) (n : node) : bool :=
  match Fs.readFile p n with
  | Some c => Str.includes OLD_KEY c
  | None => false
  end.

(** The path of the theme file [name] of the repository [repo] that
    was cloned into the working directory of [st]. *)
Definition themeFile (st : State) (repo name : string) : list string :=
  (cwd st ++ [repo; "themes"; name])%list.

(** [p] is [q] or lies below it. *)
Definition below (q p : list string) : Prop :=
  exists t, p = (q ++ t)%list.

(** The branch name [openPR] makes up at the time it is called. *)
Definition freshBranch (P : Platform) (st : State) : string :=
  "update-attr-" ++ Str.ofN (Date_now P st).

(** The external commands of [openPR], in order; the last two only
    when the commit succeeded. *)
Definition openPrCommands (a : OpenPrArgs) (branchName : string) (committed : bool)
  : list (list string) :=
  [["git"; "diff"];
   ["gh"; "repo"; "fork"; repoUser a ++ "/" ++ repoName a; "--remote=false"];
   remoteAddCmd (botUsername a) (repoName a);
   ["git"; "checkout"; "-b"; branchName];
   ["git"; "add"; "."];
   commitCmd (commitMsg a)]
  ++ (if committed
      then [pushCmd branchName;
            prCreateCmd (prTitle a) (prBody a) (repoUser a) (repoName a)]
      else []).

(** The external commands of [updatePr]. *)
Definition updatePrCommands (branchName : string) (committed : bool)
  : list (list string) :=
  [["git"; "diff"]; ["git"; "add"; "."]; commitCmd UPDATE_COMMIT_MSG]
  ++ (if committed then [pushCmd branchName] else []).

(** The external commands of [fetchPrAndSetupBranch]. *)
Definition setupCommands (name branchName botUser : string) : list (list string) :=
  [remoteAddCmd botUser name;
   ["git"; "fetch"; "fork"];
   ["git"; "checkout"; "fork/" ++ branchName]].

(** The query [correctRepoInfo] sends for a repository of the issue. *)
Definition viewCmd (repo : RepoRef) : list string :=
  ["gh"; "repo"; "view";
   repo_user repo ++ "/" ++ Str.stripSuffix ".git" (repo_name repo);
   "--json"; "name,owner"].

(** Every process of the list was spawned and finished. *)
Definition allFinished (new : list (list string * ending)) : Prop :=
  forall cmd, ~ In (cmd, NotSpawned) new.

(** A ported manifest as the first version of the bot left it, with a
    [grammar] key. *)
Definition manifestWithGrammar : string :=
  Ex.portedDocument ++ "grammar = " ++ Ex.quoted "rust" ++ Str.nl.

(** The port returns [true] from [st] and leaves [document] in
    [extension.toml]. *)
Definition portsTo (P : Platform) (st : State) (document : string) : Prop :=
  exists st',
    portExtToToml P st = (Ok true, st') /\
    Fs.readFile (cwd st ++ ["extension.toml"])%list (root st') = Some document.

(** A no-break space and a byte-order mark, as they are encoded. *)
Definition nbsp : string := String "194"%char (String "160"%char EmptyString).
Definition bom : string :=
  String "239"%char (String "187"%char (String "191"%char EmptyString)).

(* ================================================================== *)
(** * Properties *)

(** ** Strings *)

(** The search functions against their meaning on texts. *)
Lemma startsWith_iff p s :
  Str.startsWith p s = true <-> exists t, s = p ++ t.
Proof.
  revert s. induction p as [|a p IH]; intros s; simpl.
  - split; [intros _; now exists s|reflexivity].
  - destruct s as [|b s].
    + split; [discriminate|intros [t H]; discriminate H].
    + rewrite andb_true_iff, Ascii.eqb_eq, IH. split.
      * intros [-> [t ->]]. now exists t.
      * intros [t H]. injection H as -> ->. split; [reflexivity|now exists t].
Qed.

Lemma includes_iff pat s :
  Str.includes pat s = true <-> exists pre post, s = pre ++ pat ++ post.
Proof.
  induction s as [|c s IH]; simpl; rewrite orb_true_iff, startsWith_iff.
  - split.
    + intros [[t H]|H]; [|discriminate H]. now exists EmptyString, t.
    + intros ([|x pre] & post & H); [left; now exists post|discriminate H].
  - rewrite IH. split.
    + intros [[t H]|(pre & post & ->)].
      * now exists EmptyString, t.
      * now exists (String c pre), post.
    + intros ([|x pre] & post & H).
      * left. now exists post.
      * injection H as -> ->. right. now exists pre, post.
Qed.

Lemma endsWith_iff suf s :
  Str.endsWith suf s = true <-> exists pre, s = pre ++ suf.
Proof.
  induction s as [|c s IH]; simpl; rewrite orb_true_iff, String.eqb_eq.
  - split.
    + intros [->|H]; [now exists EmptyString|discriminate H].
    + intros ([|x pre] & H); [now left|discriminate H].
  - rewrite IH. split.
    + intros [->|[pre ->]]; [now exists EmptyString|now exists (String c pre)].
    + intros ([|x pre] & H); [now left|].
      injection H as -> ->. right. now exists pre.
Qed.

Section ReplaceAll.

(** The old and the new text start with the same character [a],
    which occurs nowhere else in either; the new text is not matched
    by the old one.  Both keys of the theme patch are of this kind. *)
Variables (a : ascii) (oldt newt : string).
Let old := String a oldt.
Let new := String a newt.
Hypothesis old_lacks : Str.lacks a oldt = true.
Hypothesis new_lacks : Str.lacks a newt = true.
Hypothesis new_differs : forall x, Str.startsWith old (new ++ x) = false.

Lemma replaceAllFrom_skip k s :
  Str.replaceAllFrom old new k s = Str.replaceAll old new (Str.skip k s).
Proof.
  revert k. induction s as [|c s IH]; intros [|k]; try reflexivity.
  simpl Str.skip. rewrite <- IH. reflexivity.
Qed.

Lemma replaceAll_match c s :
  Str.startsWith old (String c s) = true ->
  Str.replaceAll old new (String c s)
  = new ++ Str.replaceAll old new (Str.skip (String.length oldt) s).
Proof.
  intros H. unfold Str.replaceAll at 1.
  cbn [Str.replaceAllFrom]. rewrite H.
  rewrite replaceAllFrom_skip.
  replace (String.length old - 1) with (String.length oldt)
    by (unfold old; simpl; lia).
  reflexivity.
Qed.

Lemma replaceAll_copy c s :
  Str.startsWith old (String c s) = false ->
  Str.replaceAll old new (String c s) = String c (Str.replaceAll old new s).
Proof.
  intros H. unfold Str.replaceAll.
  cbn [Str.replaceAllFrom]. now rewrite H.
Qed.

Lemma skip_length k s : String.length (Str.skip k s) <= String.length s.
Proof.
  revert k. induction s as [|c s IH]; intros [|k]; simpl; try lia.
  specialize (IH k). lia.
Qed.

(** A text without [a] that starts the output starts the input. *)
Lemma startsWith_replaceAll t :
  Str.lacks a t = true ->
  forall s, Str.startsWith t (Str.replaceAll old new s) = true ->
            Str.startsWith t s = true.
Proof.
  induction t as [|b t IH]; intros Ht s H; [reflexivity|].
  cbn in Ht. apply andb_prop in Ht as [Hb Ht].
  destruct s as [|c s]; [discriminate H|].
  destruct (Str.startsWith old (String c s)) eqn:E.
  - rewrite (replaceAll_match _ _ E) in H. cbn in H.
    apply andb_prop in H as [H _].
    apply Ascii.eqb_eq in H. subst b.
    rewrite Ascii.eqb_refl in Hb. discriminate Hb.
  - rewrite (replaceAll_copy _ _ E) in H. cbn in H |- *.
    apply andb_prop in H as [H1 H2].
    rewrite H1. cbn. now apply IH.
Qed.

Lemma includes_lacking_prefix t x :
  Str.lacks a t = true -> Str.includes old (t ++ x) = Str.includes old x.
Proof.
  induction t as [|b t IH]; intros Ht; [reflexivity|].
  cbn in Ht. apply andb_prop in Ht as [Hb Ht].
  cbn [String.append Str.includes]. rewrite (IH Ht).
  cbn. apply negb_true_iff in Hb. now rewrite Hb.
Qed.

Lemma includes_new x :
  Str.includes old (new ++ x) = Str.includes old x.
Proof.
  change (new ++ x) with (String a (newt ++ x)).
  cbn [Str.includes].
  change (String a (newt ++ x)) with (new ++ x).
  rewrite new_differs. cbn [orb]. now apply includes_lacking_prefix.
Qed.

Lemma includes_replaceAll_bounded n :
  forall s, String.length s <= n ->
            Str.includes old (Str.replaceAll old new s) = false.
Proof.
  induction n as [|n IH]; intros [|c s] Hn; try reflexivity.
  - simpl in Hn. lia.
  - simpl in Hn.
    destruct (Str.startsWith old (String c s)) eqn:E.
    + rewrite (replaceAll_match _ _ E), includes_new.
      apply IH. pose proof (skip_length (String.length oldt) s). lia.
    + rewrite (replaceAll_copy _ _ E).
      cbn [Str.includes]. rewrite (IH s) by lia. rewrite orb_false_r.
      destruct (Str.startsWith old (String c (Str.replaceAll old new s))) eqn:F;
        [|reflexivity].
      cbn in F, E. apply andb_prop in F as [F1 F2].
      rewrite F1 in E. cbn in E.
      apply (startsWith_replaceAll _ old_lacks) in F2. congruence.
Qed.

(** The output of the replacement has no occurrence of the old text. *)
Lemma includes_replaceAll s :
  Str.includes old (Str.replaceAll old new s) = false.
Proof. now apply (includes_replaceAll_bounded (String.length s)). Qed.

End ReplaceAll.

(** After the rename no theme text contains the old key. *)
Lemma renamed_lacks_old_key s :
  Str.includes OLD_KEY (Str.replaceAll OLD_KEY NEW_KEY s) = false.
Proof.
  apply (includes_replaceAll "s"%char
           "crollbar_thumb.background" "crollbar.thumb.background");
    reflexivity.
Qed.

(** ** The file system *)

Lemma assoc_assocSet_same {A : Type} x (v : A) es :
  Js.assoc x (Js.assocSet x v es) = Some v.
Proof.
  induction es as [|[y w] es IH]; simpl.
  - now rewrite String.eqb_refl.
  - destruct (String.eqb_spec x y) as [->|N]; simpl.
    + now rewrite String.eqb_refl.
    + destruct (String.eqb_spec x y); [contradiction|exact IH].
Qed.

Lemma assoc_assocSet_other {A : Type} x y (v : A) es :
  y <> x -> Js.assoc y (Js.assocSet x v es) = Js.assoc y es.
Proof.
  intros N. induction es as [|[z w] es IH]; simpl.
  - destruct (String.eqb_spec y x); [contradiction|reflexivity].
  - destruct (String.eqb_spec x z) as [->|Nz]; simpl.
    + destruct (String.eqb_spec y z); [contradiction|reflexivity].
    + now rewrite IH.
Qed.

Lemma assoc_app_absent {A : Type} y x (v : A) es :
  Js.assoc y es = None ->
  Js.assoc y (es ++ [(x, v)])%list = if String.eqb y x then Some v else None.
Proof.
  induction es as [|[z w] es IH]; simpl; [reflexivity|].
  destruct (String.eqb y z); [discriminate|exact IH].
Qed.

Lemma assoc_app_present {A : Type} y (m : A) es tl :
  Js.assoc y es = Some m -> Js.assoc y (es ++ tl)%list = Some m.
Proof.
  induction es as [|[z w] es IH]; simpl; [discriminate|].
  destruct (String.eqb y z); [trivial|exact IH].
Qed.

Lemma names_assocSet {A : Type} x (v m : A) es :
  Js.assoc x es = Some m -> map fst (Js.assocSet x v es) = map fst es.
Proof.
  induction es as [|[z w] es IH]; simpl; [discriminate|].
  destruct (String.eqb_spec x z) as [->|N]; simpl; [reflexivity|].
  intros H. now rewrite IH.
Qed.

(** The two ways a write below a directory succeeds: through an entry
    [m] that is there, or by a new entry for a file of the directory. *)
Tactic Notation "write_cons" hyp(H) "as" ident(es) ident(m) ident(m') ident(Ex) ident(Ew) :=
  simpl in H;
  match type of H with
  | context [match ?n with File _ => _ | Dir _ => _ end] =>
      destruct n as [?|es]; [discriminate H|]
  end;
  match type of H with
  | context [Js.assoc ?x es] => destruct (Js.assoc x es) as [m|] eqn:Ex
  end;
  [ match type of H with
    | context [Fs.write ?p ?c m] =>
        destruct (Fs.write p c m) as [m'|] eqn:Ew;
        [injection H as <- | discriminate H]
    end
  | match type of H with
    | context [match ?p with [] => _ | _ :: _ => _ end] =>
        destruct p; [injection H as <- | discriminate H]
    end ].

Tactic Notation "write_nil" hyp(H) :=
  simpl in H;
  match type of H with
  | context [match ?n with File _ => _ | Dir _ => _ end] =>
      destruct n; [injection H as <- | discriminate H]
  end.

(** A written file reads back as written. *)
Lemma readFile_write_same p c :
  forall n n', Fs.write p c n = Some n' -> Fs.readFile p n' = Some c.
Proof.
  unfold Fs.readFile.
  induction p as [|x p IH]; intros n n' H.
  - write_nil H. reflexivity.
  - write_cons H as es m m' Ex Ew; simpl.
    + rewrite assoc_assocSet_same. eauto.
    + now rewrite (assoc_app_absent _ _ _ _ Ex), String.eqb_refl.
Qed.

(** Writing one file leaves the text of every other path as it was. *)
Lemma readFile_write_other p c :
  forall n n' q, Fs.write p c n = Some n' -> q <> p ->
                 Fs.readFile q n' = Fs.readFile q n.
Proof.
  unfold Fs.readFile.
  induction p as [|x p IH]; intros n n' q H N.
  - write_nil H. destruct q; [contradiction|reflexivity].
  - write_cons H as es m m' Ex Ew;
      (destruct q as [|y q]; [reflexivity|]); simpl.
    + destruct (String.eqb_spec y x) as [->|Nx].
      * rewrite assoc_assocSet_same, Ex.
        apply IH; [assumption|congruence].
      * now rewrite assoc_assocSet_other.
    + destruct (Js.assoc y es) eqn:E.
      * now rewrite (assoc_app_present _ _ _ _ E).
      * rewrite (assoc_app_absent _ _ _ _ E).
        destruct (String.eqb_spec y x) as [->|Nx]; [|reflexivity].
        destruct q; [congruence|reflexivity].
Qed.

(** Writing a file neither makes nor removes a directory. *)
Lemma isDir_write p c :
  forall n n' q, Fs.write p c n = Some n' ->
                 Fs.isDir (Fs.lookup q n') = Fs.isDir (Fs.lookup q n).
Proof.
  induction p as [|x p IH]; intros n n' q H.
  - write_nil H. destruct q; reflexivity.
  - write_cons H as es m m' Ex Ew;
      (destruct q as [|y q]; [reflexivity|]); simpl.
    + destruct (String.eqb_spec y x) as [->|Nx].
      * rewrite assoc_assocSet_same, Ex. now apply IH.
      * now rewrite assoc_assocSet_other.
    + destruct (Js.assoc y es) eqn:E.
      * now rewrite (assoc_app_present _ _ _ _ E).
      * rewrite (assoc_app_absent _ _ _ _ E).
        destruct (String.eqb y x); [|reflexivity].
        destruct q; reflexivity.
Qed.

(** Rewriting a file that exists leaves every directory listing as it
    was. *)
Lemma listing_write p c :
  forall n n' q c0, Fs.readFile p n = Some c0 -> Fs.write p c n = Some n' ->
                    Fs.listing q n' = Fs.listing q n.
Proof.
  unfold Fs.listing, Fs.readFile.
  induction p as [|x p IH]; intros n n' q c0 R H.
  - write_nil H. destruct q; reflexivity.
  - write_cons H as es m m' Ex Ew; simpl in R; rewrite Ex in R;
      [|discriminate R].
    destruct q as [|y q]; simpl.
    + now rewrite (names_assocSet _ _ _ _ Ex).
    + destruct (String.eqb_spec y x) as [->|Nx].
      * rewrite assoc_assocSet_same, Ex. eapply IH; eassumption.
      * now rewrite assoc_assocSet_other.
Qed.

(** ** The scoped directory switch *)

(** A directory scope, step by step: the working directory must exist,
    the target must be a directory, the body runs inside it, and the
    previous directory must still be there to be restored. *)
Lemma withDir_unfold {A : Type} (dir : fpath) (body : M A) (st : State) :
  withDir dir body st =
  if Fs.isDir (Fs.lookup (cwd st) (root st)) then
    if Fs.isDir (Deno.stat dir st) then
      let (res, st2) := body (entered dir st) in
      if Fs.isDir (Fs.lookup (cwd st) (root st2))
      then (res, left (cwd st) st2)
      else (Throw "NotFound: chdir", st2)
    else (Throw "NotFound: chdir", st)
  else (Throw "NotFound: cwd", st).
Proof.
  unfold withDir, usingScope, switchDirTemp, disposeDir, bind, ret,
    Deno.getCwd, Deno.chdir, entered, left.
  destruct (Fs.isDir (Fs.lookup (cwd st) (root st))); [|reflexivity].
  destruct (Fs.isDir (Deno.stat dir st)); [|reflexivity].
  simpl. destruct (body _) as [res st2]. unfold Deno.stat. simpl.
  destruct (Fs.isDir (Fs.lookup (cwd st) (root st2))); reflexivity.
Qed.

(** ** The attribute rename *)

Lemma readTextFileSync_readFile p st :
  Deno.readTextFileSync p st =
  match Fs.readFile (Deno.resolve st p) (root st) with
  | Some c => (Ok c, st)
  | None => (Throw "NotFound: readTextFile", st)
  end.
Proof.
  unfold Deno.readTextFileSync, Deno.stat, Fs.readFile.
  destruct (Fs.lookup _ _) as [[c|es]|]; reflexivity.
Qed.

Lemma findThemes_listing st :
  findThemes st =
  match Fs.listing (Deno.resolve st (Rel ["themes"])) (root st) with
  | Some names => (Ok (themePaths names), st)
  | None => (Throw "NotFound: readDir", st)
  end.
Proof.
  unfold findThemes, bind, ret, Deno.readDirSync, Deno.stat, Fs.listing.
  destruct (Fs.lookup _ _) as [[c|es]|]; try reflexivity.
  unfold themePaths. do 2 f_equal.
  induction es as [|[n m] es IH]; simpl; [reflexivity|].
  destruct (Str.endsWith ".json" n); simpl; now rewrite IH.
Qed.

(** One turn of the loop over the theme files. *)
Lemma patchThemes_step p rest b st :
  patchThemes (p :: rest) b st =
  match Fs.readFile (Deno.resolve st p) (root st) with
  | None => (Throw "NotFound: readTextFile", st)
  | Some c =>
      if Str.includes OLD_KEY c then
        match Fs.write (Deno.resolve st p)
                (Str.replaceAll OLD_KEY NEW_KEY c) (root st) with
        | Some r => patchThemes rest true (mkState r (cwd st) (transcript st))
        | None => (Throw "NotFound: writeTextFile", st)
        end
      else patchThemes rest b st
  end.
Proof.
  cbn [patchThemes]. unfold bind at 1. rewrite readTextFileSync_readFile.
  destruct (Fs.readFile _ _) as [c|]; [|reflexivity].
  destruct (Str.includes OLD_KEY c); [|reflexivity].
  cbn [negb]. unfold bind, Deno.writeTextFileSync.
  destruct (Fs.write _ _ _); reflexivity.
Qed.

(** The loop changes nothing but the text of files that exist. *)
Lemma patchThemes_frame themes :
  forall b st r st', patchThemes themes b st = (r, st') ->
    cwd st' = cwd st /\ transcript st' = transcript st /\
    (forall q, Fs.isDir (Fs.lookup q (root st')) = Fs.isDir (Fs.lookup q (root st))) /\
    (forall q, Fs.listing q (root st') = Fs.listing q (root st)).
Proof.
  induction themes as [|p rest IH]; intros b st r st' H.
  - injection H as _ <-. auto.
  - rewrite patchThemes_step in H.
    destruct (Fs.readFile _ _) as [c|] eqn:R; [|injection H as _ <-; auto].
    destruct (Str.includes OLD_KEY c); [|now apply IH in H].
    destruct (Fs.write _ _ _) as [n'|] eqn:W; [|injection H as _ <-; auto].
    apply IH in H. cbn [root cwd transcript] in H.
    destruct H as (Hc & Ht & Hd & Hl). repeat split; trivial; intros q.
    + rewrite Hd. eapply isDir_write; eassumption.
    + rewrite Hl. eapply listing_write; eassumption.
Qed.

(** A clean theme file stays clean through the rest of the loop. *)
Lemma patchThemes_keeps_clean themes :
  forall b st r st' p, patchThemes themes b st = (r, st') ->
                       themeClean st p -> themeClean st' p.
Proof.
  induction themes as [|p0 rest IH]; intros b st r st' p H C.
  - now injection H as _ <-.
  - rewrite patchThemes_step in H.
    destruct (Fs.readFile _ _) as [c|] eqn:R; [|now injection H as _ <-].
    destruct (Str.includes OLD_KEY c); [|eapply IH; eassumption].
    destruct (Fs.write _ _ _) as [n'|] eqn:W; [|now injection H as _ <-].
    eapply IH; [eassumption|].
    unfold themeClean. cbn [root].
    change (Deno.resolve (mkState n' (cwd st) (transcript st)) p)
      with (Deno.resolve st p).
    destruct (list_eq_dec string_dec (Deno.resolve st p) (Deno.resolve st p0))
      as [E|N].
    + rewrite E, (readFile_write_same _ _ _ _ W).
      eexists; split; [reflexivity|apply renamed_lacks_old_key].
    + rewrite (readFile_write_other _ _ _ _ _ W N). exact C.
Qed.

(** When the loop ends normally every theme file it went over is clean. *)
Lemma patchThemes_all_clean themes :
  forall b st b' st', patchThemes themes b st = (Ok b', st') ->
                      forall p, In p themes -> themeClean st' p.
Proof.
  induction themes as [|p0 rest IH]; intros b st b' st' H p I;
    [destruct I | destruct I as [<-|I]].
  - rewrite patchThemes_step in H.
    destruct (Fs.readFile _ _) as [c|] eqn:R; [|discriminate H].
    destruct (Str.includes OLD_KEY c) eqn:E.
    + destruct (Fs.write _ _ _) as [n'|] eqn:W; [|discriminate H].
      eapply patchThemes_keeps_clean; [eassumption|].
      exists (Str.replaceAll OLD_KEY NEW_KEY c). split.
      * exact (readFile_write_same _ _ _ _ W).
      * apply renamed_lacks_old_key.
    + eapply patchThemes_keeps_clean; [eassumption|].
      exists c. now split.
  - rewrite patchThemes_step in H.
    destruct (Fs.readFile _ _) as [c|] eqn:R; [|discriminate H].
    destruct (Str.includes OLD_KEY c); [|eapply IH; eassumption].
    destruct (Fs.write _ _ _) as [n'|] eqn:W; [|discriminate H].
    eapply IH; eassumption.
Qed.

(** Over clean theme files the loop writes nothing and reports no
    change. *)
Lemma patchThemes_clean_noop themes b st :
  (forall p, In p themes -> themeClean st p) ->
  patchThemes themes b st = (Ok b, st).
Proof.
  induction themes as [|p0 rest IH]; intros C; [reflexivity|].
  rewrite patchThemes_step.
  destruct (C p0 (or_introl eq_refl)) as (c & -> & ->).
  apply IH. intros p I. apply C. now right.
Qed.

Lemma state_eta st : mkState (root st) (cwd st) (transcript st) = st.
Proof. now destruct st. Qed.

(** C7.  The attribute rename is idempotent: after an application of
    [patchScrollbarThumbBg] that returned [true], a second application
    returns [false] and leaves the whole state, and so the content of
    every file, as the first one left it. *)
Theorem patchScrollbarThumbBg_idempotent (repo : string) (st st1 : State) :
  patchScrollbarThumbBg repo st = (Ok true, st1) ->
  patchScrollbarThumbBg repo st1 = (Ok false, st1).
Proof.
  unfold patchScrollbarThumbBg. rewrite !withDir_unfold. intros H.
  destruct (Fs.isDir (Fs.lookup (cwd st) (root st))) eqn:D0; [|discriminate H].
  destruct (Fs.isDir (Deno.stat (Rel [repo]) st)) eqn:D1; [|discriminate H].
  unfold bind at 1 in H. rewrite findThemes_listing in H.
  destruct (Fs.listing _ _) as [names|] eqn:L in H.
  2:{ destruct (Fs.isDir _) in H; discriminate H. }
  unfold bind at 1 in H.
  destruct (patchThemes (themePaths names) false (entered (Rel [repo]) st))
    as [[b|e] st2] eqn:Loop.
  2:{ destruct (Fs.isDir _) in H; discriminate H. }
  destruct (patchThemes_frame _ _ _ _ _ Loop) as (Hc & Ht & Hd & Hl).
  cbn [entered cwd transcript root Deno.resolve] in Hc, Ht, Hd, Hl, L.
  assert (Fs.isDir (Fs.lookup (cwd st) (root st2)) = true
          /\ st1 = left (cwd st) st2) as [D2 ->].
  { destruct b; unfold ret in H;
      destruct (Fs.isDir (Fs.lookup (cwd st) (root st2)));
      split; congruence. }
  clear H.
  assert (entered (Rel [repo]) (left (cwd st) st2) = st2) as Enter.
  { unfold entered, left. cbn [Deno.resolve cwd root transcript].
    rewrite <- Hc. apply state_eta. }
  rewrite Enter. cbn [left cwd root].
  rewrite D2. unfold Deno.stat in D1 |- *.
  cbn [Deno.resolve left cwd root] in D1 |- *.
  rewrite Hd, D1.
  unfold bind at 1. rewrite findThemes_listing.
  cbn [Deno.resolve]. rewrite Hc, Hl, L.
  unfold bind at 1.
  rewrite patchThemes_clean_noop
    by (eapply patchThemes_all_clean; eassumption).
  unfold ret. now rewrite D2.
Qed.

Lemma patchScrollbarThumbBg_idempotent_witness :
  patchScrollbarThumbBg "gruvbox" (Ex.cloned Ex.themes)
  = (Ok true, Ex.cloned Ex.themesRenamed) /\
  patchScrollbarThumbBg "gruvbox" (Ex.cloned Ex.themesRenamed)
  = (Ok false, Ex.cloned Ex.themesRenamed).
Proof.
  assert (patchScrollbarThumbBg "gruvbox" (Ex.cloned Ex.themes)
          = (Ok true, Ex.cloned Ex.themesRenamed)) as H by reflexivity.
  split; [exact H|].
  exact (patchScrollbarThumbBg_idempotent _ _ _ H).
Defined.

(** ** The version patterns *)

Lemma append_assoc (a b c : string) : (a ++ b) ++ c = a ++ b ++ c.
Proof. induction a as [|x a IH]; simpl; [reflexivity|now rewrite IH]. Qed.

Lemma dropPrefix_sound p :
  forall s t, Str.dropPrefix p s = Some t -> s = p ++ t.
Proof.
  induction p as [|a p IH]; intros s t H; simpl in H.
  - now injection H as ->.
  - destruct s as [|b s]; [discriminate|].
    destruct (Ascii.eqb_spec a b) as [->|]; [|discriminate].
    simpl. f_equal. now apply IH.
Qed.

Lemma lacks_cons a c s :
  Str.lacks a (String c s) = negb (Ascii.eqb a c) && Str.lacks a s.
Proof. reflexivity. Qed.

Lemma spanUnquoted_sound s :
  forall v r, Str.spanUnquoted s = (v, r) ->
    s = v ++ r /\ Str.lacks "034"%char v = true /\
    (r = EmptyString \/ exists r', r = Str.dq ++ r').
Proof.
  induction s as [|c s IH]; intros v r H; simpl in H.
  - injection H as <- <-. auto.
  - destruct (Ascii.eqb_spec c "034"%char) as [->|N].
    + injection H as <- <-. repeat split. right. now exists s.
    + destruct (Str.spanUnquoted s) as [v' r'].
      injection H as <- <-.
      destruct (IH _ _ eq_refl) as (-> & L & R).
      repeat split; [|exact R].
      rewrite lacks_cons, L.
      destruct (Ascii.eqb_spec "034"%char c); [congruence|reflexivity].
Qed.

Lemma matchQuotedHere_sound key s v rest :
  Str.matchQuotedHere key s = Some (v, rest) ->
  s = key ++ v ++ Str.dq ++ rest /\ v <> EmptyString /\
  Str.lacks "034"%char v = true.
Proof.
  unfold Str.matchQuotedHere.
  destruct (Str.dropPrefix key s) as [t|] eqn:D; [|discriminate].
  apply dropPrefix_sound in D. subst s.
  destruct (Str.spanUnquoted t) as [[|c w] [|x r]] eqn:S; try discriminate.
  intros H. injection H as <- <-.
  destruct (spanUnquoted_sound _ _ _ S) as (-> & L & [R|[r' R]]);
    [discriminate R|].
  injection R as -> ->.
  split; [reflexivity|]. split; [discriminate|exact L].
Qed.

Lemma dropPrefix_app p t : Str.dropPrefix p (p ++ t) = Some t.
Proof.
  induction p as [|a p IH]; simpl; [reflexivity|].
  now rewrite Ascii.eqb_refl.
Qed.

Lemma spanUnquoted_app v rest :
  Str.lacks "034"%char v = true ->
  Str.spanUnquoted (v ++ Str.dq ++ rest) = (v, Str.dq ++ rest).
Proof.
  induction v as [|c v IH]; intros L; [reflexivity|].
  rewrite lacks_cons in L. apply andb_prop in L as [Lc Lv].
  cbn [String.append Str.spanUnquoted].
  rewrite Ascii.eqb_sym. apply negb_true_iff in Lc. rewrite Lc.
  now rewrite (IH Lv).
Qed.

(** The pattern matches wherever the key is followed by a non-empty
    text without a quote and a closing quote. *)
Lemma matchQuotedHere_complete key v rest :
  v <> EmptyString -> Str.lacks "034"%char v = true ->
  Str.matchQuotedHere key (key ++ v ++ Str.dq ++ rest) = Some (v, rest).
Proof.
  intros N L. unfold Str.matchQuotedHere.
  rewrite dropPrefix_app, (spanUnquoted_app _ _ L).
  destruct v; [contradiction|reflexivity].
Qed.

(** What the search returns is a decomposition of the text around a
    match: nothing but the quoted text lies between the key and the
    closing quote. *)
Lemma searchQuoted_sound key s :
  forall pre v rest, Str.searchQuoted key s = Some (pre, v, rest) ->
    s = pre ++ key ++ v ++ Str.dq ++ rest /\ v <> EmptyString /\
    Str.lacks "034"%char v = true.
Proof.
  induction s as [|c s IH]; intros pre v rest H; simpl in H.
  - destruct (Str.matchQuotedHere key EmptyString) as [[v' r']|] eqn:E;
      [|discriminate].
    injection H as <- <- <-. now apply matchQuotedHere_sound.
  - destruct (Str.matchQuotedHere key (String c s)) as [[v' r']|] eqn:E.
    + injection H as <- <- <-. now apply matchQuotedHere_sound.
    + destruct (Str.searchQuoted key s) as [[[p' v'] r']|]; [|discriminate].
      injection H as <- <- <-.
      destruct (IH _ _ _ eq_refl) as (-> & N & L). auto.
Qed.

(** The match the search returns is the leftmost one: the pattern
    matches at no earlier position of the text. *)
Lemma searchQuoted_leftmost key s :
  forall pre v rest, Str.searchQuoted key s = Some (pre, v, rest) ->
    forall a b, pre = a ++ b -> b <> EmptyString ->
      Str.matchQuotedHere key (b ++ key ++ v ++ Str.dq ++ rest) = None.
Proof.
  induction s as [|c s IH]; intros pre v rest H a b Hpre Hb; simpl in H.
  - destruct (Str.matchQuotedHere key EmptyString) as [[v' r']|];
      [|discriminate].
    injection H as <- <- <-.
    destruct a; [|discriminate]. simpl in Hpre. congruence.
  - destruct (Str.matchQuotedHere key (String c s)) as [[v' r']|] eqn:E.
    + injection H as <- <- <-.
      destruct a; [|discriminate]. simpl in Hpre. congruence.
    + destruct (Str.searchQuoted key s) as [[[p' v'] r']|] eqn:F;
        [|discriminate].
      injection H as <- <- <-.
      destruct a as [|x a]; simpl in Hpre.
      * subst b. destruct (searchQuoted_sound _ _ _ _ _ F) as (-> & _).
        exact E.
      * injection Hpre as <- ->. now apply (IH _ _ _ eq_refl a b).
Qed.

(** A file that can be read can be rewritten. *)
Lemma write_existing p c :
  forall n c0, Fs.readFile p n = Some c0 -> exists n', Fs.write p c n = Some n'.
Proof.
  unfold Fs.readFile.
  induction p as [|x p IH]; intros n c0 R; simpl in R |- *.
  - destruct n; [eauto|discriminate].
  - destruct n as [|es]; [discriminate|].
    destruct (Js.assoc x es) as [m|]; [|discriminate].
    destruct (IH _ _ R) as [m' ->]. eauto.
Qed.

Lemma existsSync_readFile p st c :
  Fs.readFile (Deno.resolve st p) (root st) = Some c ->
  Deno.existsSync p st = true.
Proof.
  unfold Fs.readFile, Deno.existsSync, Deno.stat.
  now destruct (Fs.lookup _ _).
Qed.

(** ** The version bumper *)

(** What [increment] does at [patch], by the two cases of the package. *)
Lemma incrementPatch_release v :
  SemVer.prerelease v = [] ->
  SemVer.incrementPatch v
  = SemVer.mk (SemVer.major v) (SemVer.minor v) (SemVer.patch v + 1) []
      (SemVer.build v).
Proof. unfold SemVer.incrementPatch. now intros ->. Qed.

Lemma incrementPatch_prerelease v :
  SemVer.prerelease v <> [] ->
  SemVer.incrementPatch v
  = SemVer.mk (SemVer.major v) (SemVer.minor v) (SemVer.patch v) []
      (SemVer.build v).
Proof.
  unfold SemVer.incrementPatch. now destruct (SemVer.prerelease v).
Qed.

(** The two versions the specification names. *)
Example bump_1_2_3 :
  option_map (fun v => SemVer.format (SemVer.incrementPatch v))
    (SemVer.parse "1.2.3") = Some "1.2.4".
Proof. reflexivity. Qed.

Example bump_0_9_10 :
  option_map (fun v => SemVer.format (SemVer.incrementPatch v))
    (SemVer.parse "0.9.10") = Some "0.9.11".
Proof. reflexivity. Qed.

(** The version bumper on a manifest it can read: the text written
    back is the text read with the leftmost match of the version
    pattern replaced. *)
Lemma bumpVersion_writes P name st k text cfg v sv :
  selectedManifest name st = Some k ->
  manifestText k name st = Some text ->
  parseManifest P k text = Some cfg ->
  Js.get "version" cfg = Some (JStr v) ->
  SemVer.parse v = Some sv ->
  bumpVersion P name st =
  Deno.writeTextFileSync (Rel [name; manifestFile k])
    (Str.replaceQuoted (versionKey k)
       (versionKey k ++ SemVer.format (SemVer.incrementPatch sv) ++ Str.dq) text) st.
Proof.
  unfold selectedManifest, manifestText, bumpVersion.
  intros K T C V S.
  destruct k; cbn [manifestFile versionKey parseManifest] in *.
  - destruct (Deno.existsSync (Rel [name; "extension.toml"]) st);
      [|destruct (Deno.existsSync _ st); discriminate K].
    unfold bind at 1. rewrite readTextFileSync_readFile.
    cbn [Deno.resolve]. rewrite T.
    unfold bind at 1. rewrite C. cbn [orThrow ret].
    unfold bind at 1, stringProp. rewrite V. cbn [ret].
    unfold bind at 1. rewrite S. reflexivity.
  - destruct (Deno.existsSync (Rel [name; "extension.toml"]) st);
      [discriminate K|].
    rewrite (existsSync_readFile (Rel [name; "extension.json"]) st text T).
    unfold bind at 1. rewrite readTextFileSync_readFile.
    cbn [Deno.resolve]. rewrite T.
    unfold bind at 1. rewrite C. cbn [orThrow ret].
    unfold bind at 1, stringProp. rewrite V. cbn [ret].
    unfold bind at 1. rewrite S. reflexivity.
Qed.

(** The version bumper on a manifest whose text has a match of the
    version pattern: the quoted text [w] of the leftmost match is
    replaced by the bumped version, in that manifest and nowhere
    else. *)
Lemma bumpVersion_replaces_leftmost_match
    (P : Platform) (name : string) (st : State) (k : manifestKind)
    (text : string) (cfg : JsValue) (v : string) (sv : SemVer.t)
    (pre w post : string) :
  selectedManifest name st = Some k ->
  manifestText k name st = Some text ->
  parseManifest P k text = Some cfg ->
  Js.get "version" cfg = Some (JStr v) ->
  SemVer.parse v = Some sv ->
  Str.searchQuoted (versionKey k) text = Some (pre, w, post) ->
  exists st',
    bumpVersion P name st = (Ok tt, st') /\
    manifestText k name st'
    = Some (pre ++ versionKey k
                ++ SemVer.format (SemVer.incrementPatch sv) ++ Str.dq
                ++ post) /\
    cwd st' = cwd st /\ transcript st' = transcript st /\
    forall q, q <> (cwd st ++ [name; manifestFile k])%list ->
              Fs.readFile q (root st') = Fs.readFile q (root st).
Proof.
  intros K T C V S Q.
  rewrite (bumpVersion_writes P name st k text cfg v sv K T C V S).
  unfold Str.replaceQuoted. rewrite Q, !append_assoc.
  unfold Deno.writeTextFileSync, manifestText in *. cbn [Deno.resolve].
  destruct (write_existing _
              (pre ++ versionKey k ++ SemVer.format (SemVer.incrementPatch sv)
                   ++ Str.dq ++ post) _ _ T) as [n' W].
  rewrite W. eexists. split; [reflexivity|]. cbn [root cwd transcript].
  split; [exact (readFile_write_same _ _ _ _ W)|].
  repeat split. intros q N. exact (readFile_write_other _ _ _ _ _ W N).
Qed.

(** A manifest whose text has no match of the version pattern is
    written back as it was read. *)
Lemma bumpVersion_without_match
    (P : Platform) (name : string) (st : State) (k : manifestKind)
    (text : string) (cfg : JsValue) (v : string) (sv : SemVer.t) :
  selectedManifest name st = Some k ->
  manifestText k name st = Some text ->
  parseManifest P k text = Some cfg ->
  Js.get "version" cfg = Some (JStr v) ->
  SemVer.parse v = Some sv ->
  Str.searchQuoted (versionKey k) text = None ->
  exists st',
    bumpVersion P name st = (Ok tt, st') /\
    manifestText k name st' = Some text.
Proof.
  intros K T C V S Q.
  rewrite (bumpVersion_writes P name st k text cfg v sv K T C V S).
  unfold Str.replaceQuoted. rewrite Q.
  unfold Deno.writeTextFileSync, manifestText in *. cbn [Deno.resolve].
  destruct (write_existing _ text _ _ T) as [n' W].
  rewrite W. eexists. split; [reflexivity|].
  exact (readFile_write_same _ _ _ _ W).
Qed.

(** Without a manifest of either format the version bumper does
    nothing. *)
Lemma bumpVersion_no_manifest P name st :
  selectedManifest name st = None -> bumpVersion P name st = (Ok tt, st).
Proof.
  unfold selectedManifest, bumpVersion.
  destruct (Deno.existsSync (Rel [name; "extension.toml"]) st); [discriminate|].
  destruct (Deno.existsSync (Rel [name; "extension.json"]) st); [discriminate|].
  reflexivity.
Qed.

(** The JSON manifest is bumped when it is the only one, and left alone
    when the repository has a TOML manifest too. *)
Example bumpVersion_json_only :
  bumpVersion Ex.quiet "gruvbox"
    (Ex.cloned [("extension.json", File (Ex.jsonManifest "0.9.10"))])
  = (Ok tt, Ex.cloned [("extension.json", File (Ex.jsonManifest "0.9.11"))]).
Proof. reflexivity. Qed.

Example bumpVersion_prefers_toml :
  bumpVersion Ex.quiet "gruvbox"
    (Ex.cloned [("extension.json", File (Ex.jsonManifest "0.9.10"));
                ("extension.toml", File (Ex.tomlManifest "0.9.10"))])
  = (Ok tt,
     Ex.cloned [("extension.json", File (Ex.jsonManifest "0.9.10"));
                ("extension.toml", File (Ex.tomlManifest "0.9.11"))]).
Proof. reflexivity. Qed.

(** C1 (amended).  Let the manifest [bumpVersion] selects (the TOML
    manifest, or the JSON manifest when there is no TOML one) have a
    version field [v] that parses as a semantic version [sv], and let
    the leftmost match of the version pattern in its text be that
    field: [v] stands between the quotes.  Then [bumpVersion] returns
    normally and rewrites that manifest, and nothing else, so that [v]
    is replaced by the formatted bumped version while the text before
    and after it is kept.  The bumped version has the major and minor
    numbers and the build metadata of [sv] and no pre-release part;
    its patch number is the next one when [sv] has no pre-release
    part, and the patch number of [sv] when it has one. *)
Theorem bumpVersion_bumps_leftmost_match
    (P : Platform) (name : string) (st : State) (k : manifestKind)
    (text : string) (cfg : JsValue) (v : string) (sv : SemVer.t)
    (pre post : string) :
  selectedManifest name st = Some k ->
  manifestText k name st = Some text ->
  parseManifest P k text = Some cfg ->
  Js.get "version" cfg = Some (JStr v) ->
  SemVer.parse v = Some sv ->
  Str.searchQuoted (versionKey k) text = Some (pre, v, post) ->
  text = pre ++ versionKey k ++ v ++ Str.dq ++ post /\
  (exists st',
      bumpVersion P name st = (Ok tt, st') /\
      manifestText k name st'
      = Some (pre ++ versionKey k
                  ++ SemVer.format (SemVer.incrementPatch sv) ++ Str.dq
                  ++ post) /\
      cwd st' = cwd st /\ transcript st' = transcript st /\
      forall q, q <> (cwd st ++ [name; manifestFile k])%list ->
                Fs.readFile q (root st') = Fs.readFile q (root st)) /\
  SemVer.major (SemVer.incrementPatch sv) = SemVer.major sv /\
  SemVer.minor (SemVer.incrementPatch sv) = SemVer.minor sv /\
  SemVer.build (SemVer.incrementPatch sv) = SemVer.build sv /\
  SemVer.prerelease (SemVer.incrementPatch sv) = [] /\
  SemVer.patch (SemVer.incrementPatch sv)
  = match SemVer.prerelease sv with
    | [] => (SemVer.patch sv + 1)%N
    | _ :: _ => SemVer.patch sv
    end.
Proof.
  intros K T C V S Q.
  split; [now apply searchQuoted_sound in Q|].
  split; [|now repeat split].
  exact (bumpVersion_replaces_leftmost_match
           P name st k text cfg v sv pre v post K T C V S Q).
Qed.

Lemma bumpVersion_bumps_leftmost_match_witness :
  exists st',
    bumpVersion Ex.quiet "gruvbox"
      (Ex.cloned [("extension.toml", File (Ex.tomlManifest "1.2.3"))])
    = (Ok tt, st') /\
    manifestText TomlManifest "gruvbox" st' = Some (Ex.tomlManifest "1.2.4").
Proof.
  destruct (bumpVersion_bumps_leftmost_match Ex.quiet "gruvbox"
              (Ex.cloned [("extension.toml", File (Ex.tomlManifest "1.2.3"))])
              TomlManifest (Ex.tomlManifest "1.2.3")
              (JObj [("id", JStr "gruvbox"); ("name", JStr "Gruvbox");
                     ("version", JStr "1.2.3"); ("schema_version", JNum 1)])
              "1.2.3" (SemVer.mk 1 2 3 [] [])
              ("id = " ++ Ex.quoted "gruvbox" ++ Str.nl ++
               "name = " ++ Ex.quoted "Gruvbox" ++ Str.nl)
              (Str.nl ++ "schema_version = 1" ++ Str.nl)
              eq_refl eq_refl eq_refl eq_refl eq_refl eq_refl)
    as (_ & (st' & Run & Text & _) & _).
  exists st'. split; [exact Run|exact Text].
Defined.

(** C1, as stated, fails twice on manifests with a valid version.  A
    manifest laid out without a blank after the colon has no match of
    the pattern, and is written back with its version unchanged; and a
    pre-release version is not left untouched: its pre-release part is
    dropped and its patch number stays. *)
Lemma bumpVersion_not_only_patch :
  (SemVer.parse "1.2.3" = Some (SemVer.mk 1 2 3 [] []) /\
   Sample.JSON_parse (Ex.jsonCompact "1.2.3")
   = Some (JObj [("name", JStr "My Cool Ext"); ("version", JStr "1.2.3")]) /\
   bumpVersion Ex.quiet "gruvbox"
     (Ex.cloned [("extension.json", File (Ex.jsonCompact "1.2.3"))])
   = (Ok tt, Ex.cloned [("extension.json", File (Ex.jsonCompact "1.2.3"))])) /\
  (SemVer.parse "1.2.3-beta.1" = Some (SemVer.mk 1 2 3 ["beta"; "1"] []) /\
   bumpVersion Ex.quiet "gruvbox"
     (Ex.cloned [("extension.toml", File (Ex.tomlManifest "1.2.3-beta.1"))])
   = (Ok tt, Ex.cloned [("extension.toml", File (Ex.tomlManifest "1.2.3"))])).
Proof. repeat split; reflexivity. Qed.

(** ** The manifest port *)

Lemma lookup_app p q :
  forall n, Fs.lookup (p ++ q)%list n =
            match Fs.lookup p n with
            | Some m => Fs.lookup q m
            | None => None
            end.
Proof.
  induction p as [|x p IH]; intros n; simpl; [reflexivity|].
  destruct n as [|es]; [reflexivity|].
  destruct (Js.assoc x es); [apply IH|reflexivity].
Qed.

(** The directory of a file that can be read is a directory. *)
Lemma readFile_parent p x n c :
  Fs.readFile (p ++ [x])%list n = Some c -> Fs.isDir (Fs.lookup p n) = true.
Proof.
  unfold Fs.readFile. rewrite lookup_app.
  destruct (Fs.lookup p n) as [[|es]|]; simpl; try discriminate. reflexivity.
Qed.

(** A file can be created in a directory that has no entry of its name. *)
Lemma write_new p x c :
  forall n, Fs.isDir (Fs.lookup p n) = true ->
            Fs.lookup (p ++ [x])%list n = None ->
            exists n', Fs.write (p ++ [x])%list c n = Some n'.
Proof.
  induction p as [|y p IH]; intros n D L; simpl in *.
  - destruct n as [|es]; [discriminate|].
    destruct (Js.assoc x es); [discriminate|]. eauto.
  - destruct n as [|es]; [discriminate|].
    destruct (Js.assoc y es) as [m|]; [|discriminate].
    destruct (IH m D L) as [m' ->]. eauto.
Qed.

(** In a directory without two entries of one name, the entry a search
    of the listing finds is the entry its name leads to. *)
Lemma find_assoc (f : string * node -> bool) es :
  NoDup (map fst es) ->
  forall x m, find f es = Some (x, m) -> Js.assoc x es = Some m.
Proof.
  induction es as [|[y w] es IH]; intros N x m H; simpl in *; [discriminate|].
  inversion N as [|? ? Ny N']; subst.
  destruct (f (y, w)).
  - injection H as -> ->. now rewrite String.eqb_refl.
  - destruct (String.eqb_spec x y) as [->|_]; [|now apply IH].
    exfalso. apply Ny. apply find_some in H as [I _].
    now apply (in_map fst) in I.
Qed.

(** [findRepoConfig], case by case. *)
Lemma findRepoConfig_absent path st :
  Deno.stat (Deno.child path "grammars") st = None ->
  findRepoConfig path st = (Ok None, st).
Proof.
  intros H. unfold findRepoConfig, Deno.existsSync. now rewrite H.
Qed.

Lemma stat_child path x st :
  Deno.stat (Deno.child path x) st =
  match Deno.stat path st with
  | Some m => Fs.lookup [x] m
  | None => None
  end.
Proof.
  unfold Deno.stat. destruct path; simpl; rewrite ?app_assoc; apply lookup_app.
Qed.

Lemma findRepoConfig_listing path st es :
  Deno.stat (Deno.child path "grammars") st = Some (Dir es) ->
  NoDup (map fst es) ->
  findRepoConfig path st =
  (Ok match find isTomlFile es with
      | Some (name, File content) =>
          Some (mkRepoConfig (Str.stripSuffix ".toml" name) content)
      | _ => None
      end, st).
Proof.
  intros H N. unfold findRepoConfig, Deno.existsSync. rewrite H. cbn [negb].
  unfold bind at 1, Deno.readDirSync. rewrite H.
  destruct (find isTomlFile es) as [[name m]|] eqn:F; [|reflexivity].
  unfold bind, Deno.readTextFileSync, ret.
  rewrite stat_child, H. simpl.
  rewrite (find_assoc _ _ N _ _ F).
  apply find_some in F as [_ F]. unfold isTomlFile in F. simpl in F.
  destruct m; [reflexivity|discriminate F].
Qed.

(** A search finds the first entry that qualifies. *)
Lemma find_first {A : Type} (f : A -> bool) pre x post :
  (forall e, In e pre -> f e = false) -> f x = true ->
  find f (pre ++ x :: post)%list = Some x.
Proof.
  induction pre as [|e pre IH]; intros Hpre Hx; simpl.
  - now rewrite Hx.
  - rewrite (Hpre e (or_introl eq_refl)). apply IH; [|exact Hx].
    intros e' I. apply Hpre. now right.
Qed.

(** [findRepoConfig] gives nothing when the [grammars] directory is
    absent or holds no regular file named [*.toml]; otherwise it gives
    the first such file of the listing, with the name stripped of
    [.toml] and the text of the file, whatever entries, companion
    files or not, follow it. *)
Lemma findRepoConfig_first_toml (path : fpath) (st : State) :
  (Deno.stat (Deno.child path "grammars") st = None ->
   findRepoConfig path st = (Ok None, st)) /\
  (forall es,
      Deno.stat (Deno.child path "grammars") st = Some (Dir es) ->
      NoDup (map fst es) ->
      (forall e, In e es -> isTomlFile e = false) ->
      findRepoConfig path st = (Ok None, st)) /\
  (forall pre name content post,
      Deno.stat (Deno.child path "grammars") st
      = Some (Dir (pre ++ (name, File content) :: post)%list) ->
      NoDup (map fst (pre ++ (name, File content) :: post)%list) ->
      (forall e, In e pre -> isTomlFile e = false) ->
      Str.endsWith ".toml" name = true ->
      findRepoConfig path st
      = (Ok (Some (mkRepoConfig (Str.stripSuffix ".toml" name) content)), st)).
Proof.
  split; [apply findRepoConfig_absent|]. split.
  - intros es H N None_qualifies.
    rewrite (findRepoConfig_listing _ _ _ H N).
    destruct (find isTomlFile es) as [e|] eqn:F; [|reflexivity].
    apply find_some in F as [I F]. rewrite (None_qualifies e I) in F.
    discriminate F.
  - intros pre name content post H N Hpre Hname.
    rewrite (findRepoConfig_listing _ _ _ H N).
    rewrite (find_first isTomlFile pre (name, File content) post Hpre);
      [reflexivity|].
    unfold isTomlFile. simpl. exact Hname.
Qed.

Example findRepoConfig_first_of_two :
  findRepoConfig (Abs ["work"; "gruvbox"]) (Ex.inside Ex.grammars)
  = (Ok (Some (mkRepoConfig "rust" Ex.rustGrammar)), Ex.inside Ex.grammars).
Proof. reflexivity. Qed.

Lemma existsSync_lookup p st :
  Deno.existsSync p st = false <-> Fs.lookup (Deno.resolve st p) (root st) = None.
Proof.
  unfold Deno.existsSync, Deno.stat.
  destruct (Fs.lookup _ _); split; congruence.
Qed.

(** The port of a legacy manifest, when there is no target manifest
    yet: the document written is the serialization of the manifest
    with [id], [version] and [schema_version] set, followed by the
    grammar text when [findRepoConfig] found a companion file. *)
Lemma portExtToToml_ports P st text props name version sv doc found :
  Deno.existsSync (Rel ["extension.toml"]) st = false ->
  Fs.readFile (cwd st ++ ["extension.json"])%list (root st) = Some text ->
  JSON_parse P text = Some (JObj props) ->
  Js.assoc "name" props = Some (JStr name) ->
  Js.assoc "version" props = Some (JStr version) ->
  SemVer.parse version = Some sv ->
  stringifyToml P
    (portedManifest props (kebabCase P name)
       (SemVer.format (SemVer.incrementPatch sv))) = Some doc ->
  findRepoConfig (Abs (cwd st)) st = (Ok found, st) ->
  exists st',
    portExtToToml P st = (Ok true, st') /\
    Fs.readFile (cwd st ++ ["extension.toml"])%list (root st')
    = Some match found with
           | Some c => doc ++ grammarSuffix c
           | None => doc
           end /\
    cwd st' = cwd st /\ transcript st' = transcript st /\
    forall q, q <> (cwd st ++ ["extension.toml"])%list ->
              Fs.readFile q (root st') = Fs.readFile q (root st).
Proof.
  intros E R J Hn Hv S T F.
  unfold portExtToToml. rewrite E.
  unfold bind at 1. rewrite readTextFileSync_readFile.
  cbn [Deno.resolve]. rewrite R.
  unfold bind at 1. rewrite J. cbn [orThrow ret].
  unfold bind at 1, stringProp. cbn [Js.get]. rewrite Hn. cbn [ret].
  unfold bind at 1. rewrite Hv. cbn [ret].
  unfold bind at 1. rewrite S. cbn [orThrow ret].
  unfold bind at 1. rewrite T. cbn [orThrow ret].
  unfold bind at 1, Deno.getCwd.
  rewrite (readFile_parent _ _ _ _ R).
  unfold bind at 1. rewrite F.
  apply existsSync_lookup in E. cbn [Deno.resolve] in E.
  destruct (write_new (cwd st) "extension.toml"
              match found with
              | Some c => doc ++ grammarSuffix c
              | None => doc
              end (root st) (readFile_parent _ _ _ _ R) E) as [n' W].
  unfold bind, Deno.writeTextFileSync, ret. cbn [Deno.resolve].
  rewrite W. eexists. split; [reflexivity|]. cbn [root cwd transcript].
  split; [exact (readFile_write_same _ _ _ _ W)|].
  repeat split. intros q N. exact (readFile_write_other _ _ _ _ _ W N).
Qed.

(** C6.  When [extension.toml] exists the port returns [false] and
    leaves the state, and so every file, as it is, whatever the
    platform's [JSON.parse] does and whether or not there is a legacy
    manifest. *)
Theorem portExtToToml_existing_target (P : Platform) (st : State) :
  Deno.existsSync (Rel ["extension.toml"]) st = true ->
  portExtToToml P st = (Ok false, st).
Proof. intros H. unfold portExtToToml. now rewrite H. Qed.

Lemma portExtToToml_existing_target_witness :
  portExtToToml Ex.bare
    (Ex.inside [("extension.toml", File (Ex.tomlManifest "1.2.3"))])
  = (Ok false, Ex.inside [("extension.toml", File (Ex.tomlManifest "1.2.3"))]).
Proof.
  apply (portExtToToml_existing_target Ex.bare
           (Ex.inside [("extension.toml", File (Ex.tomlManifest "1.2.3"))])).
  reflexivity.
Defined.

(** C4.  In a repository whose [extension.json] is the legacy manifest
    of the example, without [extension.toml] and without a [grammars]
    entry, the port returns [true] and writes to [extension.toml] the
    serialization of the table with exactly the keys [name], [version]
    = 1.0.1, [id] = my-cool-ext and [schema_version] = 1, with nothing
    appended: no [grammar] key and no [grammars] table. *)
Theorem portExtToToml_plain_manifest (P : Platform) (st : State) (doc : string) :
  Deno.existsSync (Rel ["extension.toml"]) st = false ->
  Fs.readFile (cwd st ++ ["extension.json"])%list (root st)
  = Some Ex.legacyManifest ->
  Fs.lookup (cwd st ++ ["grammars"])%list (root st) = None ->
  JSON_parse P Ex.legacyManifest
  = Some (JObj [("name", JStr "My Cool Ext"); ("version", JStr "1.0.0")]) ->
  kebabCase P "My Cool Ext" = "my-cool-ext" ->
  stringifyToml P
    (JObj [("name", JStr "My Cool Ext"); ("version", JStr "1.0.1");
           ("id", JStr "my-cool-ext"); ("schema_version", JNum 1)])
  = Some doc ->
  exists st',
    portExtToToml P st = (Ok true, st') /\
    Fs.readFile (cwd st ++ ["extension.toml"])%list (root st') = Some doc /\
    cwd st' = cwd st /\ transcript st' = transcript st /\
    forall q, q <> (cwd st ++ ["extension.toml"])%list ->
              Fs.readFile q (root st') = Fs.readFile q (root st).
Proof.
  intros E R G J K T.
  apply (portExtToToml_ports P st Ex.legacyManifest
           [("name", JStr "My Cool Ext"); ("version", JStr "1.0.0")]
           "My Cool Ext" "1.0.0" (SemVer.mk 1 0 0 [] []) doc None);
    try assumption; try reflexivity.
  - rewrite K. exact T.
  - apply findRepoConfig_absent. exact G.
Qed.

Lemma portExtToToml_plain_manifest_witness :
  exists st',
    portExtToToml Ex.quiet
      (Ex.inside [("extension.json", File Ex.legacyManifest)])
    = (Ok true, st') /\
    Fs.readFile ["work"; "gruvbox"; "extension.toml"] (root st')
    = Some Ex.portedDocument /\
    Str.includes "grammar" Ex.portedDocument = false.
Proof.
  destruct (portExtToToml_plain_manifest Ex.quiet
              (Ex.inside [("extension.json", File Ex.legacyManifest)])
              Ex.portedDocument
              eq_refl eq_refl eq_refl eq_refl eq_refl eq_refl)
    as (st' & Run & Text & _).
  exists st'. split; [exact Run|]. split; [exact Text|reflexivity].
Defined.

(** C5.  With the same legacy manifest and a [grammars] directory
    whose first regular [*.toml] file is [rust.toml], the port writes
    the same serialization followed by the line [grammar = "rust"],
    the header [[grammars.rust]] and the text of [rust.toml] as it
    is. *)
Theorem portExtToToml_with_grammar
    (P : Platform) (st : State) (doc : string) (es : list (string * node)) :
  Deno.existsSync (Rel ["extension.toml"]) st = false ->
  Fs.readFile (cwd st ++ ["extension.json"])%list (root st)
  = Some Ex.legacyManifest ->
  Fs.lookup (cwd st ++ ["grammars"])%list (root st) = Some (Dir es) ->
  NoDup (map fst es) ->
  find isTomlFile es = Some ("rust.toml", File Ex.rustGrammar) ->
  JSON_parse P Ex.legacyManifest
  = Some (JObj [("name", JStr "My Cool Ext"); ("version", JStr "1.0.0")]) ->
  kebabCase P "My Cool Ext" = "my-cool-ext" ->
  stringifyToml P
    (JObj [("name", JStr "My Cool Ext"); ("version", JStr "1.0.1");
           ("id", JStr "my-cool-ext"); ("schema_version", JNum 1)])
  = Some doc ->
  exists st',
    portExtToToml P st = (Ok true, st') /\
    Fs.readFile (cwd st ++ ["extension.toml"])%list (root st')
    = Some (doc ++ "grammar = " ++ Ex.quoted "rust" ++ Str.nl ++
            "[grammars.rust]" ++ Str.nl ++ Ex.rustGrammar) /\
    cwd st' = cwd st /\ transcript st' = transcript st /\
    forall q, q <> (cwd st ++ ["extension.toml"])%list ->
              Fs.readFile q (root st') = Fs.readFile q (root st).
Proof.
  intros E R G N F J K T.
  apply (portExtToToml_ports P st Ex.legacyManifest
           [("name", JStr "My Cool Ext"); ("version", JStr "1.0.0")]
           "My Cool Ext" "1.0.0" (SemVer.mk 1 0 0 [] []) doc
           (Some (mkRepoConfig "rust" Ex.rustGrammar)));
    try assumption; try reflexivity.
  - rewrite K. exact T.
  - rewrite (findRepoConfig_listing (Abs (cwd st)) st es G N), F. reflexivity.
Qed.

Lemma portExtToToml_with_grammar_witness :
  exists st',
    portExtToToml Ex.quiet
      (Ex.inside (("extension.json", File Ex.legacyManifest) :: Ex.grammars))
    = (Ok true, st') /\
    Fs.readFile ["work"; "gruvbox"; "extension.toml"] (root st')
    = Some (Ex.portedDocument ++
            "grammar = " ++ Ex.quoted "rust" ++ Str.nl ++
            "[grammars.rust]" ++ Str.nl ++
            "path = " ++ Ex.quoted "grammars/rust").
Proof.
  destruct (portExtToToml_with_grammar Ex.quiet
              (Ex.inside (("extension.json", File Ex.legacyManifest) :: Ex.grammars))
              Ex.portedDocument
              [("rust", Dir []); ("rust.toml", File Ex.rustGrammar);
               ("toml.toml", File ("path = " ++ Ex.quoted "grammars/toml"))]
              eq_refl eq_refl eq_refl)
    as (st' & Run & Text & _); try reflexivity.
  - repeat constructor; simpl; intuition discriminate.
  - exists st'. split; [exact Run|exact Text].
Defined.

(** [findRepoConfig] only reads. *)
Lemma findRepoConfig_reads path st r st' :
  findRepoConfig path st = (r, st') -> st' = st.
Proof.
  unfold findRepoConfig.
  destruct (Deno.existsSync _ st); cbn [negb]; [|now intros [= _ <-]].
  unfold bind at 1, Deno.readDirSync.
  destruct (Deno.stat _ st) as [[c|es]|]; try now intros [= _ <-].
  destruct (find isTomlFile es) as [[name m]|]; [|now intros [= _ <-]].
  unfold bind, Deno.readTextFileSync, ret.
  destruct (Deno.stat _ st) as [[c|es']|]; now intros [= _ <-].
Qed.

(** A port that returned [true] went all the way: the serializer gave
    a document, the search for a companion configuration returned, and
    the manifest written is that document, followed by the grammar
    lines of the configuration when there is one. *)
Lemma portExtToToml_returned_true P st st' :
  portExtToToml P st = (Ok true, st') ->
  exists obj doc found,
    stringifyToml P obj = Some doc /\
    findRepoConfig (Abs (cwd st)) st = (Ok found, st) /\
    Fs.readFile (cwd st ++ ["extension.toml"])%list (root st')
    = Some match found with
           | Some c => doc ++ grammarSuffix c
           | None => doc
           end.
Proof.
  unfold portExtToToml. intros H.
  destruct (Deno.existsSync (Rel ["extension.toml"]) st); [discriminate H|].
  unfold bind at 1 in H. rewrite readTextFileSync_readFile in H.
  destruct (Fs.readFile _ _) as [text|]; [|discriminate H].
  unfold bind at 1 in H.
  destruct (JSON_parse P text) as [cfg|]; [|discriminate H].
  cbn [orThrow ret] in H.
  destruct cfg as [| | | | |props|]; try discriminate H.
  unfold bind at 1, stringProp in H.
  destruct (Js.get "name" (JObj props)) as [[| | |name| | |]|];
    try discriminate H.
  cbn [ret] in H. unfold bind at 1 in H.
  destruct (Js.get "version" (JObj props)) as [[| | |v| | |]|];
    try discriminate H.
  cbn [ret] in H. unfold bind at 1 in H.
  destruct (SemVer.parse v) as [sv|]; [|discriminate H].
  cbn [orThrow ret] in H. unfold bind at 1 in H.
  destruct (stringifyToml P _) as [doc|] eqn:T; [|discriminate H].
  cbn [orThrow ret] in H. unfold bind at 1, Deno.getCwd in H.
  destruct (Fs.isDir (Fs.lookup (cwd st) (root st))); [|discriminate H].
  unfold bind at 1 in H.
  destruct (findRepoConfig (Abs (cwd st)) st) as [[found|e] st1] eqn:F;
    [|discriminate H].
  pose proof (findRepoConfig_reads _ _ _ _ F) as ->.
  unfold bind, Deno.writeTextFileSync, ret in H. cbn [Deno.resolve] in H.
  destruct (Fs.write _ _ _) as [n'|] eqn:W; [|discriminate H].
  injection H as <-. cbn [root].
  eexists. exists doc, found. split; [exact T|]. split; [reflexivity|].
  exact (readFile_write_same _ _ _ _ W).
Qed.

(** C10.  The port embeds at most one grammar.  [findRepoConfig], for
    every path, gives nothing when [grammars] is absent or lists no
    regular file named [*.toml], and otherwise the first such file of
    the listing, whatever follows it.  The port calls it once, for the
    working directory: so the manifest it writes for a legacy manifest
    it accepts is the serialization alone in the first two cases, and
    in the third the serialization followed by the grammar lines of
    that first file and of no other: the entries after it, companion
    files or not, leave no trace in the manifest.  And whatever the
    repository, a port that returned [true] has written a
    serialization followed by the grammar lines of what that one call
    returned, or by nothing. *)
Theorem portExtToToml_embeds_first_grammar_only (P : Platform) :
  (forall path st,
      (Deno.stat (Deno.child path "grammars") st = None ->
       findRepoConfig path st = (Ok None, st)) /\
      (forall es,
          Deno.stat (Deno.child path "grammars") st = Some (Dir es) ->
          NoDup (map fst es) ->
          (forall e, In e es -> isTomlFile e = false) ->
          findRepoConfig path st = (Ok None, st)) /\
      (forall pre name content post,
          Deno.stat (Deno.child path "grammars") st
          = Some (Dir (pre ++ (name, File content) :: post)%list) ->
          NoDup (map fst (pre ++ (name, File content) :: post)%list) ->
          (forall e, In e pre -> isTomlFile e = false) ->
          Str.endsWith ".toml" name = true ->
          findRepoConfig path st
          = (Ok (Some (mkRepoConfig (Str.stripSuffix ".toml" name) content)), st))) /\
  (forall st text props name version sv doc,
      Deno.existsSync (Rel ["extension.toml"]) st = false ->
      Fs.readFile (cwd st ++ ["extension.json"])%list (root st) = Some text ->
      JSON_parse P text = Some (JObj props) ->
      Js.assoc "name" props = Some (JStr name) ->
      Js.assoc "version" props = Some (JStr version) ->
      SemVer.parse version = Some sv ->
      stringifyToml P
        (portedManifest props (kebabCase P name)
           (SemVer.format (SemVer.incrementPatch sv))) = Some doc ->
      (Fs.lookup (cwd st ++ ["grammars"])%list (root st) = None ->
       portsTo P st doc) /\
      (forall es,
          Fs.lookup (cwd st ++ ["grammars"])%list (root st) = Some (Dir es) ->
          NoDup (map fst es) ->
          (forall e, In e es -> isTomlFile e = false) ->
          portsTo P st doc) /\
      (forall pre gname content post,
          Fs.lookup (cwd st ++ ["grammars"])%list (root st)
          = Some (Dir (pre ++ (gname, File content) :: post)%list) ->
          NoDup (map fst (pre ++ (gname, File content) :: post)%list) ->
          (forall e, In e pre -> isTomlFile e = false) ->
          Str.endsWith ".toml" gname = true ->
          portsTo P st
            (doc ++ grammarSuffix
                      (mkRepoConfig (Str.stripSuffix ".toml" gname) content)))) /\
  (forall st st',
      portExtToToml P st = (Ok true, st') ->
      exists obj doc found,
        stringifyToml P obj = Some doc /\
        findRepoConfig (Abs (cwd st)) st = (Ok found, st) /\
        Fs.readFile (cwd st ++ ["extension.toml"])%list (root st')
        = Some match found with
               | Some c => doc ++ grammarSuffix c
               | None => doc
               end).
Proof.
  split; [exact findRepoConfig_first_toml|].
  split; [|exact (portExtToToml_returned_true P)].
  intros st text props name version sv doc E R J Hn Hv S T.
  assert (forall found,
             findRepoConfig (Abs (cwd st)) st = (Ok found, st) ->
             portsTo P st match found with
                          | Some c => doc ++ grammarSuffix c
                          | None => doc
                          end) as Port.
  { intros found F.
    destruct (portExtToToml_ports P st text props name version sv doc found
                E R J Hn Hv S T F) as (st' & Run & Text & _).
    exists st'. now split. }
  destruct (findRepoConfig_first_toml (Abs (cwd st)) st)
    as (Absent & None_qualifies & First).
  repeat split.
  - intros G. exact (Port None (Absent G)).
  - intros es G N Q. exact (Port None (None_qualifies es G N Q)).
  - intros pre gname content post G N Q Hname.
    exact (Port _ (First pre gname content post G N Q Hname)).
Qed.

Lemma portExtToToml_embeds_first_grammar_only_witness :
  portsTo Ex.quiet
    (Ex.inside (("extension.json", File Ex.legacyManifest) :: Ex.grammars))
    (Ex.portedDocument ++ grammarSuffix (mkRepoConfig "rust" Ex.rustGrammar)) /\
  Str.includes "[grammars.toml]"
    (Ex.portedDocument ++ grammarSuffix (mkRepoConfig "rust" Ex.rustGrammar))
  = false.
Proof.
  split; [|reflexivity].
  destruct (proj1 (proj2 (portExtToToml_embeds_first_grammar_only Ex.quiet))
              (Ex.inside (("extension.json", File Ex.legacyManifest) :: Ex.grammars))
              Ex.legacyManifest
              [("name", JStr "My Cool Ext"); ("version", JStr "1.0.0")]
              "My Cool Ext" "1.0.0" (SemVer.mk 1 0 0 [] []) Ex.portedDocument
              eq_refl eq_refl eq_refl eq_refl eq_refl eq_refl eq_refl)
    as (_ & _ & First).
  apply (First [("rust", Dir [])] "rust.toml" Ex.rustGrammar
           [("toml.toml", File ("path = " ++ Ex.quoted "grammars/toml"))]).
  - reflexivity.
  - repeat constructor; simpl; intuition discriminate.
  - intros e [<-|[]]. reflexivity.
  - reflexivity.
Defined.

(** ** The scoped directory switch, again *)

(** C8 (amended).  For every directory and every body, on every way
    the body ends (a value or a thrown error), the scope leaves the
    process in the working directory it was entered from, provided
    that directory is still a directory when the body has ended.  When
    the switch itself throws, the working directory was never
    changed. *)
Theorem withDir_restores_cwd {A : Type} (dir : fpath) (body : M A) (st : State) :
  (Fs.isDir (Fs.lookup (cwd st) (root st)) = true ->
   Fs.isDir (Deno.stat dir st) = true ->
   Fs.isDir (Fs.lookup (cwd st) (root (snd (body (entered dir st))))) = true) ->
  cwd (snd (withDir dir body st)) = cwd st.
Proof.
  intros Kept. rewrite withDir_unfold.
  destruct (Fs.isDir (Fs.lookup (cwd st) (root st))); [|reflexivity].
  destruct (Fs.isDir (Deno.stat dir st)); [|reflexivity].
  specialize (Kept eq_refl eq_refl).
  destruct (body (entered dir st)) as [res st2]. simpl in Kept.
  now rewrite Kept.
Qed.

Lemma withDir_restores_cwd_witness :
  cwd (snd (withDir (Rel ["gruvbox"])
              (Deno.readTextFileSync (Rel ["extension.json"]))
              (Ex.cloned [])))
  = ["work"].
Proof.
  apply (withDir_restores_cwd (Rel ["gruvbox"])
           (Deno.readTextFileSync (Rel ["extension.json"])) (Ex.cloned [])).
  reflexivity.
Defined.

(** C8, as stated, fails for a body that removes the directory the
    scope was entered from: the disposal cannot change back into it,
    and the process stays in the directory of the scope. *)
Lemma withDir_cannot_restore_removed_cwd :
  withDir (Rel ["gruvbox"]) (Deno.removeSync (Abs ["work"])) (Ex.cloned [])
  = (Throw "NotFound: chdir", mkState (Dir []) ["work"; "gruvbox"] []) /\
  cwd (snd (withDir (Rel ["gruvbox"]) (Deno.removeSync (Abs ["work"]))
             (Ex.cloned [])))
  <> cwd (Ex.cloned []).
Proof. split; [reflexivity|discriminate]. Qed.

(** The theme patch never removes a directory, so it always leaves the
    process where it was, whether it returns or throws. *)
Lemma patchScrollbarThumbBg_restores_cwd repo st :
  cwd (snd (patchScrollbarThumbBg repo st)) = cwd st.
Proof.
  unfold patchScrollbarThumbBg. rewrite withDir_unfold.
  destruct (Fs.isDir (Fs.lookup (cwd st) (root st))) eqn:D0; [|reflexivity].
  destruct (Fs.isDir (Deno.stat (Rel [repo]) st)); [|reflexivity].
  unfold bind at 1. rewrite findThemes_listing.
  destruct (Fs.listing _ _) as [names|];
    [|cbn [entered root]; now rewrite D0].
  unfold bind.
  destruct (patchThemes (themePaths names) false (entered (Rel [repo]) st))
    as [[b|e] st2] eqn:Loop;
    destruct (patchThemes_frame _ _ _ _ _ Loop) as (_ & _ & Hd & _);
    cbn [entered root] in Hd;
    [destruct b|]; cbn [ret]; now rewrite Hd, D0.
Qed.

(** ** The retry wrapper *)

(** [retry] never raises: every way out of its loop is a [return]. *)
Lemma retry_returns fn answers :
  forall st, fst (fst (retry fn answers st)) = Ok tt.
Proof.
  induction answers as [|a rest IH]; intros st; simpl;
    destruct (fn st) as [[[]|e] st']; try reflexivity.
  destruct a; simpl; [apply IH|reflexivity].
Qed.

(** C3.  For a pipeline function that always throws: when the
    operator's first answer is no, [retry] returns normally after
    exactly one invocation, with the other answers unread; and when the
    operator answers yes [k] times and then no, [retry] returns
    normally after exactly [k + 1] invocations, one for the first
    attempt and one for each yes. *)
Theorem retry_runs_once_per_yes (fn : M unit) :
  alwaysThrows fn ->
  (forall rest st,
      retry fn (false :: rest) st = (Ok tt, rest, invoked fn 1 st)) /\
  (forall k rest st,
      retry fn (repeat true k ++ false :: rest)%list st
      = (Ok tt, rest, invoked fn (S k) st)).
Proof.
  intros T.
  assert (forall k rest st,
             retry fn (repeat true k ++ false :: rest)%list st
             = (Ok tt, rest, invoked fn (S k) st)) as General.
  { induction k as [|k IH]; intros rest st; simpl;
      destruct (T st) as (e & st' & E); rewrite E; simpl.
    - reflexivity.
    - rewrite IH. simpl. reflexivity. }
  split; [|exact General].
  intros rest st. exact (General 0 rest st).
Qed.

Lemma retry_runs_once_per_yes_witness :
  retry (fetchRepo Ex.bare "morhetz/gruvbox") [false; true] (Ex.cloned [])
  = (Ok tt, [true],
     mkState (root (Ex.cloned [])) ["work"]
       [(["gh"; "repo"; "clone"; "morhetz/gruvbox"], NotSpawned)]).
Proof.
  apply (proj1 (retry_runs_once_per_yes (fetchRepo Ex.bare "morhetz/gruvbox")
                  (fun st => ex_intro _ "spawn" (ex_intro _ _ eq_refl)))).
Defined.

(** ** The PR publisher *)

(** One external command: either the process finished, or it could not
    be spawned and [run] threw. *)
Ltac run_step :=
  unfold bind at 1; unfold run at 1;
  match goal with
  | |- context [exec ?P ?s ?c] =>
      let r := fresh "r" in
      let fs := fresh "fs" in
      destruct (exec P s c) as [[r fs]|]
  end;
  cbn [root cwd transcript].

(** The invocations a finished run added to the transcript. *)
Ltac transcript_tail :=
  intros H; injection H as <- <-; cbn [transcript];
  rewrite <- ?app_assoc; cbn [app];
  eexists; split; [reflexivity|].

(** No invocation of the list at hand is a failed commit. *)
Ltac no_failed_commit :=
  let I := fresh "I" in
  intros I; exfalso; simpl in I;
  repeat match goal with
    | H : _ \/ _ |- _ => destruct H
    | H : False |- _ => destruct H
    | H : (_, _) = (_, _) |- _ =>
        cbv [commitCmd remoteAddCmd pushCmd prCreateCmd] in H; congruence
    end.

(** After a failed commit nothing was pushed and no pull request was
    created. *)
Ltac nothing_published :=
  intros _; split; [reflexivity|];
  let cmd := fresh "cmd" in
  let e := fresh "e" in
  let I := fresh "I" in
  intros cmd e I; simpl in I;
  repeat match goal with
    | H : _ \/ _ |- _ => destruct H
    | H : False |- _ => destruct H
    | H : (_, _) = (_, _) |- _ => injection H as <- <-
    end;
  split; reflexivity.

Lemma publish_skips_on_failed_commit P a branchName st res st' :
  publish P a branchName st = (res, st') ->
  exists new,
    transcript st' = (transcript st ++ new)%list /\
    (In (commitCmd (commitMsg a), Exited false) new ->
     res = Ok tt /\
     forall cmd e, In (cmd, e) new -> isPush cmd = false /\ isPrCreate cmd = false).
Proof.
  unfold publish.
  do 5 (run_step; [|transcript_tail; no_failed_commit]).
  run_step; [|transcript_tail; no_failed_commit].
  destruct (success r4) eqn:Commit; cbn [negb].
  - run_step; [|transcript_tail; no_failed_commit].
    run_step; transcript_tail; no_failed_commit.
  - unfold ret. transcript_tail. nothing_published.
Qed.

Lemma pushUpdate_skips_on_failed_commit P branchName st res st' :
  pushUpdate P branchName st = (res, st') ->
  exists new,
    transcript st' = (transcript st ++ new)%list /\
    (In (commitCmd UPDATE_COMMIT_MSG, Exited false) new ->
     res = Ok tt /\
     forall cmd e, In (cmd, e) new -> isPush cmd = false /\ isPrCreate cmd = false).
Proof.
  unfold pushUpdate.
  do 2 (run_step; [|transcript_tail; no_failed_commit]).
  run_step; [|transcript_tail; no_failed_commit].
  destruct (success r1) eqn:Commit; cbn [negb].
  - run_step; transcript_tail; no_failed_commit.
  - unfold ret. transcript_tail. nothing_published.
Qed.

Lemma withDir_transcript {A : Type} dir (body : M A) st res st' :
  withDir dir body st = (res, st') ->
  (st' = st /\ exists e, res = Throw e) \/
  (exists res2 st2,
      body (entered dir st) = (res2, st2) /\
      transcript st' = transcript st2 /\ root st' = root st2 /\
      ((Fs.isDir (Fs.lookup (cwd st) (root st2)) = true /\ res = res2) \/
       (Fs.isDir (Fs.lookup (cwd st) (root st2)) = false /\
        exists e, res = Throw e))).
Proof.
  rewrite withDir_unfold.
  destruct (Fs.isDir (Fs.lookup (cwd st) (root st)));
    [|intros H; injection H as <- <-; eauto].
  destruct (Fs.isDir (Deno.stat dir st));
    [|intros H; injection H as <- <-; eauto].
  destruct (body (entered dir st)) as [res2 st2].
  destruct (Fs.isDir (Fs.lookup (cwd st) (root st2))) eqn:D;
    intros H; injection H as <- <-; right; exists res2, st2;
    repeat split; eauto.
Qed.

(** C2.  In every run of [openPR] and of [updatePr] whose transcript
    shows the commit step ending in failure, no invocation of the run
    is a push or a pull-request creation, and the function returns
    normally (the working directory being there to go back to). *)
Theorem failed_commit_skips_push_and_pr (P : Platform) :
  (forall a st res st' new,
      openPR P a st = (res, st') ->
      transcript st' = (transcript st ++ new)%list ->
      In (commitCmd (commitMsg a), Exited false) new ->
      (forall cmd e, In (cmd, e) new ->
                     isPush cmd = false /\ isPrCreate cmd = false) /\
      (Fs.isDir (Fs.lookup (cwd st) (root st')) = true -> res = Ok tt)) /\
  (forall user name branchName st res st' new,
      updatePr P user name branchName st = (res, st') ->
      transcript st' = (transcript st ++ new)%list ->
      In (commitCmd UPDATE_COMMIT_MSG, Exited false) new ->
      (forall cmd e, In (cmd, e) new ->
                     isPush cmd = false /\ isPrCreate cmd = false) /\
      (Fs.isDir (Fs.lookup (cwd st) (root st')) = true -> res = Ok tt)).
Proof.
  split.
  - intros a st res st' new Run T C.
    unfold openPR, bind at 1, now in Run.
    apply withDir_transcript in Run
      as [[-> _]|(res2 & st2 & Body & Ht & Hr & Exit)].
    + rewrite <- (app_nil_r (transcript st)) in T at 1.
      apply app_inv_head in T. subst new. destruct C.
    + apply publish_skips_on_failed_commit in Body as (new0 & T0 & Skip).
      cbn [entered transcript] in T0.
      rewrite Ht, T0 in T. apply app_inv_head in T. subst new0.
      destruct (Skip C) as [-> None_published]. split; [exact None_published|].
      rewrite Hr. destruct Exit as [[_ ->]|[D _]]; [reflexivity|].
      rewrite D. discriminate.
  - intros user name branchName st res st' new Run T C.
    unfold updatePr in Run.
    apply withDir_transcript in Run
      as [[-> _]|(res2 & st2 & Body & Ht & Hr & Exit)].
    + rewrite <- (app_nil_r (transcript st)) in T at 1.
      apply app_inv_head in T. subst new. destruct C.
    + apply pushUpdate_skips_on_failed_commit in Body as (new0 & T0 & Skip).
      cbn [entered transcript] in T0.
      rewrite Ht, T0 in T. apply app_inv_head in T. subst new0.
      destruct (Skip C) as [-> None_published]. split; [exact None_published|].
      rewrite Hr. destruct Exit as [[_ ->]|[D _]]; [reflexivity|].
      rewrite D. discriminate.
Qed.

Lemma failed_commit_skips_push_and_pr_witness :
  openPR Ex.nothingToCommit Ex.openArgs (Ex.cloned [])
  = (Ok tt, mkState (root (Ex.cloned [])) ["work"] Ex.skippedTranscript) /\
  (forall cmd e, In (cmd, e) Ex.skippedTranscript ->
                 isPush cmd = false /\ isPrCreate cmd = false).
Proof.
  split; [reflexivity|].
  apply (proj1 (failed_commit_skips_push_and_pr Ex.nothingToCommit)
           Ex.openArgs (Ex.cloned []) (Ok tt)
           (mkState (root (Ex.cloned [])) ["work"] Ex.skippedTranscript)
           Ex.skippedTranscript eq_refl eq_refl).
  simpl. tauto.
Defined.

(** ** The existing-PR query *)

Lemma run_finished P cmd st r fs :
  exec P st cmd = Some (r, fs) -> run P cmd st = (Ok r, ran cmd r fs st).
Proof. intros E. unfold run. now rewrite E. Qed.

(** C9.  When the [gh pr list] command of the query finishes in
    failure, [getExistingPR] returns [null], as it does when the
    command succeeds and lists no pull request; it does not raise, and
    the pipeline of [bot2101.ts] goes on as for a repository without a
    pull request: patch, bump, open a new one. *)
Theorem failed_pr_list_reads_as_no_pr
    (P : Platform) (botUser : string) (repo repo' : RepoRef)
    (st st1 st2 : State) (r : RunResult) (fs : node) :
  correctRepoInfo P repo st = (Ok repo', st1) ->
  fetchRepo P (repo_href repo') st1 = (Ok tt, st2) ->
  exec P st2 (prListCmd (repo_user repo') (repo_name repo') botUser)
  = Some (r, fs) ->
  success r = false ->
  getExistingPR P (repo_user repo') (repo_name repo') botUser st2
  = (Ok None,
     ran (prListCmd (repo_user repo') (repo_name repo') botUser) r fs st2) /\
  pipeline2101 P botUser repo st
  = createNew2101 P botUser repo'
      (ran (prListCmd (repo_user repo') (repo_name repo') botUser) r fs st2) /\
  (forall s r0 fs0,
      exec P s (prListCmd (repo_user repo') (repo_name repo') botUser)
      = Some (r0, fs0) ->
      success r0 = true ->
      JSON_parse P (stdout r0) = Some (JArr []) ->
      fst (getExistingPR P (repo_user repo') (repo_name repo') botUser s)
      = Ok None).
Proof.
  intros Correct Fetch List Failed.
  assert (getExistingPR P (repo_user repo') (repo_name repo') botUser st2
          = (Ok None,
             ran (prListCmd (repo_user repo') (repo_name repo') botUser) r fs st2))
    as Null.
  { unfold getExistingPR, bind.
    rewrite (run_finished _ _ _ _ _ List), Failed. reflexivity. }
  split; [exact Null|]. split.
  - unfold pipeline2101, bind at 1. rewrite Correct.
    unfold bind at 1. rewrite Fetch.
    unfold bind at 1. rewrite Null. reflexivity.
  - intros s r0 fs0 List0 Succeeded Empty.
    unfold getExistingPR, bind.
    rewrite (run_finished _ _ _ _ _ List0), Succeeded. cbn [negb].
    rewrite Empty. reflexivity.
Qed.

Lemma failed_pr_list_reads_as_no_pr_witness :
  getExistingPR Ex.listFails "morhetz" "gruvbox" "bot" Ex.beforeList
  = (Ok None,
     ran (prListCmd "morhetz" "gruvbox" "bot")
       (mkRun false Ex.repoView EmptyString) (root Ex.beforeList)
       Ex.beforeList) /\
  pipeline2101 Ex.listFails "bot" Ex.gruvbox (Ex.cloned Ex.themes)
  = createNew2101 Ex.listFails "bot" Ex.gruvbox
      (ran (prListCmd "morhetz" "gruvbox" "bot")
         (mkRun false Ex.repoView EmptyString) (root Ex.beforeList)
         Ex.beforeList).
Proof.
  destruct (failed_pr_list_reads_as_no_pr Ex.listFails "bot"
              Ex.gruvbox Ex.gruvbox (Ex.cloned Ex.themes)
              (mkState (root (Ex.cloned Ex.themes)) ["work"]
                 [(["gh"; "repo"; "view"; "morhetz/gruvbox"; "--json"; "name,owner"],
                   Exited true)])
              Ex.beforeList
              (mkRun false Ex.repoView EmptyString) (root Ex.beforeList)
              eq_refl eq_refl eq_refl eq_refl)
    as (Null & Create & _).
  split; [exact Null|exact Create].
Defined.

(* ================================================================== *)
(** * Further properties *)

(** ** The rename of a theme text *)

Section ReplaceAllMore.

Variables (a : ascii) (oldt newt : string).
Let old := String a oldt.
Let new := String a newt.

Lemma replaceAll_absent s :
  Str.includes old s = false -> Str.replaceAll old new s = s.
Proof.
  induction s as [|c s IH]; intros H; [reflexivity|].
  cbn [Str.includes] in H. apply orb_false_elim in H as [H1 H2].
  unfold old, new. rewrite (replaceAll_copy a oldt newt c s H1).
  f_equal. now apply IH.
Qed.

Lemma length_append (s t : string) :
  String.length (s ++ t) = String.length s + String.length t.
Proof. induction s as [|c s IH]; simpl; [reflexivity|now rewrite IH]. Qed.

Lemma skip_app (p t : string) : Str.skip (String.length p) (p ++ t) = t.
Proof. induction p as [|c p IH]; simpl; [now destruct t|exact IH]. Qed.

Hypothesis same_length : String.length newt = String.length oldt.

Lemma replaceAll_length_bounded n :
  forall s, String.length s <= n ->
            String.length (Str.replaceAll old new s) = String.length s.
Proof.
  induction n as [|n IH]; intros [|c s] Hn; try reflexivity.
  - simpl in Hn. lia.
  - simpl in Hn.
    destruct (Str.startsWith old (String c s)) eqn:E.
    + unfold old, new. rewrite (replaceAll_match a oldt newt c s E).
      apply startsWith_iff in E as [t E]. injection E as -> ->.
      rewrite skip_app, length_append. fold old new.
      rewrite length_append in Hn. rewrite IH by lia.
      simpl. rewrite length_append. lia.
    + unfold old, new. rewrite (replaceAll_copy a oldt newt c s E).
      simpl. f_equal. apply IH. lia.
Qed.

End ReplaceAllMore.

Lemma renamed_absent s :
  Str.includes OLD_KEY s = false -> renamed s = s.
Proof.
  exact (replaceAll_absent "s"%char
           "crollbar_thumb.background" "crollbar.thumb.background" s).
Qed.

Lemma renamed_twice s : renamed (renamed s) = renamed s.
Proof. apply renamed_absent, renamed_lacks_old_key. Qed.

(** X1.  The rename leaves no occurrence of the old key in a text,
    keeps the length of the text, and gives back a text without the
    old key as it is. *)
Theorem rename_clears_the_old_key (s : string) :
  Str.includes OLD_KEY (renamed s) = false /\
  String.length (renamed s) = String.length s /\
  (Str.includes OLD_KEY s = false -> renamed s = s).
Proof.
  split; [apply renamed_lacks_old_key|]. split; [|apply renamed_absent].
  apply (replaceAll_length_bounded "s"%char
           "crollbar_thumb.background" "crollbar.thumb.background"
           eq_refl (String.length s)).
  apply Nat.le_refl.
Qed.

Lemma rename_clears_the_old_key_witness :
  Str.includes OLD_KEY (renamed (Ex.theme NEW_KEY)) = false /\
  String.length (renamed (Ex.theme NEW_KEY)) = String.length (Ex.theme NEW_KEY) /\
  renamed (Ex.theme NEW_KEY) = Ex.theme NEW_KEY.
Proof.
  destruct (rename_clears_the_old_key (Ex.theme NEW_KEY)) as (A & B & C).
  split; [exact A|]. split; [exact B|]. apply C. reflexivity.
Defined.

(** ** The attribute rename, file by file *)

(** The loop leaves the text at every path it does not go over. *)
Lemma patchThemes_other themes :
  forall b st r st' q,
    patchThemes themes b st = (r, st') ->
    ~ In q (map (Deno.resolve st) themes) ->
    Fs.readFile q (root st') = Fs.readFile q (root st).
Proof.
  induction themes as [|p0 rest IH]; intros b st r st' q H N.
  - now injection H as _ <-.
  - rewrite patchThemes_step in H. simpl in N.
    destruct (Fs.readFile _ _) as [c|] eqn:R; [|now injection H as _ <-].
    destruct (Str.includes OLD_KEY c).
    + destruct (Fs.write _ _ _) as [n'|] eqn:W; [|now injection H as _ <-].
      rewrite (IH _ _ _ _ q H) by (intros I; apply N; now right).
      cbn [root]. apply (readFile_write_other _ _ _ _ _ W).
      intros ->. apply N. now left.
    + apply (IH _ _ _ _ q H). intros I. apply N. now right.
Qed.

(** When the loop ends normally, the text at every path it went over
    is the rename of the text that was there. *)
Lemma patchThemes_texts themes :
  forall b st b' st' q,
    patchThemes themes b st = (Ok b', st') ->
    In q (map (Deno.resolve st) themes) ->
    Fs.readFile q (root st') = option_map renamed (Fs.readFile q (root st)).
Proof.
  induction themes as [|p0 rest IH]; intros b st b' st' q H I; [destruct I|].
  rewrite patchThemes_step in H.
  destruct (Fs.readFile (Deno.resolve st p0) (root st)) as [c|] eqn:R;
    [|discriminate H].
  destruct (in_dec (list_eq_dec string_dec) q (map (Deno.resolve st) rest))
    as [Irest|Nrest].
  - destruct (Str.includes OLD_KEY c) eqn:E.
    + destruct (Fs.write _ _ _) as [n'|] eqn:W; [|discriminate H].
      rewrite (IH _ _ _ _ q H Irest). cbn [root].
      destruct (list_eq_dec string_dec q (Deno.resolve st p0)) as [->|Nq].
      * rewrite (readFile_write_same _ _ _ _ W), R. simpl.
        f_equal. apply renamed_twice.
      * now rewrite (readFile_write_other _ _ _ _ _ W Nq).
    + exact (IH _ _ _ _ q H Irest).
  - assert (q = Deno.resolve st p0) as ->
        by (destruct I as [I|I]; [now symmetry|contradiction]).
    rewrite R. simpl.
    destruct (Str.includes OLD_KEY c) eqn:E.
    + destruct (Fs.write _ _ _) as [n'|] eqn:W; [|discriminate H].
      rewrite (patchThemes_other _ _ _ _ _ _ H Nrest). cbn [root].
      exact (readFile_write_same _ _ _ _ W).
    + rewrite (patchThemes_other _ _ _ _ _ _ H Nrest), R.
      f_equal. symmetry. now apply renamed_absent.
Qed.

(** The flag the loop returns: the flag it started with, or some theme
    file it went over had the old key. *)
Lemma patchThemes_flag themes :
  forall b st b' st',
    patchThemes themes b st = (Ok b', st') ->
    b' = b || existsb (fun p => holdsOldKey (Deno.resolve st p) (root st)) themes.
Proof.
  induction themes as [|p0 rest IH]; intros b st b' st' H.
  - injection H as <- _. now rewrite orb_false_r.
  - rewrite patchThemes_step in H. cbn [existsb]. unfold holdsOldKey at 1.
    destruct (Fs.readFile (Deno.resolve st p0) (root st)) as [c|];
      [|discriminate H].
    destruct (Str.includes OLD_KEY c).
    + destruct (Fs.write _ _ _) as [n'|]; [|discriminate H].
      rewrite (IH _ _ _ _ H). cbn. now rewrite orb_true_r.
    + exact (IH _ _ _ _ H).
Qed.

(** A loop that returns [false] has written nothing. *)
Lemma patchThemes_false themes :
  forall b st st', patchThemes themes b st = (Ok false, st') -> st' = st.
Proof.
  induction themes as [|p0 rest IH]; intros b st st' H.
  - now injection H as _ <-.
  - rewrite patchThemes_step in H.
    destruct (Fs.readFile _ _) as [c|]; [|discriminate H].
    destruct (Str.includes OLD_KEY c); [|exact (IH _ _ _ H)].
    destruct (Fs.write _ _ _) as [n'|]; [|discriminate H].
    apply patchThemes_flag in H. discriminate H.
Qed.

(** The paths of the loop, for a repository entered from [st]. *)
Lemma resolve_themePaths repo st names :
  map (Deno.resolve (entered (Rel [repo]) st)) (themePaths names)
  = map (themeFile st repo) (filter (Str.endsWith ".json") names).
Proof.
  unfold themePaths, themeFile. rewrite map_map. apply map_ext. intros n.
  cbn [Deno.resolve entered cwd]. now rewrite <- app_assoc.
Qed.

(** What a normal return of the patch consists of. *)
Lemma patchScrollbarThumbBg_returns repo st b st' :
  patchScrollbarThumbBg repo st = (Ok b, st') ->
  exists names st2,
    Fs.listing (cwd st ++ [repo; "themes"])%list (root st) = Some names /\
    patchThemes (themePaths names) false (entered (Rel [repo]) st) = (Ok b, st2) /\
    st' = left (cwd st) st2.
Proof.
  unfold patchScrollbarThumbBg. rewrite withDir_unfold. intros H.
  destruct (Fs.isDir (Fs.lookup (cwd st) (root st))); [|discriminate H].
  destruct (Fs.isDir (Deno.stat (Rel [repo]) st)); [|discriminate H].
  unfold bind at 1 in H. rewrite findThemes_listing in H.
  cbn [Deno.resolve entered cwd root] in H. rewrite <- app_assoc in H.
  destruct (Fs.listing _ _) as [names|] eqn:L.
  2:{ destruct (Fs.isDir _) in H; discriminate H. }
  unfold bind at 1 in H.
  destruct (patchThemes (themePaths names) false _) as [[b0|e] st2] eqn:Loop.
  2:{ destruct (Fs.isDir _) in H; discriminate H. }
  exists names, st2. split; [reflexivity|].
  destruct b0; unfold ret in H;
    destruct (Fs.isDir (Fs.lookup (cwd st) (root st2)));
    try discriminate H; injection H as <- <-; auto.
Qed.

(** X2.  When the patch returns, the text of every [*.json] file
    listed in [themes] is the rename of the text it had: every
    occurrence of the old key is replaced, in every theme file and not
    only in the first one. *)
Theorem patchScrollbarThumbBg_renames_every_theme
    (repo : string) (st st' : State) (b : bool) (names : list string)
    (name : string) :
  patchScrollbarThumbBg repo st = (Ok b, st') ->
  Fs.listing (cwd st ++ [repo; "themes"])%list (root st) = Some names ->
  In name names ->
  Str.endsWith ".json" name = true ->
  Fs.readFile (themeFile st repo name) (root st')
  = option_map renamed (Fs.readFile (themeFile st repo name) (root st)).
Proof.
  intros H L I E.
  apply patchScrollbarThumbBg_returns in H as (names' & st2 & L' & Loop & ->).
  rewrite L in L'. injection L' as <-.
  cbn [left root].
  apply (patchThemes_texts _ _ _ _ _ _ Loop).
  rewrite resolve_themePaths. apply in_map. apply filter_In. now split.
Qed.

Lemma patchScrollbarThumbBg_renames_every_theme_witness :
  Fs.readFile ["work"; "gruvbox"; "themes"; "dark.json"]
    (root (Ex.cloned Ex.themesRenamed))
  = option_map renamed
      (Fs.readFile ["work"; "gruvbox"; "themes"; "dark.json"]
         (root (Ex.cloned Ex.themes))).
Proof.
  apply (patchScrollbarThumbBg_renames_every_theme "gruvbox"
           (Ex.cloned Ex.themes) (Ex.cloned Ex.themesRenamed) true
           ["dark.json"; "notes.md"; "light.json"] "dark.json").
  - reflexivity.
  - reflexivity.
  - now left.
  - reflexivity.
Defined.

Lemma left_entered dir st : left (cwd st) (entered dir st) = st.
Proof. unfold left, entered. cbn [root transcript]. apply state_eta. Qed.

(** Every way the patch can end: before the loop, with the state it
    started in, or after the loop, with the working directory put
    back. *)
Lemma patchScrollbarThumbBg_outcome repo st r st' :
  patchScrollbarThumbBg repo st = (r, st') ->
  (st' = st /\ (forall b, r <> Ok b)) \/
  exists names st2,
    Fs.listing (cwd st ++ [repo; "themes"])%list (root st) = Some names /\
    patchThemes (themePaths names) false (entered (Rel [repo]) st) = (r, st2) /\
    st' = left (cwd st) st2.
Proof.
  unfold patchScrollbarThumbBg. rewrite withDir_unfold. intros H.
  destruct (Fs.isDir (Fs.lookup (cwd st) (root st))) eqn:D0;
    [|injection H as <- <-; left; split; [reflexivity|discriminate]].
  destruct (Fs.isDir (Deno.stat (Rel [repo]) st));
    [|injection H as <- <-; left; split; [reflexivity|discriminate]].
  unfold bind at 1 in H. rewrite findThemes_listing in H.
  cbn [Deno.resolve entered cwd root] in H. rewrite <- app_assoc in H.
  destruct (Fs.listing _ _) as [names|] eqn:L.
  - right. exists names. unfold bind at 1 in H.
    destruct (patchThemes (themePaths names) false _) as [r0 st2] eqn:Loop.
    exists st2.
    destruct (patchThemes_frame _ _ _ _ _ Loop) as (_ & _ & Hd & _).
    cbn [entered root] in Hd.
    assert (Fs.isDir (Fs.lookup (cwd st) (root st2)) = true) as D2
        by now rewrite Hd.
    destruct r0 as [[|]|e]; unfold ret in H; rewrite D2 in H;
      injection H as <- <-; auto.
  - left. cbn [entered root] in H. rewrite D0 in H. injection H as <- <-.
    split; [apply left_entered|discriminate].
Qed.

Lemma existsb_map {A B : Type} (f : B -> bool) (g : A -> B) l :
  existsb f (map g l) = existsb (fun x => f (g x)) l.
Proof. induction l as [|x l IH]; simpl; now rewrite ?IH. Qed.

(** X3.  However the patch ends, it has touched nothing but the text
    of [*.json] files of the [themes] directory of the repository: the
    working directory, the record of external commands and every
    directory listing are as before, and so is the text at every other
    path. *)
Theorem patchScrollbarThumbBg_touches_only_theme_files
    (repo : string) (st st' : State) (r : result bool) :
  patchScrollbarThumbBg repo st = (r, st') ->
  cwd st' = cwd st /\
  transcript st' = transcript st /\
  (forall q, Fs.listing q (root st') = Fs.listing q (root st)) /\
  (forall q,
      (forall name, Str.endsWith ".json" name = true ->
                    q <> themeFile st repo name) ->
      Fs.readFile q (root st') = Fs.readFile q (root st)).
Proof.
  intros H.
  apply patchScrollbarThumbBg_outcome in H
    as [[-> _]|(names & st2 & L & Loop & ->)]; [auto|].
  destruct (patchThemes_frame _ _ _ _ _ Loop) as (_ & Ht & _ & Hl).
  cbn [left cwd transcript root entered] in *.
  repeat split; trivial.
  intros q N.
  rewrite (patchThemes_other _ _ _ _ _ q Loop); [reflexivity|].
  rewrite resolve_themePaths. intros I.
  apply in_map_iff in I as (name & <- & I).
  apply filter_In in I as [_ E]. exact (N name E eq_refl).
Qed.

Lemma patchScrollbarThumbBg_touches_only_theme_files_witness :
  cwd (Ex.cloned Ex.themesRenamed) = cwd (Ex.cloned Ex.themes) /\
  transcript (Ex.cloned Ex.themesRenamed) = transcript (Ex.cloned Ex.themes) /\
  (forall q, Fs.listing q (root (Ex.cloned Ex.themesRenamed))
             = Fs.listing q (root (Ex.cloned Ex.themes))) /\
  (forall q,
      (forall name, Str.endsWith ".json" name = true ->
                    q <> themeFile (Ex.cloned Ex.themes) "gruvbox" name) ->
      Fs.readFile q (root (Ex.cloned Ex.themesRenamed))
      = Fs.readFile q (root (Ex.cloned Ex.themes))).
Proof.
  apply (patchScrollbarThumbBg_touches_only_theme_files "gruvbox"
           (Ex.cloned Ex.themes) (Ex.cloned Ex.themesRenamed) (Ok true)).
  reflexivity.
Defined.

(** X4.  The flag the patch returns tells whether it wrote: it is
    [true] exactly when some listed [*.json] theme file had an
    occurrence of the old key, and a patch that returns [false] has
    left the whole state as it was. *)
Theorem patchScrollbarThumbBg_flag_tells_change
    (repo : string) (st st' : State) (b : bool) (names : list string) :
  patchScrollbarThumbBg repo st = (Ok b, st') ->
  Fs.listing (cwd st ++ [repo; "themes"])%list (root st) = Some names ->
  b = existsb (fun name => holdsOldKey (themeFile st repo name) (root st))
        (filter (Str.endsWith ".json") names)
  /\ (b = false -> st' = st).
Proof.
  intros H L.
  apply patchScrollbarThumbBg_returns in H as (names' & st2 & L' & Loop & ->).
  rewrite L in L'. injection L' as <-.
  split.
  - rewrite (patchThemes_flag _ _ _ _ _ Loop). cbn [orb].
    unfold themePaths. rewrite existsb_map.
    induction (filter (Str.endsWith ".json") names) as [|name l IH];
      [reflexivity|].
    cbn [existsb]. rewrite IH. f_equal. unfold themeFile.
    cbn [Deno.resolve entered cwd root]. now rewrite <- app_assoc.
  - intros ->. apply patchThemes_false in Loop. subst st2.
    apply left_entered.
Qed.

Lemma patchScrollbarThumbBg_flag_tells_change_witness :
  true = existsb (fun name => holdsOldKey
                    (themeFile (Ex.cloned Ex.themes) "gruvbox" name)
                    (root (Ex.cloned Ex.themes)))
           (filter (Str.endsWith ".json")
              ["dark.json"; "notes.md"; "light.json"])
  /\ (true = false -> Ex.cloned Ex.themesRenamed = Ex.cloned Ex.themes).
Proof.
  apply (patchScrollbarThumbBg_flag_tells_change "gruvbox"
           (Ex.cloned Ex.themes) (Ex.cloned Ex.themesRenamed) true
           ["dark.json"; "notes.md"; "light.json"]).
  - reflexivity.
  - reflexivity.
Defined.

(** X5.  A cloned repository without a [themes] directory makes the
    patch throw; the working directory is restored and nothing is
    written. *)
Theorem patchScrollbarThumbBg_without_themes
    (repo : string) (st : State) :
  Fs.isDir (Fs.lookup (cwd st ++ [repo]) (root st)) = true ->
  Fs.listing (cwd st ++ [repo; "themes"])%list (root st) = None ->
  patchScrollbarThumbBg repo st = (Throw "NotFound: readDir", st).
Proof.
  intros D L.
  unfold patchScrollbarThumbBg. rewrite withDir_unfold.
  assert (Fs.isDir (Fs.lookup (cwd st) (root st)) = true) as D0.
  { rewrite lookup_app in D.
    destruct (Fs.lookup (cwd st) (root st)) as [[c|es]|]; simpl in *;
      congruence. }
  rewrite D0. unfold Deno.stat. cbn [Deno.resolve]. rewrite D.
  unfold bind at 1. rewrite findThemes_listing.
  cbn [Deno.resolve entered cwd root]. rewrite <- app_assoc.
  change ([repo] ++ ["themes"])%list with [repo; "themes"]. rewrite L.
  cbn [entered root]. rewrite D0. f_equal. apply left_entered.
Qed.

Lemma patchScrollbarThumbBg_without_themes_witness :
  patchScrollbarThumbBg "gruvbox" (Ex.cloned [])
  = (Throw "NotFound: readDir", Ex.cloned []).
Proof.
  apply (patchScrollbarThumbBg_without_themes "gruvbox" (Ex.cloned []));
    reflexivity.
Defined.

(** ** The version bumper: what it leaves alone *)

Lemma assocSet_same {A : Type} x (m : A) es :
  Js.assoc x es = Some m -> Js.assocSet x m es = es.
Proof.
  induction es as [|[y v] es IH]; simpl; [discriminate|].
  destruct (String.eqb_spec x y) as [->|N].
  - now intros [= ->].
  - intros H. now rewrite IH.
Qed.

(** Writing back the text a file has changes nothing. *)
Lemma write_same p :
  forall n c, Fs.readFile p n = Some c -> Fs.write p c n = Some n.
Proof.
  unfold Fs.readFile.
  induction p as [|x p IH]; intros n c R; simpl in R |- *.
  - destruct n; [now injection R as ->|discriminate].
  - destruct n as [|es]; [discriminate|].
    destruct (Js.assoc x es) as [m|] eqn:E; [|discriminate].
    rewrite (IH _ _ R). now rewrite (assocSet_same _ _ _ E).
Qed.

(** Every way the version bumper can end: with the state it started
    in, or with one text written to the manifest it selected. *)
Lemma bumpVersion_outcome P name st r st' :
  bumpVersion P name st = (r, st') ->
  st' = st \/
  exists k text text',
    selectedManifest name st = Some k /\ r = Ok tt /\
    manifestText k name st = Some text /\
    Fs.write (cwd st ++ [name; manifestFile k])%list text' (root st)
    = Some (root st') /\
    cwd st' = cwd st /\ transcript st' = transcript st.
Proof.
  unfold bumpVersion, selectedManifest. intros H.
  destruct (Deno.existsSync (Rel [name; "extension.toml"]) st).
  - unfold bind at 1 in H. rewrite readTextFileSync_readFile in H.
    destruct (Fs.readFile _ _) as [text|] eqn:R;
      [|injection H as _ <-; now left].
    unfold bind at 1 in H.
    destruct (parseToml P text) as [cfg|];
      [|injection H as _ <-; now left].
    cbn [orThrow ret] in H. unfold bind at 1, stringProp in H.
    destruct (Js.get "version" cfg) as [[| | |v| | |]|];
      try (injection H as _ <-; now left).
    cbn [ret] in H. unfold bind at 1 in H.
    destruct (SemVer.parse v) as [sv|]; [|injection H as _ <-; now left].
    cbn [orThrow ret] in H. unfold Deno.writeTextFileSync in H.
    cbn [Deno.resolve] in H.
    destruct (Fs.write _ _ _) as [n'|] eqn:W;
      [|injection H as _ <-; now left].
    injection H as <- <-. right. exists TomlManifest, text. eexists.
    unfold manifestText.
    cbn [manifestFile root cwd transcript Deno.resolve] in R |- *.
    rewrite W, R. repeat split.
  - destruct (Deno.existsSync (Rel [name; "extension.json"]) st);
      [|injection H as _ <-; now left].
    unfold bind at 1 in H. rewrite readTextFileSync_readFile in H.
    destruct (Fs.readFile _ _) as [text|] eqn:R;
      [|injection H as _ <-; now left].
    unfold bind at 1 in H.
    destruct (JSON_parse P text) as [cfg|];
      [|injection H as _ <-; now left].
    cbn [orThrow ret] in H. unfold bind at 1, stringProp in H.
    destruct (Js.get "version" cfg) as [[| | |v| | |]|];
      try (injection H as _ <-; now left).
    cbn [ret] in H. unfold bind at 1 in H.
    destruct (SemVer.parse v) as [sv|]; [|injection H as _ <-; now left].
    cbn [orThrow ret] in H. unfold Deno.writeTextFileSync in H.
    cbn [Deno.resolve] in H.
    destruct (Fs.write _ _ _) as [n'|] eqn:W;
      [|injection H as _ <-; now left].
    injection H as <- <-. right. exists JsonManifest, text. eexists.
    unfold manifestText.
    cbn [manifestFile root cwd transcript Deno.resolve] in R |- *.
    rewrite W, R. repeat split.
Qed.

(** X6.  However the version bumper ends, it has changed at most the
    text of the one manifest it selected: the working directory, the
    record of external commands, every directory listing and the text
    at every other path are as before; and when it throws, or finds no
    manifest, the whole state is as before. *)
Theorem bumpVersion_changes_only_its_manifest
    (P : Platform) (name : string) (st st' : State) (r : result unit) :
  bumpVersion P name st = (r, st') ->
  cwd st' = cwd st /\
  transcript st' = transcript st /\
  (forall q, Fs.listing q (root st') = Fs.listing q (root st)) /\
  (forall q,
      (forall k, selectedManifest name st = Some k ->
                 q <> (cwd st ++ [name; manifestFile k])%list) ->
      Fs.readFile q (root st') = Fs.readFile q (root st)) /\
  (selectedManifest name st = None -> st' = st) /\
  (forall e, r = Throw e -> st' = st).
Proof.
  intros H.
  apply bumpVersion_outcome in H
    as [->|(k & text & text' & K & -> & T & W & Hc & Ht)].
  - repeat split; auto.
  - repeat split; trivial.
    + intros q. exact (listing_write _ _ _ _ q _ T W).
    + intros q N. exact (readFile_write_other _ _ _ _ _ W (N k K)).
    + rewrite K. discriminate.
    + discriminate.
Qed.

Lemma bumpVersion_changes_only_its_manifest_witness :
  Fs.readFile ["work"; "gruvbox"; "extension.json"]
    (root (Ex.cloned [("extension.json", File (Ex.jsonManifest "0.9.10"));
                      ("extension.toml", File (Ex.tomlManifest "0.9.11"))]))
  = Fs.readFile ["work"; "gruvbox"; "extension.json"]
      (root (Ex.cloned [("extension.json", File (Ex.jsonManifest "0.9.10"));
                        ("extension.toml", File (Ex.tomlManifest "0.9.10"))])).
Proof.
  destruct (bumpVersion_changes_only_its_manifest Ex.quiet "gruvbox"
              (Ex.cloned [("extension.json", File (Ex.jsonManifest "0.9.10"));
                          ("extension.toml", File (Ex.tomlManifest "0.9.10"))])
              (Ex.cloned [("extension.json", File (Ex.jsonManifest "0.9.10"));
                          ("extension.toml", File (Ex.tomlManifest "0.9.11"))])
              (Ok tt) eq_refl)
    as (_ & _ & _ & Other & _).
  apply Other. intros k K. injection K as <-. discriminate.
Defined.

(** X7.  A manifest with a valid version whose text has no match of
    the version pattern is written back as it was read: the bumper
    returns normally and the whole state is as before, the version
    included. *)
Theorem bumpVersion_without_match_is_silent
    (P : Platform) (name : string) (st : State) (k : manifestKind)
    (text : string) (cfg : JsValue) (v : string) (sv : SemVer.t) :
  selectedManifest name st = Some k ->
  manifestText k name st = Some text ->
  parseManifest P k text = Some cfg ->
  Js.get "version" cfg = Some (JStr v) ->
  SemVer.parse v = Some sv ->
  Str.searchQuoted (versionKey k) text = None ->
  bumpVersion P name st = (Ok tt, st).
Proof.
  intros K T C V S Q.
  rewrite (bumpVersion_writes P name st k text cfg v sv K T C V S).
  unfold Str.replaceQuoted. rewrite Q.
  unfold Deno.writeTextFileSync, manifestText in *. cbn [Deno.resolve].
  rewrite (write_same _ _ _ T). f_equal. apply state_eta.
Qed.

Lemma bumpVersion_without_match_is_silent_witness :
  bumpVersion Ex.quiet "gruvbox"
    (Ex.cloned [("extension.json", File (Ex.jsonCompact "1.2.3"))])
  = (Ok tt, Ex.cloned [("extension.json", File (Ex.jsonCompact "1.2.3"))]).
Proof.
  apply (bumpVersion_without_match_is_silent Ex.quiet "gruvbox"
           (Ex.cloned [("extension.json", File (Ex.jsonCompact "1.2.3"))])
           JsonManifest (Ex.jsonCompact "1.2.3")
           (JObj [("name", JStr "My Cool Ext"); ("version", JStr "1.2.3")])
           "1.2.3" (SemVer.mk 1 2 3 [] []));
    reflexivity.
Defined.

(** X8.  A manifest that parses but whose version is missing, is not
    a string, or is not a semantic version makes the bumper throw a
    [TypeError] before anything is written. *)
Theorem bumpVersion_rejects_bad_version
    (P : Platform) (name : string) (st : State) (k : manifestKind)
    (text : string) (cfg : JsValue) :
  selectedManifest name st = Some k ->
  manifestText k name st = Some text ->
  parseManifest P k text = Some cfg ->
  match Js.get "version" cfg with
  | Some (JStr v) => SemVer.parse v = None
  | _ => True
  end ->
  bumpVersion P name st = (Throw "TypeError", st).
Proof.
  unfold selectedManifest, manifestText, bumpVersion.
  intros K T C V.
  destruct k; cbn [manifestFile versionKey parseManifest] in *.
  - destruct (Deno.existsSync (Rel [name; "extension.toml"]) st);
      [|destruct (Deno.existsSync _ st); discriminate K].
    unfold bind at 1. rewrite readTextFileSync_readFile.
    cbn [Deno.resolve]. rewrite T.
    unfold bind at 1. rewrite C. cbn [orThrow ret].
    unfold bind at 1, stringProp.
    destruct (Js.get "version" cfg) as [[| | |v| | |]|]; try reflexivity.
    cbn [ret]. unfold bind at 1. now rewrite V.
  - destruct (Deno.existsSync (Rel [name; "extension.toml"]) st);
      [discriminate K|].
    rewrite (existsSync_readFile (Rel [name; "extension.json"]) st text T).
    unfold bind at 1. rewrite readTextFileSync_readFile.
    cbn [Deno.resolve]. rewrite T.
    unfold bind at 1. rewrite C. cbn [orThrow ret].
    unfold bind at 1, stringProp.
    destruct (Js.get "version" cfg) as [[| | |v| | |]|]; try reflexivity.
    cbn [ret]. unfold bind at 1. now rewrite V.
Qed.

Lemma bumpVersion_rejects_bad_version_witness :
  bumpVersion Ex.quiet "gruvbox"
    (Ex.cloned [("extension.toml", File (Ex.tomlManifest "1.2"))])
  = (Throw "TypeError",
     Ex.cloned [("extension.toml", File (Ex.tomlManifest "1.2"))]).
Proof.
  apply (bumpVersion_rejects_bad_version Ex.quiet "gruvbox"
           (Ex.cloned [("extension.toml", File (Ex.tomlManifest "1.2"))])
           TomlManifest (Ex.tomlManifest "1.2")
           (JObj [("id", JStr "gruvbox"); ("name", JStr "Gruvbox");
                  ("version", JStr "1.2"); ("schema_version", JNum 1)]));
    reflexivity.
Defined.

(** White space around a version is no reason to reject it, whatever
    its encoding: the package trims the text as [String.prototype.trim]
    does before it matches it, and the bumper writes the bumped version
    without the white space. *)
Example parse_trims_encoded_white_space :
  SemVer.parse (nbsp ++ " 1.2.3" ++ bom) = Some (SemVer.mk 1 2 3 [] []).
Proof. reflexivity. Qed.

Example bumpVersion_trims_the_version :
  bumpVersion Ex.quiet "gruvbox"
    (Ex.cloned [("extension.toml", File (Ex.tomlManifest (nbsp ++ "1.2.3")))])
  = (Ok tt, Ex.cloned [("extension.toml", File (Ex.tomlManifest "1.2.4"))]).
Proof. reflexivity. Qed.

(** ** The companion configuration and the port: what they leave alone *)

Lemma stripSuffix_app suf base : Str.stripSuffix suf (base ++ suf) = base.
Proof.
  induction base as [|c base IH]; simpl.
  - destruct suf; simpl; now rewrite ?String.eqb_refl, ?Ascii.eqb_refl.
  - destruct (String.eqb_spec suf (String c (base ++ suf))) as [E|_].
    + apply (f_equal String.length) in E. simpl in E.
      rewrite length_append in E. lia.
    + now rewrite IH.
Qed.

Lemma stripSuffix_absent suf s :
  Str.endsWith suf s = false -> Str.stripSuffix suf s = s.
Proof.
  induction s as [|c s IH]; simpl; intros H;
    apply orb_false_iff in H as [-> H]; [reflexivity|].
  now rewrite IH.
Qed.

(** X9.  The name of the companion configuration is the name of its
    file without the ending: when the first regular [*.toml] file of
    [grammars] is found, its name is [base.toml] for some [base], and
    the configuration returned is named [base] and holds the text of
    that file; the state is not changed. *)
Theorem findRepoConfig_names_the_grammar
    (path : fpath) (st : State) (es : list (string * node))
    (name : string) (m : node) :
  Deno.stat (Deno.child path "grammars") st = Some (Dir es) ->
  NoDup (map fst es) ->
  find isTomlFile es = Some (name, m) ->
  exists base content,
    name = base ++ ".toml" /\ m = File content /\
    findRepoConfig path st = (Ok (Some (mkRepoConfig base content)), st).
Proof.
  intros H N F.
  rewrite (findRepoConfig_listing _ _ _ H N), F.
  apply find_some in F as [_ F]. unfold isTomlFile in F. simpl in F.
  apply andb_true_iff in F as [Hm Hn].
  apply endsWith_iff in Hn as [base ->].
  destruct m as [content|]; [|discriminate Hm].
  exists base, content. now rewrite stripSuffix_app.
Qed.

Lemma findRepoConfig_names_the_grammar_witness :
  exists base content,
    "rust.toml" = base ++ ".toml" /\ File Ex.rustGrammar = File content /\
    findRepoConfig (Abs ["work"; "gruvbox"]) (Ex.inside Ex.grammars)
    = (Ok (Some (mkRepoConfig base content)), Ex.inside Ex.grammars).
Proof.
  apply (findRepoConfig_names_the_grammar
           (Abs ["work"; "gruvbox"]) (Ex.inside Ex.grammars)
           [("rust", Dir []); ("rust.toml", File Ex.rustGrammar);
            ("toml.toml", File ("path = " ++ Ex.quoted "grammars/toml"))]
           "rust.toml" (File Ex.rustGrammar)).
  - reflexivity.
  - repeat constructor; simpl; intuition discriminate.
  - reflexivity.
Defined.

(** X10.  The search for a companion configuration never writes, and
    it throws when [grammars] exists but is a regular file. *)
Theorem findRepoConfig_only_reads (path : fpath) (st : State) :
  (forall r st', findRepoConfig path st = (r, st') -> st' = st) /\
  (forall c, Deno.stat (Deno.child path "grammars") st = Some (File c) ->
             exists e, findRepoConfig path st = (Throw e, st)).
Proof.
  split; [apply findRepoConfig_reads|].
  intros c H. unfold findRepoConfig, Deno.existsSync. rewrite H. cbn [negb].
  unfold bind, Deno.readDirSync. rewrite H. eauto.
Qed.

(** Every way the port can end. *)
Lemma portExtToToml_outcome P st r st' :
  portExtToToml P st = (r, st') ->
  (st' = st /\ r <> Ok true /\
   (r = Ok false -> Deno.existsSync (Rel ["extension.toml"]) st = true)) \/
  (exists text',
      r = Ok true /\
      Deno.existsSync (Rel ["extension.toml"]) st = false /\
      Fs.write (cwd st ++ ["extension.toml"])%list text' (root st)
      = Some (root st') /\
      cwd st' = cwd st /\ transcript st' = transcript st).
Proof.
  unfold portExtToToml. intros H.
  destruct (Deno.existsSync (Rel ["extension.toml"]) st) eqn:E.
  { injection H as <- <-. left. repeat split; congruence. }
  assert (forall e, (Throw e, st) = (r, st') ->
            st' = st /\ r <> Ok true /\ (r = Ok false -> false = true)) as Stop.
  { intros e [= <- <-]. repeat split; congruence. }
  unfold bind at 1 in H. rewrite readTextFileSync_readFile in H.
  destruct (Fs.readFile _ _) as [text|]; [|left; exact (Stop _ H)].
  unfold bind at 1 in H.
  destruct (JSON_parse P text) as [cfg|]; [|left; exact (Stop _ H)].
  cbn [orThrow ret] in H.
  destruct cfg as [| | | | |props|]; try (left; exact (Stop _ H)).
  unfold bind at 1, stringProp in H.
  destruct (Js.get "name" (JObj props)) as [[| | |name| | |]|];
    try (left; exact (Stop _ H)).
  cbn [ret] in H. unfold bind at 1 in H.
  destruct (Js.get "version" (JObj props)) as [[| | |v| | |]|];
    try (left; exact (Stop _ H)).
  cbn [ret] in H. unfold bind at 1 in H.
  destruct (SemVer.parse v) as [sv|]; [|left; exact (Stop _ H)].
  cbn [orThrow ret] in H. unfold bind at 1 in H.
  destruct (stringifyToml P _) as [doc|]; [|left; exact (Stop _ H)].
  cbn [orThrow ret] in H. unfold bind at 1, Deno.getCwd in H.
  destruct (Fs.isDir (Fs.lookup (cwd st) (root st)));
    [|left; exact (Stop _ H)].
  unfold bind at 1 in H.
  destruct (findRepoConfig (Abs (cwd st)) st) as [[found|e] st1] eqn:F;
    apply findRepoConfig_reads in F; subst st1; [|left; exact (Stop _ H)].
  unfold bind, Deno.writeTextFileSync, ret in H. cbn [Deno.resolve] in H.
  destruct (Fs.write _ _ _) as [n'|] eqn:W; [|left; exact (Stop _ H)].
  injection H as <- <-. right. eexists. cbn [root cwd transcript].
  rewrite W. repeat split.
Qed.

(** X11.  However the port ends, it has changed at most the text of
    [extension.toml]: the legacy manifest and every other file keep
    their text, and the working directory and the record of external
    commands are as before.  When it throws or returns [false] the
    whole state is as before; it returns [false] only when
    [extension.toml] exists; and after it returned [true] a second
    port returns [false] and changes nothing. *)
Theorem portExtToToml_only_adds_the_manifest
    (P : Platform) (st st' : State) (r : result bool) :
  portExtToToml P st = (r, st') ->
  cwd st' = cwd st /\
  transcript st' = transcript st /\
  (forall q, q <> (cwd st ++ ["extension.toml"])%list ->
             Fs.readFile q (root st') = Fs.readFile q (root st)) /\
  (r <> Ok true -> st' = st) /\
  (r = Ok false -> Deno.existsSync (Rel ["extension.toml"]) st = true) /\
  (r = Ok true ->
   Deno.existsSync (Rel ["extension.toml"]) st = false /\
   portExtToToml P st' = (Ok false, st')).
Proof.
  intros H.
  apply portExtToToml_outcome in H
    as [(-> & N & F)|(text' & -> & E & W & Hc & Ht)].
  - do 5 (split; [trivial|]). intros ->. now destruct N.
  - do 2 (split; [trivial|]).
    split; [intros q N; exact (readFile_write_other _ _ _ _ _ W N)|].
    split; [intros N; now destruct N|].
    split; [discriminate|].
    intros _. split; [exact E|].
    unfold portExtToToml.
    rewrite (existsSync_readFile (Rel ["extension.toml"]) st' text');
      [reflexivity|].
    cbn [Deno.resolve]. rewrite Hc.
    exact (readFile_write_same _ _ _ _ W).
Qed.

Lemma portExtToToml_only_adds_the_manifest_witness :
  Fs.readFile ["work"; "gruvbox"; "extension.json"]
    (root (Ex.inside [("extension.json", File Ex.legacyManifest);
                      ("extension.toml", File Ex.portedDocument)]))
  = Fs.readFile ["work"; "gruvbox"; "extension.json"]
      (root (Ex.inside [("extension.json", File Ex.legacyManifest)])) /\
  portExtToToml Ex.quiet
    (Ex.inside [("extension.json", File Ex.legacyManifest);
                ("extension.toml", File Ex.portedDocument)])
  = (Ok false,
     Ex.inside [("extension.json", File Ex.legacyManifest);
                ("extension.toml", File Ex.portedDocument)]).
Proof.
  destruct (portExtToToml_only_adds_the_manifest Ex.quiet
              (Ex.inside [("extension.json", File Ex.legacyManifest)])
              (Ex.inside [("extension.json", File Ex.legacyManifest);
                          ("extension.toml", File Ex.portedDocument)])
              (Ok true) eq_refl)
    as (_ & _ & Other & _ & _ & Again).
  split; [|exact (proj2 (Again eq_refl))].
  apply Other. discriminate.
Defined.

(** The port up to the serializer, for a legacy manifest it accepts. *)
Ltac port_up_to_serializer E R J Hn Hv S :=
  unfold portExtToToml; rewrite E;
  unfold bind at 1; rewrite readTextFileSync_readFile;
  cbn [Deno.resolve]; rewrite R;
  unfold bind at 1; rewrite J; cbn [orThrow ret];
  unfold bind at 1, stringProp; cbn [Js.get]; rewrite Hn; cbn [ret];
  unfold bind at 1; rewrite Hv; cbn [ret];
  unfold bind at 1; rewrite S; cbn [orThrow ret];
  unfold bind at 1.

(** X12.  The port of a legacy manifest, every way it can end.  Let
    there be no [extension.toml], and let the legacy manifest parse to
    an object with a string [name] and a [version] that is a semantic
    version.  The object handed to the serializer has [id] set to the
    kebab case of the name, [version] set to the bumped version and
    [schema_version] set to 1, and every other property as the legacy
    manifest had it.  When the serializer rejects it, the port throws
    and nothing is written.  When the search for a companion
    configuration throws, as it does when [grammars] is a regular
    file, the port throws that error and nothing is written.
    Otherwise the port returns [true], and [extension.toml] holds the
    serialization, followed by the grammar lines when a companion
    configuration was found; every other file keeps its text. *)
Theorem portExtToToml_ports_any_manifest
    (P : Platform) (st : State) (text : string)
    (props : list (string * JsValue)) (name version : string)
    (sv : SemVer.t) :
  Deno.existsSync (Rel ["extension.toml"]) st = false ->
  Fs.readFile (cwd st ++ ["extension.json"])%list (root st) = Some text ->
  JSON_parse P text = Some (JObj props) ->
  Js.assoc "name" props = Some (JStr name) ->
  Js.assoc "version" props = Some (JStr version) ->
  SemVer.parse version = Some sv ->
  let ported := portedManifest props (kebabCase P name)
                  (SemVer.format (SemVer.incrementPatch sv)) in
  (Js.get "id" ported = Some (JStr (kebabCase P name)) /\
   Js.get "version" ported
   = Some (JStr (SemVer.format (SemVer.incrementPatch sv))) /\
   Js.get "schema_version" ported = Some (JNum 1) /\
   (forall k, k <> "id" -> k <> "version" -> k <> "schema_version" ->
              Js.get k ported = Js.assoc k props)) /\
  (stringifyToml P ported = None ->
   portExtToToml P st = (Throw "TomlError", st)) /\
  (forall doc e st1,
      stringifyToml P ported = Some doc ->
      findRepoConfig (Abs (cwd st)) st = (Throw e, st1) ->
      portExtToToml P st = (Throw e, st)) /\
  (forall c,
      Fs.lookup (cwd st ++ ["grammars"])%list (root st) = Some (File c) ->
      exists e, findRepoConfig (Abs (cwd st)) st = (Throw e, st)) /\
  (forall doc found st1,
      stringifyToml P ported = Some doc ->
      findRepoConfig (Abs (cwd st)) st = (Ok found, st1) ->
      exists st',
        portExtToToml P st = (Ok true, st') /\
        Fs.readFile (cwd st ++ ["extension.toml"])%list (root st')
        = Some match found with
               | Some c => doc ++ grammarSuffix c
               | None => doc
               end /\
        forall q, q <> (cwd st ++ ["extension.toml"])%list ->
                  Fs.readFile q (root st') = Fs.readFile q (root st)).
Proof.
  intros E R J Hn Hv S ported. split; [|split; [|split; [|split]]].
  - unfold ported, portedManifest. cbn [Js.get]. repeat split.
    + rewrite !assoc_assocSet_other by discriminate.
      apply assoc_assocSet_same.
    + rewrite assoc_assocSet_other by discriminate.
      apply assoc_assocSet_same.
    + apply assoc_assocSet_same.
    + intros k N1 N2 N3. now rewrite !assoc_assocSet_other by congruence.
  - intros T. port_up_to_serializer E R J Hn Hv S.
    fold ported. now rewrite T.
  - intros doc e st1 T F. port_up_to_serializer E R J Hn Hv S.
    fold ported. rewrite T. cbn [orThrow ret].
    unfold bind at 1, Deno.getCwd. rewrite (readFile_parent _ _ _ _ R).
    unfold bind at 1. rewrite F.
    now rewrite (findRepoConfig_reads _ _ _ _ F).
  - intros c G. unfold findRepoConfig, Deno.existsSync, Deno.stat.
    cbn [Deno.child Deno.resolve]. rewrite G. cbn [negb].
    unfold bind, Deno.readDirSync, Deno.stat.
    cbn [Deno.resolve]. rewrite G. eauto.
  - intros doc found st1 T F.
    pose proof (findRepoConfig_reads _ _ _ _ F) as ->.
    destruct (portExtToToml_ports P st text props name version sv doc found
                E R J Hn Hv S T F) as (st' & Run & Text & _ & _ & Other).
    exists st'. repeat split; trivial.
Qed.

Lemma portExtToToml_ports_any_manifest_witness :
  (exists st',
      portExtToToml Ex.quiet
        (Ex.inside (("extension.json", File Ex.legacyManifest) :: Ex.grammars))
      = (Ok true, st') /\
      Fs.readFile ["work"; "gruvbox"; "extension.toml"] (root st')
      = Some (Ex.portedDocument ++
              grammarSuffix (mkRepoConfig "rust" Ex.rustGrammar))) /\
  (exists e,
      portExtToToml Ex.quiet
        (Ex.inside [("extension.json", File Ex.legacyManifest);
                    ("grammars", File "notes")])
      = (Throw e,
         Ex.inside [("extension.json", File Ex.legacyManifest);
                    ("grammars", File "notes")])).
Proof.
  split.
  - destruct (portExtToToml_ports_any_manifest Ex.quiet
                (Ex.inside (("extension.json", File Ex.legacyManifest)
                              :: Ex.grammars))
                Ex.legacyManifest
                [("name", JStr "My Cool Ext"); ("version", JStr "1.0.0")]
                "My Cool Ext" "1.0.0" (SemVer.mk 1 0 0 [] [])
                eq_refl eq_refl eq_refl eq_refl eq_refl eq_refl)
      as (_ & _ & _ & _ & Written).
    destruct (Written Ex.portedDocument
                (Some (mkRepoConfig "rust" Ex.rustGrammar)) _
                eq_refl eq_refl) as (st' & Run & Text & _).
    exists st'. now split.
  - destruct (portExtToToml_ports_any_manifest Ex.quiet
                (Ex.inside [("extension.json", File Ex.legacyManifest);
                            ("grammars", File "notes")])
                Ex.legacyManifest
                [("name", JStr "My Cool Ext"); ("version", JStr "1.0.0")]
                "My Cool Ext" "1.0.0" (SemVer.mk 1 0 0 [] [])
                eq_refl eq_refl eq_refl eq_refl eq_refl eq_refl)
      as (_ & _ & Rethrown & Regular & _).
    destruct (Regular "notes" eq_refl) as [e F].
    exists e. exact (Rethrown Ex.portedDocument e _ eq_refl F).
Defined.

(** ** The external commands of the publishers *)

(** A directory scope that returns a value: its body returned it, and
    the previous working directory was restored. *)
Lemma withDir_returns {A : Type} dir (body : M A) st v st' :
  withDir dir body st = (Ok v, st') ->
  exists st2, body (entered dir st) = (Ok v, st2) /\ st' = left (cwd st) st2.
Proof.
  rewrite withDir_unfold.
  destruct (Fs.isDir (Fs.lookup (cwd st) (root st))); [|discriminate].
  destruct (Fs.isDir (Deno.stat dir st)); [|discriminate].
  destruct (body (entered dir st)) as [res2 st2].
  destruct (Fs.isDir (Fs.lookup (cwd st) (root st2))); [|discriminate].
  intros [= -> <-]. now exists st2.
Qed.

(** The premise at hand is a run that threw although it returned. *)
Ltac spawn_failed := let H := fresh "H" in intros H; discriminate H.

(** The invocations a run that returned added to the transcript. *)
Ltac commands_of committed :=
  let H := fresh "H" in
  intros H; injection H as <-; cbn [transcript cwd];
  split; [reflexivity|];
  rewrite <- ?app_assoc; cbn [app];
  eexists; exists committed; split; [reflexivity|];
  split; [reflexivity|];
  split; [simpl; tauto|];
  intros cmd I; simpl in I;
  repeat match goal with
    | H : _ \/ _ |- _ => destruct H
    | H : False |- _ => destruct H
    | H : (_, _) = (_, _) |- _ => discriminate H
    end.

Lemma publish_commands P a branchName st st2 :
  publish P a branchName st = (Ok tt, st2) ->
  cwd st2 = cwd st /\
  exists new committed,
    transcript st2 = (transcript st ++ new)%list /\
    map fst new = openPrCommands a branchName committed /\
    In (commitCmd (commitMsg a), Exited committed) new /\
    allFinished new.
Proof.
  unfold publish, openPrCommands, allFinished.
  do 6 (run_step; [|spawn_failed]).
  destruct (success r4) eqn:Commit; cbn [negb].
  - do 2 (run_step; [|spawn_failed]). unfold ret. commands_of true.
  - unfold ret. commands_of false.
Qed.

Lemma pushUpdate_commands P branchName st st2 :
  pushUpdate P branchName st = (Ok tt, st2) ->
  cwd st2 = cwd st /\
  exists new committed,
    transcript st2 = (transcript st ++ new)%list /\
    map fst new = updatePrCommands branchName committed /\
    In (commitCmd UPDATE_COMMIT_MSG, Exited committed) new /\
    allFinished new.
Proof.
  unfold pushUpdate, updatePrCommands, allFinished.
  do 3 (run_step; [|spawn_failed]).
  destruct (success r1) eqn:Commit; cbn [negb].
  - run_step; [|spawn_failed]. unfold ret. commands_of true.
  - unfold ret. commands_of false.
Qed.

(** X13.  An [openPR] that returns has run, in this order and whatever
    their exit status, the six commands up to the commit ([git diff],
    the fork, the remote, the new branch named after the clock, [git
    add], the commit) and, exactly when the commit succeeded, the push
    and the creation of the pull request after them: a failure of the
    fork, of the checkout or of the push does not stop it.  The working
    directory is the one it was called in. *)
Theorem openPR_runs_fixed_commands
    (P : Platform) (a : OpenPrArgs) (st st' : State) :
  openPR P a st = (Ok tt, st') ->
  cwd st' = cwd st /\
  exists new committed,
    transcript st' = (transcript st ++ new)%list /\
    map fst new = openPrCommands a (freshBranch P st) committed /\
    In (commitCmd (commitMsg a), Exited committed) new /\
    allFinished new.
Proof.
  unfold openPR, bind at 1, now. intros H.
  apply withDir_returns in H as (st2 & Body & ->).
  apply publish_commands in Body as (_ & new & committed & T & rest).
  split; [reflexivity|]. exists new, committed. split; [exact T|exact rest].
Qed.

Lemma openPR_runs_fixed_commands_witness :
  map fst Ex.skippedTranscript
  = openPrCommands Ex.openArgs "update-attr-1741000000000" false.
Proof.
  destruct (openPR_runs_fixed_commands Ex.nothingToCommit Ex.openArgs
              (Ex.cloned [])
              (mkState (root (Ex.cloned [])) ["work"] Ex.skippedTranscript)
              eq_refl)
    as (_ & new & committed & T & Cmds & Commit & _).
  apply (app_inv_head []) in T. subst new.
  destruct committed; [|exact Cmds].
  simpl in Commit. exfalso.
  repeat match goal with
    | H : _ \/ _ |- _ => destruct H
    | H : False |- _ => destruct H
    | H : (_, _) = (_, _) |- _ => discriminate H
    end.
Defined.

(** X14.  An [updatePr] that returns has run [git diff], [git add] and
    the commit with the fixed message, and the push exactly when the
    commit succeeded; a [fetchPrAndSetupBranch] that returns has run
    the three set-up commands whatever their exit status.  Neither
    creates a pull request, and both leave the working directory as it
    was. *)
Theorem update_of_a_pull_request_never_creates_one (P : Platform) :
  (forall user name branchName st st',
      updatePr P user name branchName st = (Ok tt, st') ->
      cwd st' = cwd st /\
      exists new committed,
        transcript st' = (transcript st ++ new)%list /\
        map fst new = updatePrCommands branchName committed /\
        In (commitCmd UPDATE_COMMIT_MSG, Exited committed) new /\
        forallb (fun cmd => negb (isPrCreate cmd)) (map fst new) = true) /\
  (forall name branchName botUser st st',
      fetchPrAndSetupBranch P name branchName botUser st = (Ok tt, st') ->
      cwd st' = cwd st /\
      exists new,
        transcript st' = (transcript st ++ new)%list /\
        map fst new = setupCommands name branchName botUser).
Proof.
  split.
  - intros user name branchName st st' H. unfold updatePr in H.
    apply withDir_returns in H as (st2 & Body & ->).
    apply pushUpdate_commands in Body
      as (_ & new & committed & T & Cmds & Commit & _).
    split; [reflexivity|]. exists new, committed.
    repeat split; trivial. rewrite Cmds. now destruct committed.
  - intros name branchName botUser st st' H. unfold fetchPrAndSetupBranch in H.
    apply withDir_returns in H as (st2 & Body & ->).
    split; [reflexivity|]. revert Body. cbn [left transcript entered].
    do 3 (run_step; [|spawn_failed]).
    unfold ret. intros [= <-]. cbn [transcript].
    rewrite <- ?app_assoc. cbn [app]. eexists. split; reflexivity.
Qed.

Lemma update_of_a_pull_request_never_creates_one_witness :
  exists new,
    transcript (snd (fetchPrAndSetupBranch Ex.quiet "gruvbox" "fix" "bot"
                       (Ex.cloned [])))
    = ([] ++ new)%list /\
    map fst new = setupCommands "gruvbox" "fix" "bot".
Proof.
  exact (proj2 (proj2 (update_of_a_pull_request_never_creates_one Ex.quiet)
                  "gruvbox" "fix" "bot" (Ex.cloned [])
                  (snd (fetchPrAndSetupBranch Ex.quiet "gruvbox" "fix" "bot"
                          (Ex.cloned [])))
                  eq_refl)).
Defined.

(** ** The pipelines *)

(** X15.  When [gh repo view] finishes in failure for a repository of
    the issue, both pipelines throw right there: the repository is not
    cloned, no other command is run, and the only change to the state
    is what that one process did. *)
Theorem failed_repo_view_stops_the_pipeline
    (P : Platform) (botUser : string) (repo : RepoRef) (st : State)
    (r : RunResult) (fs : node) :
  exec P st (viewCmd repo) = Some (r, fs) ->
  success r = false ->
  pipeline2101 P botUser repo st
  = (Throw "Failed to get repo info", ran (viewCmd repo) r fs st) /\
  pipeline2104 P botUser repo st
  = (Throw "Failed to get repo info", ran (viewCmd repo) r fs st).
Proof.
  intros View Failed.
  assert (correctRepoInfo P repo st
          = (Throw "Failed to get repo info", ran (viewCmd repo) r fs st))
    as Correct.
  { unfold correctRepoInfo, getCurrentRepoInfo, bind.
    fold (viewCmd repo).
    rewrite (run_finished _ _ _ _ _ View), Failed. reflexivity. }
  split.
  - unfold pipeline2101, bind at 1. now rewrite Correct.
  - unfold pipeline2104, bind at 1. now rewrite Correct.
Qed.

Lemma failed_repo_view_stops_the_pipeline_witness :
  pipeline2101 (Sample.platform (Sample.failingOn "gh" "repo") EmptyString)
    "bot" Ex.gruvbox (Ex.cloned [])
  = (Throw "Failed to get repo info",
     ran (viewCmd Ex.gruvbox) (mkRun false EmptyString EmptyString)
       (root (Ex.cloned [])) (Ex.cloned [])).
Proof.
  exact (proj1 (failed_repo_view_stops_the_pipeline
                  (Sample.platform (Sample.failingOn "gh" "repo") EmptyString)
                  "bot" Ex.gruvbox (Ex.cloned [])
                  (mkRun false EmptyString EmptyString) (root (Ex.cloned []))
                  eq_refl eq_refl)).
Defined.

(** X16.  When the patch finds nothing to rename, neither branch of
    the pipeline publishes anything.  For a repository without a pull
    request there is no version bump and no external command: the
    state is as it was.  For a repository with a pull request the
    state is the one the set-up of the branch left: nothing is
    committed or pushed. *)
Theorem pipeline2101_without_change_publishes_nothing
    (P : Platform) (botUser : string) (repo : RepoRef) :
  (forall st st1,
      patchScrollbarThumbBg (repo_name repo) st = (Ok false, st1) ->
      createNew2101 P botUser repo st = (Ok tt, st)) /\
  (forall branch st st1 st2,
      fetchPrAndSetupBranch P (repo_name repo) branch botUser st = (Ok tt, st1) ->
      patchScrollbarThumbBg (repo_name repo) st1 = (Ok false, st2) ->
      updateExisting2101 P botUser repo branch st = (Ok tt, st1)).
Proof.
  assert (forall st st1,
             patchScrollbarThumbBg (repo_name repo) st = (Ok false, st1) ->
             st1 = st) as Same.
  { intros st st1 H.
    apply patchScrollbarThumbBg_returns in H as (names & st2 & _ & Loop & ->).
    apply patchThemes_false in Loop. subst st2. apply left_entered. }
  split.
  - intros st st1 H. unfold createNew2101, bind. rewrite H.
    now rewrite (Same _ _ H).
  - intros branch st st1 st2 Setup H.
    unfold updateExisting2101, bind at 1. rewrite Setup.
    unfold bind. rewrite H. now rewrite (Same _ _ H).
Qed.

Lemma pipeline2101_without_change_publishes_nothing_witness :
  createNew2101 Ex.quiet "bot" Ex.gruvbox (Ex.cloned Ex.themesRenamed)
  = (Ok tt, Ex.cloned Ex.themesRenamed).
Proof.
  apply (proj1 (pipeline2101_without_change_publishes_nothing
                  Ex.quiet "bot" Ex.gruvbox)
           (Ex.cloned Ex.themesRenamed) (Ex.cloned Ex.themesRenamed)).
  reflexivity.
Defined.

(** ** The retry wrapper, for any pipeline function *)

(** X17.  [retry] never raises and never runs the function more than
    once per answer plus one: for some [j] between 1 and the number of
    answers plus 1 it returns after exactly [j] invocations, the
    [j - 1] answers before the last invocation were all yes, and of the
    answers after them at most one was read. *)
Theorem retry_returns_after_some_attempts
    (fn : M unit) (answers : list bool) (st : State) :
  exists j unread tail,
    retry fn answers st = (Ok tt, unread, invoked fn j st) /\
    (1 <= j <= S (List.length answers))%nat /\
    answers = (repeat true (j - 1) ++ tail)%list /\
    (unread = tail \/ exists a, tail = a :: unread).
Proof.
  revert st. induction answers as [|a rest IH]; intros st.
  - exists 1%nat, [], []. simpl.
    destruct (fn st) as [[[]|e] st1]; repeat split; auto.
  - simpl. destruct (fn st) as [[[]|e] st1] eqn:F.
    + exists 1%nat, (a :: rest), (a :: rest). simpl. rewrite F.
      repeat split; auto; lia.
    + destruct a; cbn [negb].
      * destruct (IH st1) as (j & unread & tail & Run & Bound & Split & Read).
        exists (S j), unread, tail. rewrite Run. simpl. rewrite F.
        repeat split; try lia; [|exact Read].
        rewrite Nat.sub_0_r. destruct j as [|j]; [lia|].
        simpl in Split |- *. rewrite Nat.sub_0_r in Split. now rewrite <- Split.
      * exists 1%nat, rest, (false :: rest). simpl. rewrite F.
        repeat split; eauto; lia.
Qed.

(** ** The queries to GitHub *)

(** X18.  [getExistingPR] runs one command, the listing of the pull
    requests of the bot, however it ends, and leaves the working
    directory alone; when the listing succeeds and parses to an array
    whose first element has the branch name [branch], it returns
    [branch], whatever the other elements are. *)
Theorem getExistingPR_returns_first_branch
    (P : Platform) (user repo username : string) (st : State) :
  (forall res st',
      getExistingPR P user repo username st = (res, st') ->
      cwd st' = cwd st /\
      exists e, transcript st'
                = (transcript st ++ [(prListCmd user repo username, e)])%list) /\
  (forall r fs pr others branch,
      exec P st (prListCmd user repo username) = Some (r, fs) ->
      success r = true ->
      JSON_parse P (stdout r) = Some (JArr (pr :: others)) ->
      Js.get "headRefName" pr = Some (JStr branch) ->
      getExistingPR P user repo username st
      = (Ok (Some branch), ran (prListCmd user repo username) r fs st)).
Proof.
  split.
  - intros res st'. unfold getExistingPR.
    unfold bind at 1, run.
    destruct (exec P st (prListCmd user repo username)) as [[r fs]|];
      [|intros [= _ <-]; cbn [cwd transcript]; eauto].
    destruct (success r); cbn [negb];
      [|intros [= _ <-]; cbn [cwd transcript]; eauto].
    unfold bind at 1.
    destruct (JSON_parse P (stdout r)) as [prs|];
      [|intros [= _ <-]; cbn [cwd transcript]; eauto].
    cbn [orThrow ret].
    destruct prs as [| | |s|[|pr others]| |];
      try (intros [= _ <-]; cbn [cwd transcript]; eauto).
    + destruct s; intros [= _ <-]; cbn [cwd transcript]; eauto.
    + unfold bind, stringProp, ret.
      destruct (Js.get "headRefName" pr) as [[| | |b| | |]|];
        intros [= _ <-]; cbn [cwd transcript]; eauto.
  - intros r fs pr others branch List Succeeded Parsed Branch.
    unfold getExistingPR, bind at 1.
    rewrite (run_finished _ _ _ _ _ List), Succeeded. cbn [negb].
    unfold bind at 1. rewrite Parsed. cbn [orThrow ret].
    unfold bind, stringProp. now rewrite Branch.
Qed.

(** X19.  When [gh repo view] succeeds and prints an object with an
    owner login and a name, [correctRepoInfo] keeps the link of the
    repository and takes the user and the name from that answer.  The
    repository it asks for has the name of the link without a final
    [.git], and that name as it is when it does not end so. *)
Theorem correctRepoInfo_takes_names_from_the_answer
    (P : Platform) (repo : RepoRef) (st : State) (r : RunResult) (fs : node)
    (data owner : JsValue) (login name : string) :
  exec P st (viewCmd repo) = Some (r, fs) ->
  success r = true ->
  JSON_parse P (stdout r) = Some data ->
  Js.get "owner" data = Some owner ->
  Js.get "login" owner = Some (JStr login) ->
  Js.get "name" data = Some (JStr name) ->
  correctRepoInfo P repo st
  = (Ok (mkRepo (repo_href repo) login name), ran (viewCmd repo) r fs st) /\
  (forall base, repo_name repo = base ++ ".git" ->
                viewCmd repo
                = ["gh"; "repo"; "view"; repo_user repo ++ "/" ++ base;
                   "--json"; "name,owner"]) /\
  (Str.endsWith ".git" (repo_name repo) = false ->
   viewCmd repo
   = ["gh"; "repo"; "view"; repo_user repo ++ "/" ++ repo_name repo;
      "--json"; "name,owner"]).
Proof.
  intros View Succeeded Parsed Owner Login Name. split; [|split].
  - unfold correctRepoInfo, getCurrentRepoInfo, bind at 1 2.
    fold (viewCmd repo).
    rewrite (run_finished _ _ _ _ _ View), Succeeded. cbn [negb].
    unfold bind at 1. rewrite Parsed. cbn [orThrow ret].
    unfold bind at 1. rewrite Owner. cbn [orThrow ret].
    unfold bind at 1, stringProp. rewrite Login. cbn [ret].
    unfold bind at 1. rewrite Name. reflexivity.
  - intros base E. unfold viewCmd. now rewrite E, stripSuffix_app.
  - intros E. unfold viewCmd. now rewrite stripSuffix_absent.
Qed.

Lemma correctRepoInfo_takes_names_from_the_answer_witness :
  correctRepoInfo (Sample.platform Sample.noFailure Ex.repoView)
    (mkRepo "https://github.com/old/gruvbox.git" "old" "gruvbox.git")
    (Ex.cloned [])
  = (Ok (mkRepo "https://github.com/old/gruvbox.git" "morhetz" "gruvbox"),
     ran ["gh"; "repo"; "view"; "old/gruvbox"; "--json"; "name,owner"]
       (mkRun true Ex.repoView EmptyString) (root (Ex.cloned []))
       (Ex.cloned [])).
Proof.
  exact (proj1 (correctRepoInfo_takes_names_from_the_answer
                  (Sample.platform Sample.noFailure Ex.repoView)
                  (mkRepo "https://github.com/old/gruvbox.git" "old" "gruvbox.git")
                  (Ex.cloned [])
                  (mkRun true Ex.repoView EmptyString) (root (Ex.cloned []))
                  (JObj [("name", JStr "gruvbox");
                         ("owner", JObj [("login", JStr "morhetz")])])
                  (JObj [("login", JStr "morhetz")])
                  "morhetz" "gruvbox"
                  eq_refl eq_refl eq_refl eq_refl eq_refl eq_refl)).
Defined.

(** ** Removing and creating entries of a directory *)

Lemma assoc_absent {A : Type} x (es : list (string * A)) :
  ~ In x (map fst es) -> Js.assoc x es = None.
Proof.
  induction es as [|[y v] es IH]; simpl; [reflexivity|]. intros N.
  destruct (String.eqb_spec x y) as [->|_]; [exfalso; apply N; now left|].
  apply IH. intros I. apply N. now right.
Qed.

Lemma assoc_dropEntry_same x es :
  NoDup (map fst es) -> Js.assoc x (Fs.dropEntry x es) = None.
Proof.
  induction es as [|[y m] es IH]; simpl; intros N; [reflexivity|].
  inversion N as [|? ? Ny N']; subst.
  destruct (String.eqb_spec x y) as [->|Nx].
  - now apply assoc_absent.
  - simpl. destruct (String.eqb_spec x y); [contradiction|]. now apply IH.
Qed.

Lemma assoc_dropEntry_other x y es :
  y <> x -> Js.assoc y (Fs.dropEntry x es) = Js.assoc y es.
Proof.
  intros N. induction es as [|[z m] es IH]; simpl; [reflexivity|].
  destruct (String.eqb_spec x z) as [->|Nz].
  - destruct (String.eqb_spec y z); [contradiction|reflexivity].
  - simpl. now rewrite IH.
Qed.

Lemma below_dec p q : below p q \/ ~ below p q.
Proof.
  destruct (list_eq_dec string_dec (firstn (List.length p) q) p) as [E|N].
  - left. exists (skipn (List.length p) q).
    rewrite <- E at 1. symmetry. apply firstn_skipn.
  - right. intros [t ->]. apply N.
    rewrite firstn_app, Nat.sub_diag, firstn_all. simpl. apply app_nil_r.
Qed.

(** Two entries of one directory: neither is below the other. *)
Lemma sibling_not_below (c : list string) x y :
  y <> x -> ~ below (c ++ [x])%list (c ++ [y])%list.
Proof.
  intros N [t E]. rewrite <- app_assoc in E. apply app_inv_head in E.
  injection E as E _. contradiction.
Qed.

(** The three operations below a directory that is not the last
    segment of the path go through the entry of that directory. *)
Lemma remove_below y p es m :
  p <> [] -> Js.assoc y es = Some m ->
  Fs.remove (y :: p) (Dir es)
  = match Fs.remove p m with
    | Some m' => Some (Dir (Js.assocSet y m' es))
    | None => None
    end.
Proof. intros N E. destruct p; [contradiction|]. simpl. now rewrite E. Qed.

Lemma removeLeaf_below y p es m :
  p <> [] -> Js.assoc y es = Some m ->
  Fs.removeLeaf (y :: p) (Dir es)
  = match Fs.removeLeaf p m with
    | Some m' => Some (Dir (Js.assocSet y m' es))
    | None => None
    end.
Proof. intros N E. destruct p; [contradiction|]. simpl. now rewrite E. Qed.

Lemma mkdir_below y p es m :
  p <> [] -> Js.assoc y es = Some m ->
  Fs.mkdir (y :: p) (Dir es)
  = match Fs.mkdir p m with
    | Some m' => Some (Dir (Js.assocSet y m' es))
    | None => None
    end.
Proof. intros N E. destruct p; [contradiction|]. simpl. now rewrite E. Qed.

Lemma snoc_not_nil {A : Type} (c : list A) x : (c ++ [x])%list <> [].
Proof. destruct c; discriminate. Qed.

(** Removing the entry [x] of the directory at [c]: it throws when
    there is no such entry; otherwise the first entry of that name
    goes, and with it only paths at or below it. *)
Lemma remove_at x :
  forall c n es,
    Fs.lookup c n = Some (Dir es) ->
    match Js.assoc x es with
    | Some _ =>
        exists n',
          Fs.remove (c ++ [x])%list n = Some n' /\
          Fs.lookup c n' = Some (Dir (Fs.dropEntry x es)) /\
          forall q, ~ below (c ++ [x])%list q ->
                    Fs.readFile q n' = Fs.readFile q n
    | None => Fs.remove (c ++ [x])%list n = None
    end.
Proof.
  induction c as [|y c IH]; intros n es L.
  - simpl in L. injection L as ->. simpl.
    destruct (Js.assoc x es) as [m|] eqn:E; [|reflexivity].
    eexists. split; [reflexivity|]. split; [reflexivity|].
    intros q N. unfold Fs.readFile.
    destruct q as [|z q]; [reflexivity|]. simpl.
    rewrite assoc_dropEntry_other; [reflexivity|].
    intros ->. apply N. now exists q.
  - simpl in L. destruct n as [|es0]; [discriminate|].
    destruct (Js.assoc y es0) as [m|] eqn:Ey; [|discriminate].
    specialize (IH m es L).
    change ((y :: c) ++ [x])%list with (y :: (c ++ [x]))%list.
    rewrite (remove_below y (c ++ [x]) es0 m (snoc_not_nil c x) Ey).
    destruct (Js.assoc x es) as [mx|].
    + destruct IH as (m' & -> & Lm & Fr).
      eexists. split; [reflexivity|]. split.
      * simpl. now rewrite assoc_assocSet_same.
      * intros q N. unfold Fs.readFile.
        destruct q as [|z q]; [reflexivity|]. simpl.
        destruct (String.eqb_spec z y) as [->|Nz].
        -- rewrite assoc_assocSet_same, Ey. apply (Fr q).
           intros [t ->]. apply N. now exists t.
        -- now rewrite assoc_assocSet_other.
    + now rewrite IH.
Qed.

(** Creating the directory [x] in the directory at [c] that has no
    entry of that name: the text of no file changes. *)
Lemma mkdir_at x :
  forall c n es,
    Fs.lookup c n = Some (Dir es) -> Js.assoc x es = None ->
    exists n',
      Fs.mkdir (c ++ [x])%list n = Some n' /\
      Fs.lookup (c ++ [x])%list n' = Some (Dir []) /\
      forall q, Fs.readFile q n' = Fs.readFile q n.
Proof.
  induction c as [|y c IH]; intros n es L E.
  - simpl in L. injection L as ->. simpl. rewrite E.
    eexists. split; [reflexivity|]. split.
    + simpl. now rewrite (assoc_app_absent _ _ _ _ E), String.eqb_refl.
    + intros q. unfold Fs.readFile.
      destruct q as [|z q]; [reflexivity|]. simpl.
      destruct (Js.assoc z es) as [mz|] eqn:Ez.
      * now rewrite (assoc_app_present _ _ _ _ Ez).
      * rewrite (assoc_app_absent _ _ _ _ Ez).
        destruct (String.eqb z x); [|reflexivity]. destruct q; reflexivity.
  - simpl in L. destruct n as [|es0]; [discriminate|].
    destruct (Js.assoc y es0) as [m|] eqn:Ey; [|discriminate].
    destruct (IH m es L E) as (m' & Mk & Lm & Fr).
    change ((y :: c) ++ [x])%list with (y :: (c ++ [x]))%list.
    rewrite (mkdir_below y (c ++ [x]) es0 m (snoc_not_nil c x) Ey), Mk.
    eexists. split; [reflexivity|]. split.
    + simpl. now rewrite assoc_assocSet_same.
    + intros q. unfold Fs.readFile.
      destruct q as [|z q]; [reflexivity|]. simpl.
      destruct (String.eqb_spec z y) as [->|Nz].
      * rewrite assoc_assocSet_same, Ey. apply (Fr q).
      * now rewrite assoc_assocSet_other.
Qed.

(** On a regular file or an empty directory the removal without
    options does what the recursive one does. *)
Lemma removeLeaf_at x :
  forall c n es m,
    Fs.lookup c n = Some (Dir es) -> Js.assoc x es = Some m ->
    Fs.isLeaf m = true ->
    Fs.removeLeaf (c ++ [x])%list n = Fs.remove (c ++ [x])%list n.
Proof.
  induction c as [|y c IH]; intros n es m L E Leaf.
  - simpl in L. injection L as ->. simpl. now rewrite E, Leaf.
  - simpl in L. destruct n as [|es0]; [discriminate|].
    destruct (Js.assoc y es0) as [m0|] eqn:Ey; [|discriminate].
    change ((y :: c) ++ [x])%list with (y :: (c ++ [x]))%list.
    rewrite (removeLeaf_below y (c ++ [x]) es0 m0 (snoc_not_nil c x) Ey).
    rewrite (remove_below y (c ++ [x]) es0 m0 (snoc_not_nil c x) Ey).
    now rewrite (IH m0 es m L E Leaf).
Qed.

Lemma lookup_entry c x n es :
  Fs.lookup c n = Some (Dir es) ->
  Fs.lookup (c ++ [x])%list n = Js.assoc x es.
Proof.
  intros L. rewrite lookup_app, L. simpl. now destruct (Js.assoc x es).
Qed.

(** ** The work directory *)

(** X20.  In a working directory that has no two entries of one name,
    [createWorkDir] returns the path of [work] below it, and [work] is
    then an empty directory, whatever was there under that name
    before; the text of every file that is not at or below [work] is
    as before, and so are the working directory and the record of
    external commands. *)
Theorem createWorkDir_gives_an_empty_directory
    (st : State) (es : list (string * node)) :
  Fs.lookup (cwd st) (root st) = Some (Dir es) ->
  NoDup (map fst es) ->
  exists st',
    createWorkDir st = (Ok (Abs (cwd st ++ ["work"])%list), st') /\
    Fs.lookup (cwd st ++ ["work"])%list (root st') = Some (Dir []) /\
    cwd st' = cwd st /\ transcript st' = transcript st /\
    forall q, ~ below (cwd st ++ ["work"])%list q ->
              Fs.readFile q (root st') = Fs.readFile q (root st).
Proof.
  intros L ND.
  unfold createWorkDir, bind at 1, Deno.getCwd. rewrite L. cbn [Fs.isDir].
  cbn [Deno.child]. unfold bind at 1, ignoringErrors, Deno.removeSync.
  cbn [Deno.resolve].
  pose proof (remove_at "work" _ _ _ L) as R.
  destruct (Js.assoc "work" es) as [old|] eqn:E.
  - destruct R as (n1 & -> & L1 & Fr1).
    destruct (mkdir_at "work" _ _ _ L1 (assoc_dropEntry_same _ _ ND))
      as (n2 & Mk & L2 & Fr2).
    unfold bind, Deno.mkdirSync, ret. cbn [Deno.resolve root cwd transcript].
    rewrite Mk. eexists. split; [reflexivity|]. cbn [root cwd transcript].
    repeat split; trivial. intros q N. now rewrite Fr2, Fr1.
  - rewrite R.
    destruct (mkdir_at "work" _ _ _ L E) as (n2 & Mk & L2 & Fr2).
    unfold bind, Deno.mkdirSync, ret. cbn [Deno.resolve root cwd transcript].
    rewrite Mk. eexists. split; [reflexivity|]. cbn [root cwd transcript].
    repeat split; trivial; intros q _; apply Fr2.
Qed.

Lemma createWorkDir_gives_an_empty_directory_witness :
  exists st',
    createWorkDir (mkState (Dir [("work", Dir [("old", File "x")]);
                                 ("bot2101.ts", File "main")]) [] [])
    = (Ok (Abs ["work"]), st') /\
    Fs.lookup ["work"] (root st') = Some (Dir []) /\
    Fs.readFile ["bot2101.ts"] (root st') = Some "main".
Proof.
  destruct (createWorkDir_gives_an_empty_directory
              (mkState (Dir [("work", Dir [("old", File "x")]);
                             ("bot2101.ts", File "main")]) [] [])
              [("work", Dir [("old", File "x")]); ("bot2101.ts", File "main")]
              eq_refl)
    as (st' & Run & Empty & _ & _ & Other).
  - repeat constructor; simpl; intuition discriminate.
  - exists st'. split; [exact Run|]. split; [exact Empty|].
    rewrite Other; [reflexivity|]. intros [t E]. discriminate E.
Defined.

(** ** The clean-up of an open pull request *)

(** X21.  In a repository that has no two entries of one name and
    whose [extension.json] is a regular file, the removal step returns
    [true]; afterwards there is no [extension.json], the text of every
    other file is as before, and a second removal step returns [false]
    and changes nothing. *)
Theorem removal_of_the_legacy_manifest
    (st : State) (es : list (string * node)) (content : string) :
  Fs.lookup (cwd st) (root st) = Some (Dir es) ->
  NoDup (map fst es) ->
  Js.assoc "extension.json" es = Some (File content) ->
  exists st',
    _updateExistingPRRemoveJsonConfig st = (Ok true, st') /\
    Deno.existsSync (Rel ["extension.json"]) st' = false /\
    _updateExistingPRRemoveJsonConfig st' = (Ok false, st') /\
    cwd st' = cwd st /\ transcript st' = transcript st /\
    forall q, q <> (cwd st ++ ["extension.json"])%list ->
              Fs.readFile q (root st') = Fs.readFile q (root st).
Proof.
  intros L ND E.
  pose proof (remove_at "extension.json" _ _ _ L) as R. rewrite E in R.
  destruct R as (n1 & Rm & L1 & Fr1).
  assert (Fs.lookup (cwd st ++ ["extension.json"])%list n1 = None) as Gone.
  { rewrite (lookup_entry _ _ _ _ L1). now apply assoc_dropEntry_same. }
  assert (Deno.existsSync (Rel ["extension.json"])
            (mkState n1 (cwd st) (transcript st)) = false) as Absent.
  { apply existsSync_lookup. exact Gone. }
  exists (mkState n1 (cwd st) (transcript st)).
  split; [|split; [exact Absent|split]].
  - unfold _updateExistingPRRemoveJsonConfig, Deno.existsSync, Deno.stat.
    cbn [Deno.resolve]. rewrite (lookup_entry _ _ _ _ L), E. cbn [negb].
    unfold bind, Deno.removeLeafSync, ret. cbn [Deno.resolve].
    rewrite (removeLeaf_at _ _ _ _ _ L E eq_refl), Rm. reflexivity.
  - unfold _updateExistingPRRemoveJsonConfig. now rewrite Absent.
  - cbn [root cwd transcript]. repeat split. intros q N.
    destruct (below_dec (cwd st ++ ["extension.json"])%list q) as [[t ->]|NB];
      [|exact (Fr1 q NB)].
    unfold Fs.readFile. rewrite !lookup_app.
    rewrite <- lookup_app, Gone.
    rewrite <- (lookup_app (cwd st) ["extension.json"]).
    rewrite (lookup_entry _ _ _ _ L), E.
    destruct t as [|z t]; [now rewrite app_nil_r in N|reflexivity].
Qed.

Lemma removal_of_the_legacy_manifest_witness :
  exists st',
    _updateExistingPRRemoveJsonConfig
      (Ex.inside [("extension.json", File Ex.legacyManifest);
                  ("extension.toml", File Ex.portedDocument)])
    = (Ok true, st') /\
    Deno.existsSync (Rel ["extension.json"]) st' = false /\
    Fs.readFile ["work"; "gruvbox"; "extension.toml"] (root st')
    = Some Ex.portedDocument.
Proof.
  destruct (removal_of_the_legacy_manifest
              (Ex.inside [("extension.json", File Ex.legacyManifest);
                          ("extension.toml", File Ex.portedDocument)])
              [("extension.json", File Ex.legacyManifest);
               ("extension.toml", File Ex.portedDocument)]
              Ex.legacyManifest eq_refl)
    as (st' & Run & Gone & _ & _ & _ & Other).
  - repeat constructor; simpl; intuition discriminate.
  - reflexivity.
  - exists st'. split; [exact Run|]. split; [exact Gone|].
    rewrite Other; [reflexivity|discriminate].
Defined.

Lemma assoc_dropKey_same {A : Type} k (l : list (string * A)) :
  Js.assoc k (Js.dropKey k l) = None.
Proof.
  induction l as [|[y v] l IH]; simpl; [reflexivity|].
  destruct (String.eqb_spec k y) as [->|N]; [exact IH|].
  simpl. destruct (String.eqb_spec k y); [contradiction|exact IH].
Qed.

Lemma assoc_dropKey_other {A : Type} k k' (l : list (string * A)) :
  k' <> k -> Js.assoc k' (Js.dropKey k l) = Js.assoc k' l.
Proof.
  intros N. induction l as [|[y v] l IH]; simpl; [reflexivity|].
  destruct (String.eqb_spec k y) as [->|Ny].
  - destruct (String.eqb_spec k' y); [contradiction|exact IH].
  - simpl. now rewrite IH.
Qed.

(** X22.  The clean-up of a manifest that parses, in a repository
    that has no two entries of one name: [extension.toml] is rewritten
    with the serialization of the parsed table without the keys
    [grammar], [grammarsDELETE] and [languages], every other key being
    kept; the value returned tells whether the new text differs from
    the old one; no [grammars] directory is left; and the text of
    every file that is neither the manifest nor below [grammars] is as
    before. *)
Theorem updateCleanup_rewrites_the_manifest
    (P : Platform) (st : State) (es : list (string * node))
    (old new : string) (props : list (string * JsValue)) :
  Fs.lookup (cwd st) (root st) = Some (Dir es) ->
  NoDup (map fst es) ->
  Fs.readFile (cwd st ++ ["extension.toml"])%list (root st) = Some old ->
  parseToml P (Str.replaceFirst "[grammars]" "[grammarsDELETE]" old)
  = Some (JObj props) ->
  stringifyToml P
    (JObj (Js.dropKey "languages"
             (Js.dropKey "grammarsDELETE" (Js.dropKey "grammar" props))))
  = Some new ->
  (exists st',
      updateCleanup P st = (Ok (negb (String.eqb new old)), st') /\
      Fs.readFile (cwd st ++ ["extension.toml"])%list (root st') = Some new /\
      Fs.isDir (Fs.lookup (cwd st ++ ["grammars"])%list (root st')) = false /\
      cwd st' = cwd st /\ transcript st' = transcript st /\
      forall q, q <> (cwd st ++ ["extension.toml"])%list ->
                ~ below (cwd st ++ ["grammars"])%list q ->
                Fs.readFile q (root st') = Fs.readFile q (root st)) /\
  (forall k,
      Js.assoc k (Js.dropKey "languages"
                    (Js.dropKey "grammarsDELETE" (Js.dropKey "grammar" props)))
      = if String.eqb k "grammar" || String.eqb k "grammarsDELETE"
           || String.eqb k "languages"
        then None else Js.assoc k props).
Proof.
  intros L ND R Parsed Written. split.
  - unfold updateCleanup.
    rewrite (existsSync_readFile (Rel ["extension.toml"]) st old R).
    cbn [negb]. unfold bind at 1. rewrite readTextFileSync_readFile.
    cbn [Deno.resolve]. rewrite R.
    unfold bind at 1. rewrite Parsed. cbn [orThrow ret].
    unfold bind at 1. cbn [cleanedManifest Js.deleteProp orThrow ret].
    unfold bind at 1, ignoringErrors, Deno.removeSync. cbn [Deno.resolve].
    assert (exists n1,
               (let (r0, st1) :=
                  match Fs.remove (cwd st ++ ["grammars"])%list (root st) with
                  | Some r => (Ok tt, mkState r (cwd st) (transcript st))
                  | None => (@Throw unit "NotFound: remove", st)
                  end in
                match r0 with
                | Ok _ => (@Ok unit tt, st1)
                | Throw _ => (Ok tt, st1)
                end) = (Ok tt, mkState n1 (cwd st) (transcript st)) /\
               Fs.isDir (Fs.lookup (cwd st ++ ["grammars"])%list n1) = false /\
               forall q, ~ below (cwd st ++ ["grammars"])%list q ->
                         Fs.readFile q n1 = Fs.readFile q (root st))
      as (n1 & -> & Gone & Fr1).
    { pose proof (remove_at "grammars" _ _ _ L) as Rm.
      destruct (Js.assoc "grammars" es) as [g|] eqn:G.
      - destruct Rm as (n1 & -> & L1 & Fr1). exists n1.
        split; [reflexivity|]. split; [|exact Fr1].
        rewrite (lookup_entry _ _ _ _ L1).
        now rewrite assoc_dropEntry_same.
      - rewrite Rm. exists (root st). split; [now rewrite state_eta|].
        split; [|reflexivity].
        now rewrite (lookup_entry _ _ _ _ L), G. }
    unfold bind at 1. rewrite Written. cbn [orThrow ret].
    unfold bind, Deno.writeTextFileSync, ret. cbn [Deno.resolve root cwd].
    assert (Fs.readFile (cwd st ++ ["extension.toml"])%list n1 = Some old)
      as R1.
    { rewrite Fr1; [exact R|]. apply sibling_not_below. discriminate. }
    destruct (write_existing _ new _ _ R1) as [n2 W]. rewrite W.
    eexists. split; [reflexivity|]. cbn [root cwd transcript].
    split; [exact (readFile_write_same _ _ _ _ W)|].
    split; [now rewrite (isDir_write _ _ _ _ _ W)|].
    repeat split. intros q N NB.
    now rewrite (readFile_write_other _ _ _ _ _ W N), Fr1.
  - intros k.
    destruct (String.eqb_spec k "languages") as [->|N3];
      [now rewrite assoc_dropKey_same, !orb_true_r|].
    rewrite assoc_dropKey_other by exact N3.
    destruct (String.eqb_spec k "grammarsDELETE") as [->|N2];
      [now rewrite assoc_dropKey_same, orb_true_r|].
    rewrite assoc_dropKey_other by exact N2.
    destruct (String.eqb_spec k "grammar") as [->|N1];
      [now rewrite assoc_dropKey_same|].
    now rewrite assoc_dropKey_other.
Qed.

Lemma updateCleanup_rewrites_the_manifest_witness :
  exists st',
    updateCleanup Ex.quiet
      (Ex.inside (("extension.toml", File manifestWithGrammar) :: Ex.grammars))
    = (Ok true, st') /\
    Fs.readFile ["work"; "gruvbox"; "extension.toml"] (root st')
    = Some Ex.portedDocument /\
    Fs.isDir (Fs.lookup ["work"; "gruvbox"; "grammars"] (root st')) = false.
Proof.
  destruct (proj1 (updateCleanup_rewrites_the_manifest Ex.quiet
                     (Ex.inside (("extension.toml", File manifestWithGrammar)
                                   :: Ex.grammars))
                     (("extension.toml", File manifestWithGrammar) :: Ex.grammars)
                     manifestWithGrammar Ex.portedDocument
                     [("name", JStr "My Cool Ext"); ("version", JStr "1.0.1");
                      ("id", JStr "my-cool-ext"); ("schema_version", JNum 1);
                      ("grammar", JStr "rust")]
                     eq_refl
                     ltac:(repeat constructor; simpl; intuition discriminate)
                     eq_refl eq_refl eq_refl))
    as (st' & Run & Text & Gone & _).
  exists st'. split; [exact Run|]. split; [exact Text|exact Gone].
Defined.

(** A path that leads somewhere goes through directories only. *)
Lemma lookup_through p x t n m :
  Fs.lookup (p ++ x :: t)%list n = Some m -> Fs.isDir (Fs.lookup p n) = true.
Proof.
  rewrite lookup_app.
  destruct (Fs.lookup p n) as [[c|es]|]; simpl; try discriminate. reflexivity.
Qed.

(** X23.  For a cloned repository that already has an
    [extension.toml] and for which the query found no pull request of
    the bot (no branch name, or an empty one), the loop body of the
    second bot does nothing: no file is written, no command is run and
    no pull request is opened. *)
Theorem dispatch2104_skips_a_ported_repository
    (P : Platform) (botUser : string) (repo : RepoRef)
    (existing : option string) (st : State) :
  Deno.existsSync (Rel [repo_name repo; "extension.toml"]) st = true ->
  existing = None \/ existing = Some EmptyString ->
  dispatch2104 P botUser repo existing st = (Ok tt, st).
Proof.
  intros E Falsy.
  assert (dispatch2104 P botUser repo existing = createNew2104 P botUser repo)
    as -> by (destruct Falsy as [->| ->]; reflexivity).
  unfold Deno.existsSync, Deno.stat in E. cbn [Deno.resolve] in E.
  destruct (Fs.lookup (cwd st ++ [repo_name repo; "extension.toml"])%list (root st))
    as [m|] eqn:L; [clear E|discriminate E].
  assert (Fs.isDir (Fs.lookup (cwd st) (root st)) = true) as D0
      by exact (lookup_through _ _ _ _ _ L).
  assert (Fs.isDir (Fs.lookup (cwd st ++ [repo_name repo])%list (root st)) = true)
    as D1.
  { apply (lookup_through _ "extension.toml" [] _ m).
    rewrite <- app_assoc. exact L. }
  unfold createNew2104, bind. rewrite withDir_unfold, D0.
  unfold Deno.stat. cbn [Deno.resolve]. rewrite D1.
  unfold portExtToToml, Deno.existsSync, Deno.stat.
  cbn [Deno.resolve entered cwd root]. rewrite <- app_assoc. cbn [app].
  rewrite L. cbn [entered root]. rewrite D0.
  unfold ret. f_equal. apply left_entered.
Qed.

Lemma dispatch2104_skips_a_ported_repository_witness :
  dispatch2104 Ex.bare "bot" Ex.gruvbox (Some EmptyString)
    (Ex.cloned [("extension.toml", File Ex.portedDocument)])
  = (Ok tt, Ex.cloned [("extension.toml", File Ex.portedDocument)]).
Proof.
  apply (dispatch2104_skips_a_ported_repository Ex.bare "bot" Ex.gruvbox
           (Some EmptyString)
           (Ex.cloned [("extension.toml", File Ex.portedDocument)])).
  - reflexivity.
  - now right.
Defined.

(** ** The repositories of the tracking issue *)

Lemma split_nonempty sep s : Str.split sep s <> [].
Proof.
  destruct s as [|c s]; simpl; [discriminate|].
  destruct (Ascii.eqb c sep); [discriminate|].
  destruct (Str.split sep s); discriminate.
Qed.

(** Splitting at a separator splits both sides of it. *)
Lemma split_app sep a b :
  Str.split sep (a ++ String sep b)
  = (Str.split sep a ++ Str.split sep b)%list.
Proof.
  induction a as [|c a IH]; simpl.
  - now rewrite Ascii.eqb_refl.
  - destruct (Ascii.eqb c sep); [now rewrite IH|].
    rewrite IH. pose proof (split_nonempty sep a) as N.
    destruct (Str.split sep a); [contradiction|reflexivity].
Qed.

Lemma split_lacks sep s : Str.lacks sep s = true -> Str.split sep s = [s].
Proof.
  induction s as [|c s IH]; [reflexivity|].
  rewrite lacks_cons. intros H. apply andb_true_iff in H as [Hc Hs].
  simpl. rewrite Ascii.eqb_sym.
  destruct (Ascii.eqb sep c); [discriminate Hc|]. now rewrite (IH Hs).
Qed.

Lemma lastTwo_app (l : list string) a b : lastTwo (l ++ [a; b])%list = [a; b].
Proof.
  unfold lastTwo. rewrite length_app. simpl.
  replace (List.length l + 2 - 2)%nat with (List.length l + 0)%nat by lia.
  rewrite skipn_app, Nat.add_0_r, skipn_all, Nat.sub_diag. reflexivity.
Qed.

Lemma reposOfHrefs_ok l :
  forall repos, reposOfHrefs l = Ok repos ->
    map (fun r => Some (link_repo r)) repos = l /\
    forall r, In r repos -> r = repoOfHref (link_repo r).
Proof.
  induction l as [|[[|c h]|] l IH]; intros repos H; simpl in H;
    try discriminate H.
  - injection H as <-. split; [reflexivity|]. intros r [].
  - destruct (reposOfHrefs l) as [rs|e]; [|discriminate H].
    injection H as <-. destruct (IH rs eq_refl) as [M R]. split.
    + simpl. now rewrite M.
    + intros r [<-|I]; [reflexivity|now apply R].
Qed.

Lemma reposOfHrefs_missing l :
  In None l -> reposOfHrefs l = Throw "AssertionError".
Proof.
  induction l as [|[[|c h]|] l IH]; intros I; simpl; try reflexivity.
  - destruct I.
  - destruct I as [I|I]; [discriminate I|]. now rewrite (IH I).
Qed.

(** X24.  The list of repositories read off the task list of the
    issue: when the function returns, the targets of its entries are
    the targets of the links, in order, without those that contain
    [issues], and each entry is built from its target alone; a link
    without a target makes it throw; and the user and the name of an
    entry are the last two segments of the target. *)
Theorem reposOfTaskList_keeps_the_repository_links :
  (forall hrefs repos,
      reposOfTaskList (Some hrefs) = Ok repos ->
      map (fun r => Some (link_repo r)) repos = filter keepsHref hrefs /\
      forall r, In r repos ->
                Str.includes "issues" (link_repo r) = false /\
                r = repoOfHref (link_repo r)) /\
  (forall hrefs, In None hrefs ->
                 reposOfTaskList (Some hrefs) = Throw "AssertionError") /\
  (forall pre user name,
      Str.lacks "/" user = true -> Str.lacks "/" name = true ->
      repoOfHref (pre ++ "/" ++ user ++ "/" ++ name)
      = mkLink (pre ++ "/" ++ user ++ "/" ++ name) (Some user) (Some name)).
Proof.
  split; [|split].
  - intros hrefs repos H. cbn [reposOfTaskList] in H.
    destruct (reposOfHrefs_ok _ _ H) as [M R]. split; [exact M|].
    intros r I. split; [|now apply R].
    assert (In (Some (link_repo r)) (filter keepsHref hrefs)) as K.
    { rewrite <- M. now apply (in_map (fun r => Some (link_repo r))). }
    apply filter_In in K as [_ K]. simpl in K.
    now apply negb_true_iff in K.
  - intros hrefs I. cbn [reposOfTaskList].
    apply reposOfHrefs_missing. apply filter_In. now split.
  - intros pre user name Hu Hn. unfold repoOfHref.
    change (pre ++ "/" ++ user ++ "/" ++ name)
      with (pre ++ String "/" (user ++ String "/" name)).
    rewrite !split_app, (split_lacks _ _ Hu), (split_lacks _ _ Hn).
    change ([user] ++ [name])%list with [user; name].
    now rewrite lastTwo_app.
Qed.

Lemma reposOfTaskList_keeps_the_repository_links_witness :
  repoOfHref "https://github.com/morhetz/gruvbox"
  = mkLink "https://github.com/morhetz/gruvbox" (Some "morhetz") (Some "gruvbox").
Proof.
  exact (proj2 (proj2 reposOfTaskList_keeps_the_repository_links)
           "https://github.com" "morhetz" "gruvbox" eq_refl eq_refl).
Defined.

Example reposOfTaskList_of_two_links :
  reposOfTaskList
    (Some [Some "https://github.com/morhetz/gruvbox";
           Some "https://github.com/zed-industries/extensions/issues/2101"])
  = Ok [mkLink "https://github.com/morhetz/gruvbox"
          (Some "morhetz") (Some "gruvbox")].
Proof. reflexivity. Qed.
